(** * Telestack real-time document database: a shallow embedding

    The development follows the two TypeScript sources of the repository:

    - [TelestackrealtimeDB/src/index.ts], the Cloudflare worker: the rules
      engine ([class SecurityRules] and [rulesConfig]) and the [fetch]
      handler, route by route, over the D1 tables [documents] and [events];
    - [TelestackSDK/src/index.ts], the client: [TelestackClient.doc],
      [DocumentReference], [Query.matches], [DocumentSnapshot], and the
      cache and queue behind [asyncGetSnapshot] and [set].

    A request is taken after decoding: its method, the segments of its
    path, the auth context of its token, its JSON body with the fields the
    handlers destructure.  What the sources call but do not define is kept
    abstract where the sources do not fix it (record [host]): JavaScript's
    [eval], [RegExp] replacement, coercions, prototypes and URL parser,
    SQLite's JSON text.  The
    store is modelled by the part of SQLite's behaviour the statements of
    the worker rely on: an [events] table with an AUTOINCREMENT key, a
    [documents] table keyed by [id], the connection's
    [last_insert_rowid()], and a batch that runs its statements in order
    inside one transaction.  Wall-clock columns ([created_at],
    [updated_at]) are left out; [deleted_at] is kept as a flag. *)

From Stdlib Require Import ZArith Lia Ascii String Bool DecimalString.
From stdpp Require Import base option list gmap strings.

Local Open Scope string_scope.
Local Open Scope Z_scope.
Local Open Scope list_scope.

(** ** JavaScript strings *)

Module Js.

(** [s.split(c)] for a one-character separator: never empty, one more
    segment than there are separators. *)
Fixpoint split (sep : ascii) (s : string) : list string :=
  match s with
  | EmptyString => [EmptyString]
  | String c rest =>
      if Ascii.eqb c sep then EmptyString :: split sep rest
      else match split sep rest with
           | seg :: segs => String c seg :: segs
           | [] => [String c EmptyString]
           end
  end.

(** [parts.join(sep)]. *)
Fixpoint join (sep : string) (parts : list string) : string :=
  match parts with
  | [] => EmptyString
  | [x] => x
  | x :: rest => x +:+ sep +:+ join sep rest
  end.

(** [parts.slice(0, -1)]. *)
Definition slice_init (parts : list string) : list string := removelast parts.

(** [parts[parts.length - 1]]; [None] is [undefined] (cannot happen on
    the result of [split]). *)
Definition last_part (parts : list string) : option string := last parts.

(** [parts[parts.length - 2]]; [None] is [undefined]. *)
Definition second_last_part (parts : list string) : option string :=
  last (removelast parts).

(** [s.startsWith(p)]. *)
Definition startsWith (s p : string) : bool := String.prefix p s.

(** [s.endsWith(p)]. *)
Definition endsWith (s p : string) : bool :=
  let ls := String.length s in
  let lp := String.length p in
  (lp <=? ls)%nat && String.eqb (String.substring (ls - lp) lp s) p.

(** [s.indexOf(p)], as an option. *)
Fixpoint indexOf (p s : string) : option nat :=
  if String.prefix p s then Some 0%nat
  else match s with
       | EmptyString => None
       | String _ rest => S <$> indexOf p rest
       end.

(** [s.includes(p)]. *)
Definition includes (s p : string) : bool := bool_decide (is_Some (indexOf p s)).

(** [s.split(p)[0]] for a non-empty separator [p]: the text before the
    first occurrence of [p], or all of [s]. *)
Definition before_first (p s : string) : string :=
  match indexOf p s with
  | Some i => String.substring 0 i s
  | None => s
  end.

(** [s.substring(n)]. *)
Definition substring_from (n : nat) (s : string) : string :=
  String.substring n (String.length s - n) s.

(** [s.slice(0, -n)]. *)
Definition slice_drop_end (n : nat) (s : string) : string :=
  String.substring 0 (String.length s - n) s.

(** [s.slice(1, -1)]. *)
Definition slice_inner (s : string) : string :=
  String.substring 1 (String.length s - 2) s.

(** [String(i)] for an array index [i]: its decimal numeral, the name of
    the property that holds the element. *)
Definition index_key (i : nat) : string :=
  NilZero.string_of_uint (Nat.to_uint i).

(** [s.replace(/\//g, '_')]: the channel-name transform. *)
Fixpoint replace_slashes (s : string) : string :=
  match s with
  | EmptyString => EmptyString
  | String c rest =>
      String (if Ascii.eqb c "/" then "_"%char else c) (replace_slashes rest)
  end.

End Js.

(** ** JSON values

  Payloads are the values [request.json()] and [JSON.parse] produce.
  Numbers are restricted to integers; an object is the list of its
  members in document order. *)

#[warnings="-register-all"]
Inductive json : Type :=
| JNull
| JBool (b : bool)
| JNum (n : Z)
| JStr (s : string)
| JArr (items : list json)
| JObj (members : list (string * json)).

Module Json.

(** Member lookup, [obj[k]]. *)
Fixpoint get (k : string) (members : list (string * json)) : option json :=
  match members with
  | [] => None
  | (k', v) :: rest => if String.eqb k k' then Some v else get k rest
  end.

(** Replace the value of [k] where it stands, or append the member. *)
Fixpoint set (k : string) (v : json) (members : list (string * json))
  : list (string * json) :=
  match members with
  | [] => [(k, v)]
  | (k', v') :: rest =>
      if String.eqb k k' then (k, v) :: rest else (k', v') :: set k v rest
  end.

(** Remove the member [k]. *)
Fixpoint remove (k : string) (members : list (string * json))
  : list (string * json) :=
  match members with
  | [] => []
  | (k', v') :: rest =>
      if String.eqb k k' then remove k rest else (k', v') :: remove k rest
  end.

Definition members_of (j : json) : list (string * json) :=
  match j with JObj ms => ms | _ => [] end.

(** SQLite's [json_patch(target, patch)], the RFC 7396 MergePatch
    algorithm: a patch that is not an object replaces the target; an
    object patch is merged member by member into the target (taken as
    the empty object when it is not one), a [null] member deleting the
    key. *)
Fixpoint json_patch (target patch : json) : json :=
  match patch with
  | JObj pms =>
      JObj
        ((fix merge (pms : list (string * json)) (acc : list (string * json))
            : list (string * json) :=
            match pms with
            | [] => acc
            | (k, v) :: rest =>
                match v with
                | JNull => merge rest (remove k acc)
                | _ =>
                    merge rest
                      (set k (json_patch (default JNull (get k acc)) v) acc)
                end
            end) pms (members_of target))
  | _ => patch
  end.

(** JavaScript truthiness of a JSON value (objects and arrays are
    truthy; [null], [false], [0] and the empty string are not). *)
Definition truthy (j : json) : bool :=
  match j with
  | JNull => false
  | JBool b => b
  | JNum n => negb (n =? 0)
  | JStr s => negb (String.eqb s "")
  | JArr _ | JObj _ => true
  end.

End Json.

(** ** The storage layer: the D1 (SQLite) tables of the worker

    [initDatabase] creates

    - [documents(id TEXT PRIMARY KEY, workspace_id, collection_name, path,
      user_id, data, version, deleted_at, ...)] and
    - [events(version INTEGER PRIMARY KEY AUTOINCREMENT, id, doc_id,
      workspace_id, event_type, payload, ...)].

    These are the tables the statements of the worker fit ([schema.sql]
    declares an [events] table with a text key and a mandatory [version]
    column, which the worker's INSERT never supplies).  The [data] and
    [payload] columns hold [JSON.stringify] of a value and are read back
    through [JSON.parse]; they are kept as the value. *)

Module Store.

Inductive event_type := INSERT | SET | UPDATE | DELETE.

Record doc_row := {
  doc_id : string;
  doc_workspace_id : string;
  doc_collection_name : string;
  doc_path : string;
  doc_user_id : string;
  doc_data : json;
  doc_version : Z;
  doc_deleted : bool            (* [deleted_at IS NOT NULL] *)
}.

Record event_row := {
  ev_version : Z;
  ev_id : string;
  ev_doc_id : string;
  ev_workspace_id : string;
  ev_event_type : event_type;
  ev_payload : json
}.

(** The database: both tables, the AUTOINCREMENT counter of [events]
    (the largest key ever handed out) and the connection's
    [last_insert_rowid()]. *)
Record db := {
  documents : gmap string doc_row;
  events : list event_row;
  events_seq : Z;
  last_insert_rowid : Z
}.

Definition empty : db :=
  {| documents := ∅; events := []; events_seq := 0; last_insert_rowid := 0 |}.

(** The prepared statements the worker binds and runs. *)
Inductive stmt :=
(** [INSERT INTO events(id, doc_id, workspace_id, event_type, payload)
    VALUES (?, ?, ?, ty, ?)] *)
| InsertEvent (id doc ws : string) (ty : event_type) (payload : json)
(** [INSERT INTO documents (id, workspace_id, collection_name, path,
    user_id, data, version) VALUES (?, ?, ?, ?, ?, ?, ?)] *)
| InsertDocument (id ws col path user : string) (data : json) (version : Z)
(** [UPDATE documents SET data = ?, version = ?, ..., deleted_at = NULL
    WHERE id = ?] *)
| UpdateDocumentSet (data : json) (version : Z) (id : string)
(** [UPDATE documents SET data = json_patch(data, ?), version = ?, ...,
    deleted_at = NULL WHERE id = ?] *)
| UpdateDocumentPatch (patch : json) (version : Z) (id : string)
(** [UPDATE documents SET deleted_at = CURRENT_TIMESTAMP, version = ?
    WHERE id = ?] *)
| UpdateDocumentTombstone (version : Z) (id : string)
(** batch SET: [INSERT INTO documents(...) VALUES(?, ?, ?, ?, ?, ?,
    (SELECT last_insert_rowid())) ON CONFLICT(id) DO UPDATE SET
    data = excluded.data, version = excluded.version, ...,
    deleted_at = NULL] *)
| BatchUpsertDocument (id ws col path user : string) (data : json)
(** batch UPDATE: [UPDATE documents SET data = ?,
    version = (SELECT last_insert_rowid()), ... WHERE id = ?] *)
| BatchUpdateDocument (data : json) (id : string)
(** batch DELETE: [UPDATE documents SET deleted_at = CURRENT_TIMESTAMP,
    version = (SELECT last_insert_rowid()) WHERE id = ?] *)
| BatchTombstoneDocument (id : string).

(** An UPDATE ... WHERE id = ? touches the row of that key, or nothing. *)
Definition update_row (f : doc_row -> doc_row) (id : string) (d : db) : db :=
  {| documents := alter f id (documents d);
     events := events d;
     events_seq := events_seq d;
     last_insert_rowid := last_insert_rowid d |}.

(** A row inserted into [documents], which has no integer key of its
    own, gets the next rowid; the worker never deletes a row, so this is
    the number of rows after the insertion. *)
Definition insert_row (r : doc_row) (d : db) : db :=
  {| documents := <[doc_id r := r]> (documents d);
     events := events d;
     events_seq := events_seq d;
     last_insert_rowid := Z.of_nat (size (documents d)) + 1 |}.

Definition set_data_version (data : json) (v : Z) (r : doc_row) : doc_row :=
  {| doc_id := doc_id r; doc_workspace_id := doc_workspace_id r;
     doc_collection_name := doc_collection_name r; doc_path := doc_path r;
     doc_user_id := doc_user_id r;
     doc_data := data; doc_version := v; doc_deleted := false |}.

Definition patch_data_version (patch : json) (v : Z) (r : doc_row) : doc_row :=
  set_data_version (Json.json_patch (doc_data r) patch) v r.

Definition tombstone_version (v : Z) (r : doc_row) : doc_row :=
  {| doc_id := doc_id r; doc_workspace_id := doc_workspace_id r;
     doc_collection_name := doc_collection_name r; doc_path := doc_path r;
     doc_user_id := doc_user_id r;
     doc_data := doc_data r; doc_version := v; doc_deleted := true |}.

(** batch UPDATE keeps [deleted_at] as it is. *)
Definition overwrite_data_version (data : json) (v : Z) (r : doc_row) : doc_row :=
  {| doc_id := doc_id r; doc_workspace_id := doc_workspace_id r;
     doc_collection_name := doc_collection_name r; doc_path := doc_path r;
     doc_user_id := doc_user_id r;
     doc_data := data; doc_version := v; doc_deleted := doc_deleted r |}.

(** One statement; [None] is a constraint failure (the primary key of
    [documents]). *)
Definition exec (s : stmt) (d : db) : option db :=
  match s with
  | InsertEvent id doc ws ty payload =>
      let v := events_seq d + 1 in
      Some {| documents := documents d;
              events := events d ++
                [ {| ev_version := v; ev_id := id; ev_doc_id := doc;
                     ev_workspace_id := ws; ev_event_type := ty;
                     ev_payload := payload |} ];
              events_seq := v;
              last_insert_rowid := v |}
  | InsertDocument id ws col path user data version =>
      match documents d !! id with
      | Some _ => None
      | None =>
          Some (insert_row
                  {| doc_id := id; doc_workspace_id := ws;
                     doc_collection_name := col; doc_path := path;
                     doc_user_id := user; doc_data := data;
                     doc_version := version; doc_deleted := false |} d)
      end
  | UpdateDocumentSet data version id =>
      Some (update_row (set_data_version data version) id d)
  | UpdateDocumentPatch patch version id =>
      Some (update_row (patch_data_version patch version) id d)
  | UpdateDocumentTombstone version id =>
      Some (update_row (tombstone_version version) id d)
  | BatchUpsertDocument id ws col path user data =>
      let v := last_insert_rowid d in
      match documents d !! id with
      | Some _ => Some (update_row (set_data_version data v) id d)
      | None =>
          Some (insert_row
                  {| doc_id := id; doc_workspace_id := ws;
                     doc_collection_name := col; doc_path := path;
                     doc_user_id := user; doc_data := data;
                     doc_version := v; doc_deleted := false |} d)
      end
  | BatchUpdateDocument data id =>
      Some (update_row (overwrite_data_version data (last_insert_rowid d)) id d)
  | BatchTombstoneDocument id =>
      Some (update_row (tombstone_version (last_insert_rowid d)) id d)
  end.

(** [stmt.run()]: the statement's effect and its [meta.last_row_id]. *)
Definition run (s : stmt) (d : db) : option (db * Z) :=
  d' ← exec s d; Some (d', last_insert_rowid d').

(** [DB.batch(stmts)]: the statements in order inside one transaction,
    with the [meta.last_row_id] of each; a failing statement rolls the
    whole batch back ([None]). *)
Fixpoint batch (stmts : list stmt) (d : db) : option (db * list Z) :=
  match stmts with
  | [] => Some (d, [])
  | s :: rest =>
      '(d1, rid) ← run s d;
      '(d2, rids) ← batch rest d1;
      Some (d2, rid :: rids)
  end.

(** [SELECT ... FROM documents WHERE id = ?].first() *)
Definition select_document (id : string) (d : db) : option doc_row :=
  documents d !! id.

(** [SELECT * FROM documents WHERE id = ? AND deleted_at IS NULL].first() *)
Definition select_live_document (id : string) (d : db) : option doc_row :=
  r ← documents d !! id; if doc_deleted r then None else Some r.

End Store.

(** ** Host facilities

    What the sources call but do not define.  [eval] and [RegExp] are
    JavaScript's; their result on a given text is not fixed here.
    [json_text] is the text SQLite holds for a stored JSON array or object
    and [json_parse] reads such a text back; [to_primitive] and
    [to_number] are the coercions of JavaScript's relational operators;
    [inherited] is the prototype chain of the values [JSON.parse]
    makes; [url_pathname] is the URL parser. *)

(** The primitive values the coercions of JavaScript end in. *)
Inductive primitive :=
| PUndefined | PNull | PBool (b : bool) | PNum (n : Z) | PStr (s : string).

Record host := {
  (** [eval(s)]: [None] when it throws (a syntax error, a reference to a
      variable that is not in scope, ...), otherwise the truthiness of
      the value, which is all the callers look at. *)
  js_eval : string -> option bool;
  (** [s.replace(new RegExp(source, 'g'), replacement)]: [None] when the
      pattern is rejected. *)
  regexp_replace : string -> string -> string -> option string;
  (** The minified JSON text of a value, as [json_extract] returns it for
      an array or an object. *)
  json_text : json -> string;
  (** SQLite's JSON parser on a text value; [None] is "malformed JSON". *)
  json_parse : string -> option json;
  (** [ToPrimitive] of an array or an object: its [toString()]. *)
  to_primitive : json -> string;
  (** [ToNumber] of a string; [None] is [NaN]. *)
  to_number : string -> option Z;
  (** [v[k]] where [k] names no property of [v] itself: the member found
      on the prototype chain of [v] ([constructor], [toString],
      [__proto__], the methods of arrays and strings, ...), taken by what
      [ToPrimitive] makes of it (the source text of a function, say);
      [None] when the chain has no such member. *)
  inherited : json -> string -> option primitive;
  (** [new URL(text).pathname] for the text a request was sent to: the
      parser cuts the origin, the query and the fragment off, rewrites
      dot segments and encodes the characters a path cannot hold. *)
  url_pathname : string -> string
}.

(** ** The rules engine: [class SecurityRules] *)

Module Rules.

Inductive operation := Read | Write | Delete.

(** [rule.allow]: each entry an expression or absent. *)
Record allow := {
  allow_read : option string;
  allow_write : option string;
  allow_delete : option string
}.

Record rule := { rule_path : string; rule_allow : allow }.

(** The auth context built from a verified token, [{ userId: payload.sub }];
    a field is [None] when it is [undefined]. *)
Record auth_ctx := { auth_userId : option string; auth_role : option string }.

(** [match.params]: parameter names to path segments, in insertion order
    (the order [Object.entries] walks them in, names that read as array
    indices apart). *)
Definition params := list (string * string).

Fixpoint set_param (k v : string) (ps : params) : params :=
  match ps with
  | [] => [(k, v)]
  | (k', v') :: rest =>
      if String.eqb k k' then (k, v) :: rest else (k', v') :: set_param k v rest
  end.

(** The segment loop of [matchPath], over pattern and path segments of
    the same length. *)
Fixpoint match_segments (patternParts pathParts : list string) (acc : params)
  : option params :=
  match patternParts, pathParts with
  | pat :: pats, seg :: segs =>
      if Js.startsWith pat "{" && Js.endsWith pat "}" then
        match_segments pats segs (set_param (Js.slice_inner pat) seg acc)
      else if String.eqb pat seg then match_segments pats segs acc
      else None
  | _, _ => Some acc
  end.

(** [matchPath(pattern, path)]: [None] is [null]. *)
Definition matchPath (pattern path : string) : option params :=
  let patternParts := Js.split "/" pattern in
  let pathParts := Js.split "/" path in
  if Js.endsWith pattern "/**"
     && Js.startsWith path (Js.slice_drop_end 3 pattern)
  then Some []
  else if Js.includes pattern "{path=**}"
          && Js.startsWith path (Js.before_first "{path=**}" pattern)
  then
    let basePattern := Js.before_first "{path=**}" pattern in
    Some [("path", Js.substring_from (String.length basePattern) path)]
  else if negb (length patternParts =? length pathParts)%nat then None
  else match_segments patternParts pathParts [].

(** [rule.allow[operation] || rule.allow['write'] || 'false']: an absent
    or empty entry is falsy. *)
Definition nonempty (o : option string) : option string :=
  match o with
  | Some s => if String.eqb s "" then None else Some s
  | None => None
  end.

Definition allow_entry (a : allow) (op : operation) : option string :=
  match op with
  | Read => allow_read a
  | Write => allow_write a
  | Delete => allow_delete a
  end.

Definition expression_of (r : rule) (op : operation) : string :=
  match nonempty (allow_entry (rule_allow r) op) with
  | Some e => e
  | None =>
      match nonempty (allow_write (rule_allow r)) with
      | Some e => e
      | None => "false"
      end
  end.

Definition quote (s : string) : string := "'" +:+ s +:+ "'".

(** [`${v}`] of a possibly undefined string. *)
Definition template (v : option string) : string := default "undefined" v.

Section Evaluator.

Variable h : host.

(** The first loop of the [try] block: every string-valued entry of
    [{ ...match.params, auth }] is substituted; the [auth] entry is an
    object or [null] and is skipped, and shadows a parameter of that name.
    [None] is an exception. *)
Fixpoint substitute_params (ps : params) (evalStr : string) : option string :=
  match ps with
  | [] => Some evalStr
  | (key, value) :: rest =>
      if String.eqb key "auth" then substitute_params rest evalStr
      else
        s ← regexp_replace h key (quote value) evalStr;
        substitute_params rest s
  end.

(** The [if (context.auth)] block. *)
Definition substitute_auth (auth : option auth_ctx) (evalStr : string)
  : option string :=
  match auth with
  | None => Some evalStr
  | Some a =>
      s1 ← regexp_replace h "auth\.userId" (quote (template (auth_userId a))) evalStr;
      s2 ← regexp_replace h "auth\.sub" (quote (template (auth_userId a))) s1;
      regexp_replace h "auth\.role"
        (quote (default "" (nonempty (auth_role a)))) s2
  end.

(** The body of the [try] block; [None] when it throws. *)
Definition try_eval (expression : string) (ps : params) (auth : option auth_ctx)
  : option bool :=
  s ← substitute_params ps expression;
  s' ← substitute_auth auth s;
  js_eval h s'.

(** [evaluateExpression(expression, { ...params, auth })] *)
Definition evaluateExpression (expression : string) (ps : params)
    (auth : option auth_ctx) : bool :=
  if String.eqb expression "true" then true
  else if String.eqb expression "false" then false
  else if String.eqb expression "auth !== null" then bool_decide (is_Some auth)
  else match try_eval expression ps auth with
       | Some b => b
       | None => false            (* [catch (e) { return false; }] *)
       end.

(** [evaluate(path, operation, auth)] over the rule list: the first rule
    whose pattern matches decides; none matching is the default deny. *)
Fixpoint evaluate (rules : list rule) (path : string) (op : operation)
    (auth : option auth_ctx) : bool :=
  match rules with
  | [] => false
  | r :: rest =>
      match matchPath (rule_path r) path with
      | Some ps => evaluateExpression (expression_of r op) ps auth
      | None => evaluate rest path op auth
      end
  end.

End Evaluator.

Definition mk_allow (r w d : option string) : allow :=
  {| allow_read := r; allow_write := w; allow_delete := d |}.

(** [rulesConfig.rules] *)
Definition rulesConfig : list rule :=
  [ {| rule_path := "sync";
       rule_allow := mk_allow (Some "auth !== null") None None |};
    {| rule_path := "storage/users/{userId}/**";
       rule_allow := mk_allow (Some "auth !== null && auth.sub === userId")
                              (Some "auth !== null && auth.sub === userId")
                              (Some "auth !== null && auth.sub === userId") |};
    {| rule_path := "documents/{path=**}";
       rule_allow := mk_allow (Some "auth.userId === userId")
                              (Some "auth.userId === userId") None |};
    {| rule_path := "{collection}";
       rule_allow := mk_allow (Some "true") (Some "auth !== null") None |};
    {| rule_path := "{collection}/{id}";
       rule_allow := mk_allow (Some "true") (Some "auth !== null") None |};
    {| rule_path := "{collection}/{id}/**";
       rule_allow := mk_allow (Some "true") (Some "auth !== null") None |} ].

End Rules.

(** ** SQL values and the conditions of the query route

    The part of SQLite's expression semantics that the WHERE clause built
    by the query route uses: storage classes NULL, INTEGER and TEXT,
    comparison without affinity (NULL is incomparable, every integer is
    below every text, texts compare bytewise), three-valued conditions, and
    the JSON functions [json_extract] and [json_each]. *)

Module Sql.

Inductive value := Null | Int (n : Z) | Text (s : string).

(** The six comparison operators, [IN], [LIKE] and the [EXISTS (SELECT 1
    FROM json_each(json_extract(data, '$.field')) WHERE json_each.value = ?)]
    of the worker, each on [json_extract(data, '$.field')] and bound
    parameters. *)
Inductive cmp := CEq | CNe | CLt | CLe | CGt | CGe.

Inductive cond :=
| Compare (field : string) (c : cmp) (param : value)
| InList (field : string) (ps : list value)
| ExistsEach (field : string) (param : value)
| Like (field : string) (param : value).

(** Three-valued truth: [None] is NULL. *)
Definition compare_values (a b : value) : option comparison :=
  match a, b with
  | Null, _ | _, Null => None
  | Int x, Int y => Some (x ?= y)
  | Int _, Text _ => Some Lt
  | Text _, Int _ => Some Gt
  | Text x, Text y => Some (String.compare x y)
  end.

Definition holds_cmp (c : cmp) (o : comparison) : bool :=
  match c, o with
  | CEq, Eq => true
  | CNe, (Lt | Gt) => true
  | CLt, Lt => true
  | CLe, (Lt | Eq) => true
  | CGt, Gt => true
  | CGe, (Gt | Eq) => true
  | _, _ => false
  end.

Definition eval_cmp (c : cmp) (a b : value) : option bool :=
  holds_cmp c <$> compare_values a b.

(** [a IN (p1, ..., pn)] *)
Definition eval_in (a : value) (ps : list value) : option bool :=
  match ps with
  | [] => Some false
  | _ =>
      if existsb (fun p => bool_decide (eval_cmp CEq a p = Some true)) ps
      then Some true
      else if existsb (fun p => bool_decide (eval_cmp CEq a p = None)) ps
      then None
      else Some false
  end.

(** The text a value is cast to by [LIKE]. *)
Definition to_text (v : value) : option string :=
  match v with
  | Null => None
  | Int n => Some (NilZero.string_of_int (Z.to_int n))
  | Text s => Some s
  end.

Definition is_upper (c : ascii) : bool :=
  (65 <=? nat_of_ascii c)%nat && (nat_of_ascii c <=? 90)%nat.

Definition fold_case (c : ascii) : ascii :=
  if is_upper c then ascii_of_nat (nat_of_ascii c + 32) else c.

(** [s LIKE pattern]: [%] is any run of characters, [_] any one
    character, ASCII letters match without regard to case. *)
Fixpoint like (pattern s : string) : bool :=
  match pattern with
  | EmptyString => match s with EmptyString => true | _ => false end
  | String p pattern' =>
      if Ascii.eqb p "%" then
        (fix skip (s : string) : bool :=
           like pattern' s
           || match s with
              | EmptyString => false
              | String _ s' => skip s'
              end) s
      else
        match s with
        | EmptyString => false
        | String c s' =>
            (Ascii.eqb p "_" || Ascii.eqb (fold_case p) (fold_case c))
            && like pattern' s'
        end
  end.

Definition eval_like (a pattern : value) : option bool :=
  x ← to_text a; p ← to_text pattern; Some (like p x).

(** Walking the labels of a path [$.l1.l2...] down a JSON value. *)
Fixpoint lookup_path (labels : list string) (j : json) : option json :=
  match labels with
  | [] => Some j
  | l :: rest =>
      match j with
      | JObj ms => Json.get l ms ≫= lookup_path rest
      | _ => None
      end
  end.

(** The labels of ['$.' + field]; [None] when a label is empty, which
    SQLite rejects as a bad JSON path. *)
Definition path_labels (field : string) : option (list string) :=
  let labels := Js.split "." field in
  if existsb (String.eqb "") labels then None else Some labels.

Section Engine.

Variable h : host.

(** The SQL value of a JSON element. *)
Definition of_json (j : json) : value :=
  match j with
  | JNull => Null
  | JBool b => Int (if b then 1 else 0)
  | JNum n => Int n
  | JStr s => Text s
  | JArr _ | JObj _ => Text (json_text h j)
  end.

Definition element_at (field : string) (data : json) : option (option json) :=
  labels ← path_labels field; Some (lookup_path labels data).

(** [json_extract(data, '$.field')]; the outer [None] is an SQL error,
    a missing element is NULL. *)
Definition json_extract (field : string) (data : json) : option value :=
  e ← element_at field data; Some (from_option of_json Null e).

(** The [value] column of [json_each(json_extract(data, '$.field'))]: the
    elements of an array, the member values of an object, a number or a
    boolean itself, nothing for NULL; a text is parsed as JSON first. *)
Definition rows_of_json (j : json) : list value :=
  match j with
  | JNull => []
  | JArr items => of_json <$> items
  | JObj ms => (fun m => of_json (snd m)) <$> ms
  | _ => [of_json j]
  end.

Definition json_each (field : string) (data : json) : option (list value) :=
  e ← element_at field data;
  match e with
  | None => Some []
  | Some (JStr s) => rows_of_json <$> json_parse h s
  | Some j => Some (rows_of_json j)
  end.

(** A condition on one row's [data]: the outer [None] is an SQL error,
    the inner one NULL. *)
Definition eval_cond (c : cond) (data : json) : option (option bool) :=
  match c with
  | Compare f op p => v ← json_extract f data; Some (eval_cmp op v p)
  | InList f ps => v ← json_extract f data; Some (eval_in v ps)
  | ExistsEach f p =>
      rows ← json_each f data;
      Some (Some (existsb (fun r => bool_decide (eval_cmp CEq r p = Some true)) rows))
  | Like f p => v ← json_extract f data; Some (eval_like v p)
  end.

(** [c1 AND ... AND cn] as a WHERE clause keeps the row when every
    condition is true; [None] is an SQL error. *)
Fixpoint where_all (cs : list cond) (data : json) : option bool :=
  match cs with
  | [] => Some true
  | c :: rest =>
      t ← eval_cond c data;
      keep ← where_all rest data;
      Some (bool_decide (t = Some true) && keep)
  end.

End Engine.

End Sql.

(** ** Query filters, as the SDK builds them and the worker reads them *)

(** [WhereFilterOp] *)
Inductive filter_op :=
| OpEq | OpNe | OpLt | OpLe | OpGt | OpGe | OpArrayContains | OpIn | OpLike.

(** [{ field, op, value }] *)
Record filter := { field : string; op : filter_op; value : json }.

(** ** The worker: [fetch] *)

Module Worker.

Inductive method := GET | POST | PUT | PATCH | DELETE | OPTIONS | HEAD.

(** One entry of [operations] in the body of the batch route. [op_type]
    is compared with ['SET'], ['UPDATE'] and ['DELETE']; [op_data] and
    [op_expectedVersion] may be absent. *)
Record batch_op := {
  op_type : string;
  op_path : string;
  op_data : option json;
  op_expectedVersion : option Z
}.

(** The decoded JSON body; each handler destructures the fields it
    needs, an absent field being [undefined]. *)
Record body := {
  data : option json;
  userId : option string;
  workspaceId : option string;
  parentPath : option string;
  expectedVersion : option Z;
  operations : option (list batch_op)    (* [None]: not an array *)
}.

(** [JSON.parse(filtersJson)] *)
Inductive parsed_filters :=
| FiltersInvalid                          (* [JSON.parse] throws *)
| FiltersNotArray
| Filters (fs : list filter).

(** [url.searchParams] *)
Record search_params := {
  q_workspaceId : option string;
  q_parentPath : option string;
  q_since : option Z;
  q_filters : option parsed_filters;
  q_orderByField : option string;
  q_orderDirection : option string;
  q_limit : option Z
}.

(** [await request.json()]: the promise rejects (there is no body, or it
    is not JSON), or resolves to the JSON [null], which cannot be
    destructured, or to a value whose members the handlers destructure (a
    number, a string or an array has none of them). *)
Inductive parsed_body :=
| BodyRejected
| BodyNull
| Body (b : body).

Record request := {
  req_method : method;
  (** [url.pathname.split('/').filter(Boolean)] *)
  req_pathParts : list string;
  (** the auth context of a verified bearer token, or [null] *)
  req_auth : option Rules.auth_ctx;
  (** [request.headers.get('workspaceId')] *)
  req_workspace_header : option string;
  req_body : parsed_body;
  req_search : search_params
}.

(** [const { ... } = await request.json()]: the members a handler
    destructures; [None] when this throws, the promise rejecting or its
    value being [null]. *)
Definition req_json (req : request) : option body :=
  match req_body req with
  | Body b => Some b
  | BodyRejected | BodyNull => None
  end.

Inductive pub_type := CREATED | UPDATED | DELETED.

(** The [doc] member of a publication. *)
Record pub_doc := {
  pd_id : string;
  pd_collection : option string;
  pd_path : string;
  pd_data : option json;
  pd_version : option Z;
  pd_userId : option string;
  pd_workspaceId : option string
}.

(** The [data] of a publication; a member that the handler does not
    write is [None]. *)
Record pub_data := {
  pub_kind : pub_type;
  pub_id : option string;
  pub_path : option string;
  pub_doc_member : option pub_doc;
  pub_data_member : option json;
  pub_userId : option string;
  pub_version : option Z
}.

Record publication := { channel : string; payload : pub_data }.

(** The SELECT statements of the read routes; the response lists the
    rows the statement yields. *)
Inductive select :=
(** [SELECT * FROM events WHERE workspace_id = ? AND version > ?
    ORDER BY version ASC LIMIT 1000] *)
| SelectEvents (ws : string) (since : Z)
(** [SELECT * FROM documents WHERE workspace_id = ? AND deleted_at IS
    NULL AND <conds> [ORDER BY json_extract(data, '$.field') dir] LIMIT ?] *)
| SelectQuery (ws : string) (conds : list Sql.cond)
    (order : option (string * bool)) (limit : Z)
(** [SELECT * FROM documents WHERE collection_name = ? AND workspace_id
    = ? AND deleted_at IS NULL AND ...] *)
| SelectList (collection ws : string) (parent : option string).

Inductive response_body :=
| NoBody
| PlainText (s : string)
| ErrorMessage                            (* [e.message] *)
| JsonMessage (s : string)
| JsonToken (user : string)
| JsonCreated (id path : string) (version : Z)
| JsonWritten (version : Z)               (* [{ success: true, version }] *)
| JsonDocument (r : Store.doc_row)
| JsonRows (s : select).

Record response := { status : Z; resp_body : response_body }.

(** What a request leaves behind: the response, the database, and the
    publications handed to [publishToCentrifugo], in order. *)
Record outcome := {
  out_response : response;
  out_db : Store.db;
  out_published : list publication
}.

Definition respond (st : Z) (b : response_body) (d : Store.db)
    (pubs : list publication) : outcome :=
  {| out_response := {| status := st; resp_body := b |};
     out_db := d; out_published := pubs |}.

(** [url.pathname.split('/').filter(Boolean)] *)
Definition path_parts (pathname : string) : list string :=
  List.filter (fun seg => negb (String.eqb seg "")) (Js.split "/" pathname).

(** [x || dflt] on a possibly absent string. *)
Definition or_default (x : option string) (dflt : string) : string :=
  default dflt (Rules.nonempty x).

(** [`collection:${p.replace(/\//g, '_')}`] and [`path:${...}`] *)
Definition collection_channel (collectionPath : string) : string :=
  "collection:" +:+ Js.replace_slashes collectionPath.

Definition path_channel (docPath : string) : string :=
  "path:" +:+ Js.replace_slashes docPath.

(** [path.split('/').slice(0, -1).join('/')] *)
Definition collection_path_of (path : string) : string :=
  Js.join "/" (Js.slice_init (Js.split "/" path)).

(** [expectedVersion !== undefined && doc.version !== expectedVersion] *)
Definition version_conflict (expected : option Z) (current : Z) : bool :=
  match expected with
  | Some v => negb (current =? v)
  | None => false
  end.

Section Handlers.

Variable h : host.

(** The successive results of [crypto.randomUUID()] within one request. *)
Variable uuid : nat -> string.

(** [security.evaluate(path, operation, auth)] on the configured rules. *)
Definition allowed (path : string) (op : Rules.operation)
    (auth : option Rules.auth_ctx) : bool :=
  Rules.evaluate h Rules.rulesConfig path op auth.

(** *** [POST /documents/batch] *)

(** [JSON.stringify(data || {})] *)
Definition event_payload (data : option json) : json :=
  match data with
  | Some j => if Json.truthy j then j else JObj []
  | None => JObj []
  end.

(** [type === 'SET' ? 'INSERT' : type === 'UPDATE' ? 'UPDATE' : 'DELETE'] *)
Definition batch_event_type (type : string) : Store.event_type :=
  if String.eqb type "SET" then Store.INSERT
  else if String.eqb type "UPDATE" then Store.UPDATE
  else Store.DELETE.

(** [type === 'DELETE' ? 'DELETED' : (type === 'SET' ? 'CREATED' : 'UPDATED')] *)
Definition batch_pub_type (type : string) : pub_type :=
  if String.eqb type "DELETE" then DELETED
  else if String.eqb type "SET" then CREATED
  else UPDATED.

(** The document statement of one operation. The outer [None] is [bind]
    throwing on an [undefined] argument ([col] of a one-segment path,
    [JSON.stringify(undefined)]); an unknown type prepares nothing. *)
Definition batch_doc_stmt (type id ws : string) (col : option string)
    (path user : string) (data : option json) : option (list Store.stmt) :=
  if String.eqb type "SET" then
    c ← col; j ← data; Some [Store.BatchUpsertDocument id ws c path user j]
  else if String.eqb type "UPDATE" then
    j ← data; Some [Store.BatchUpdateDocument j id]
  else if String.eqb type "DELETE" then
    Some [Store.BatchTombstoneDocument id]
  else Some [].

(** The two publications prepared for one operation, before the version
    is written into them. *)
Definition batch_publications (type id path user : string)
    (data : option json) : list publication :=
  [ {| channel := collection_channel (collection_path_of path);
       payload :=
         {| pub_kind := batch_pub_type type; pub_id := Some id;
            pub_path := Some path;
            pub_doc_member :=
              Some {| pd_id := id; pd_collection := None; pd_path := path;
                      pd_data := data; pd_version := None;
                      pd_userId := Some user; pd_workspaceId := None |};
            pub_data_member := None; pub_userId := None;
            pub_version := None |} |};
    {| channel := path_channel path;
       payload :=
         {| pub_kind := batch_pub_type type; pub_id := Some id;
            pub_path := Some path; pub_doc_member := None;
            pub_data_member := data; pub_userId := Some user;
            pub_version := None |} |} ].

(** The outcome of the [for (const op of operations)] loop: an early
    response, or the statements and publications collected. *)
Inductive prepared :=
| Rejected (st : Z) (b : response_body)
| Prepared (stmts : list Store.stmt) (pubs : list publication).

(** [!currentDoc || currentDoc.version !== expectedVersion], under
    [expectedVersion !== undefined]. *)
Definition batch_conflict (expected : option Z) (current : option Store.doc_row)
  : bool :=
  match expected, current with
  | None, _ => false
  | Some _, None => true
  | Some v, Some r => negb (Store.doc_version r =? v)
  end.

Fixpoint prepare_batch (d : Store.db) (auth : option Rules.auth_ctx)
    (ws : string) (ops : list batch_op) (i : nat)
    (stmts : list Store.stmt) (pubs : list publication) : prepared :=
  match ops with
  | [] => Prepared stmts pubs
  | o :: rest =>
      let type := op_type o in
      let path := op_path o in
      let parts := Js.split "/" path in
      let col := Js.second_last_part parts in
      let id := default "" (Js.last_part parts) in
      let user := or_default (auth ≫= Rules.auth_userId) "anonymous" in
      let currentDoc := Store.select_document id d in
      if batch_conflict (op_expectedVersion o) currentDoc then
        Rejected 409 (PlainText ("Version Conflict for " +:+ path))
      else
        let authOp := if String.eqb type "DELETE" then Rules.Delete else Rules.Write in
        if negb (allowed path authOp auth) then
          Rejected 403 (PlainText ("Permission Denied for " +:+ path))
        else
          let event :=
            Store.InsertEvent (uuid i) id ws (batch_event_type type)
              (event_payload (op_data o)) in
          match batch_doc_stmt type id ws col path user (op_data o) with
          | None => Rejected 500 ErrorMessage
          | Some docStmts =>
              prepare_batch d auth ws rest (S i)
                (stmts ++ event :: docStmts)
                (pubs ++ batch_publications type id path user (op_data o))
          end
  end.

(** [pub.data.version = lastVersion] *)
Definition with_version (v : Z) (p : publication) : publication :=
  {| channel := channel p;
     payload :=
       {| pub_kind := pub_kind (payload p); pub_id := pub_id (payload p);
          pub_path := pub_path (payload p);
          pub_doc_member := pub_doc_member (payload p);
          pub_data_member := pub_data_member (payload p);
          pub_userId := pub_userId (payload p);
          pub_version := Some v |} |}.

Definition handle_batch (req : request) (d : Store.db) : outcome :=
  match req_json req with
  | None => respond 500 ErrorMessage d []
  | Some b =>
      match operations b with
      | None => respond 400 (PlainText "operations array required") d []
      | Some ops =>
          let ws := or_default (req_workspace_header req) "default" in
          match prepare_batch d (req_auth req) ws ops 0 [] [] with
          | Rejected st msg => respond st msg d []
          | Prepared d1Ops publishPayloads =>
              match Store.batch d1Ops d with
              | None => respond 500 ErrorMessage d []
              | Some (d', batchRes) =>
                  match last batchRes with
                  | None => respond 500 ErrorMessage d' []
                  | Some lastVersion =>
                      respond 200 (JsonWritten lastVersion) d'
                        (with_version lastVersion <$> publishPayloads)
                  end
              end
          end
      end
  end.

(** *** [POST /documents/<collection>]: create with a fresh id *)

(** [parentPath ? `${parentPath}/${rest}` : rest] *)
Definition under_parent (parent : option string) (rest : string) : string :=
  match Rules.nonempty parent with
  | Some p => p +:+ "/" +:+ rest
  | None => rest
  end.

Definition doc_publication (kind : pub_type) (id : option string)
    (doc : pub_doc) (version : option Z) : pub_data :=
  {| pub_kind := kind; pub_id := id; pub_path := None;
     pub_doc_member := Some doc; pub_data_member := None;
     pub_userId := None; pub_version := version |}.

(** The same payload on the collection channel, then on the document
    channel. *)
Definition publish_both (collectionPath docPath : string) (p : pub_data)
  : list publication :=
  [ {| channel := collection_channel collectionPath; payload := p |};
    {| channel := path_channel docPath; payload := p |} ].

Definition handle_create (req : request) (collection : option string)
    (d : Store.db) : outcome :=
  match collection with
  | None => respond 400 (PlainText "Collection required") d []
  | Some col =>
      match req_json req with
      | None => respond 500 ErrorMessage d []
      | Some b =>
          match data b, Rules.nonempty (userId b) with
          | Some j, Some user =>
              if negb (Json.truthy j) then
                respond 400 (PlainText "data and userId required") d []
              else
                let id := uuid 0 in
                let eventId := uuid 1 in
                let workspace := or_default (workspaceId b) "default" in
                let docPath := under_parent (parentPath b) (col +:+ "/" +:+ id) in
                let collectionPath := under_parent (parentPath b) col in
                match Store.run (Store.InsertEvent eventId id workspace Store.INSERT j) d with
                | None => respond 500 ErrorMessage d []
                | Some (d1, version) =>
                    match Store.run (Store.InsertDocument id workspace col docPath user j version) d1 with
                    | None => respond 500 ErrorMessage d1 []
                    | Some (d2, _) =>
                        respond 201 (JsonCreated id docPath version) d2
                          (publish_both collectionPath docPath
                             (doc_publication CREATED None
                                {| pd_id := id; pd_collection := Some col;
                                   pd_path := docPath; pd_data := Some j;
                                   pd_version := Some version;
                                   pd_userId := Some user;
                                   pd_workspaceId := Some workspace |}
                                None))
                    end
                end
          | _, _ => respond 400 (PlainText "data and userId required") d []
          end
      end
  end.

(** *** [POST /documents/auth/token] *)

Definition handle_token (req : request) (d : Store.db) : outcome :=
  match req_json req with
  | None => respond 500 ErrorMessage d []
  | Some b =>
      match Rules.nonempty (userId b) with
      | None => respond 400 (PlainText "userId required") d []
      | Some user => respond 200 (JsonToken user) d []
      end
  end.

(** *** The read routes *)

Definition is_field_char (c : ascii) : bool :=
  let n := nat_of_ascii c in
  ((97 <=? n) && (n <=? 122) || (65 <=? n) && (n <=? 90)
   || (48 <=? n) && (n <=? 57) || (n =? 46))%nat.

(** [/^[a-zA-Z0-9.]+$/.test(field)] *)
Definition field_ok (field : string) : bool :=
  negb (String.eqb field "") && forallb is_field_char (list_ascii_of_string field).

(** What [bind] makes of a parameter: [null] is NULL, a boolean 1 or 0;
    an array or an object is refused ([None]). *)
Definition bind_value (j : json) : option Sql.value :=
  match j with
  | JNull => Some Sql.Null
  | JBool b => Some (Sql.Int (if b then 1 else 0))
  | JNum n => Some (Sql.Int n)
  | JStr s => Some (Sql.Text s)
  | JArr _ | JObj _ => None
  end.

(** The clause one filter adds to the query, if any; the outer [None] is
    a parameter that [bind] refuses. *)
Definition compile_filter (f : filter) : option (list Sql.cond) :=
  if negb (field_ok (field f)) then Some []
  else
    match op f with
    | OpEq => p ← bind_value (value f); Some [Sql.Compare (field f) Sql.CEq p]
    | OpNe => p ← bind_value (value f); Some [Sql.Compare (field f) Sql.CNe p]
    | OpLt => p ← bind_value (value f); Some [Sql.Compare (field f) Sql.CLt p]
    | OpLe => p ← bind_value (value f); Some [Sql.Compare (field f) Sql.CLe p]
    | OpGt => p ← bind_value (value f); Some [Sql.Compare (field f) Sql.CGt p]
    | OpGe => p ← bind_value (value f); Some [Sql.Compare (field f) Sql.CGe p]
    | OpIn =>
        match value f with
        | JArr items => ps ← mapM bind_value items; Some [Sql.InList (field f) ps]
        | _ => Some []
        end
    | OpArrayContains =>
        p ← bind_value (value f); Some [Sql.ExistsEach (field f) p]
    | OpLike => p ← bind_value (value f); Some [Sql.Like (field f) p]
    end.

Fixpoint compile_filters (fs : list filter) : option (list Sql.cond) :=
  match fs with
  | [] => Some []
  | f :: rest =>
      c ← compile_filter f; cs ← compile_filters rest; Some (c ++ cs)
  end.

(** The WHERE clause of the query route on one row: the workspace, the
    tombstone test, and the compiled filters. [None] is an error. *)
Definition query_returns (ws : string) (fs : list filter) (r : Store.doc_row)
  : option bool :=
  conds ← compile_filters fs;
  keep ← Sql.where_all h conds (Store.doc_data r);
  Some (String.eqb (Store.doc_workspace_id r) ws
        && negb (Store.doc_deleted r) && keep).

Definition upper (c : ascii) : ascii :=
  let n := nat_of_ascii c in
  if ((97 <=? n) && (n <=? 122))%nat then ascii_of_nat (n - 32) else c.

Fixpoint toUpperCase (s : string) : string :=
  match s with
  | EmptyString => EmptyString
  | String c rest => String (upper c) (toUpperCase rest)
  end.

Definition handle_query (req : request) (d : Store.db) : outcome :=
  let q := req_search req in
  let ws := or_default (q_workspaceId q) "default" in
  let orderDirection := toUpperCase (or_default (q_orderDirection q) "ASC") in
  let limit := default 100 (q_limit q) in
  let order :=
    match Rules.nonempty (q_orderByField q) with
    | Some f => if field_ok f then Some (f, String.eqb orderDirection "DESC") else None
    | None => None
    end in
  match default (Filters []) (q_filters q) with
  | FiltersInvalid => respond 400 (PlainText "Invalid filters JSON") d []
  | FiltersNotArray => respond 200 (JsonRows (SelectQuery ws [] order limit)) d []
  | Filters fs =>
      match compile_filters fs with
      | None => respond 500 ErrorMessage d []
      | Some conds => respond 200 (JsonRows (SelectQuery ws conds order limit)) d []
      end
  end.

Definition handle_sync (req : request) (d : Store.db) : outcome :=
  let q := req_search req in
  respond 200
    (JsonRows (SelectEvents (or_default (q_workspaceId q) "default")
                 (default 0 (q_since q)))) d [].

Definition handle_list (req : request) (collection : string) (d : Store.db)
  : outcome :=
  let q := req_search req in
  respond 200
    (JsonRows (SelectList collection (or_default (q_workspaceId q) "default")
                 (Rules.nonempty (q_parentPath q)))) d [].

Definition handle_get (docId : string) (d : Store.db) : outcome :=
  match Store.select_live_document docId d with
  | None => respond 404 (PlainText "Not Found") d []
  | Some doc => respond 200 (JsonDocument doc) d []
  end.

(** *** [PUT /documents/<collection>/<id>]: set *)

Definition handle_put (req : request) (collection docId : string)
    (d : Store.db) : outcome :=
  match req_json req with
  | None => respond 500 ErrorMessage d []
  | Some b =>
      let workspace := or_default (workspaceId b) "default" in
      let eventId := uuid 0 in
      match Store.select_document docId d with
      | Some doc =>
          if version_conflict (expectedVersion b) (Store.doc_version doc) then
            respond 409 (PlainText "Version Conflict") d []
          else
            match data b with
            | None => respond 500 ErrorMessage d []
            | Some j =>
                match Store.run (Store.InsertEvent eventId docId workspace Store.SET j) d with
                | None => respond 500 ErrorMessage d []
                | Some (d1, version) =>
                    let collectionPath := collection_path_of (Store.doc_path doc) in
                    match Store.run (Store.UpdateDocumentSet j version docId) d1 with
                    | None => respond 500 ErrorMessage d1 []
                    | Some (d2, _) =>
                        respond 200 (JsonWritten version) d2
                          (publish_both collectionPath (Store.doc_path doc)
                             (doc_publication UPDATED (Some docId)
                                {| pd_id := docId; pd_collection := Some collection;
                                   pd_path := Store.doc_path doc;
                                   pd_data := Some j;
                                   pd_version := Some version;
                                   pd_userId := userId b;
                                   pd_workspaceId := Some workspace |}
                                (Some version)))
                    end
                end
            end
      | None =>
          let docPath := under_parent (parentPath b) (collection +:+ "/" +:+ docId) in
          let collectionPath := under_parent (parentPath b) collection in
          match data b with
          | None => respond 500 ErrorMessage d []
          | Some j =>
              match Store.run (Store.InsertEvent eventId docId workspace Store.INSERT j) d with
              | None => respond 500 ErrorMessage d []
              | Some (d1, version) =>
                  match userId b with
                  | None => respond 500 ErrorMessage d1 []
                  | Some user =>
                      match Store.run (Store.InsertDocument docId workspace collection docPath user j version) d1 with
                      | None => respond 500 ErrorMessage d1 []
                      | Some (d2, _) =>
                          respond 201 (JsonCreated docId docPath version) d2
                            (publish_both collectionPath docPath
                               (doc_publication CREATED None
                                  {| pd_id := docId;
                                     pd_collection := Some collection;
                                     pd_path := docPath; pd_data := Some j;
                                     pd_version := Some version;
                                     pd_userId := None;
                                     pd_workspaceId := Some workspace |}
                                  None))
                      end
                  end
              end
          end
      end
  end.

(** *** [PATCH /documents/<collection>/<id>]: update *)

Definition handle_patch (req : request) (collection docId : string)
    (d : Store.db) : outcome :=
  match req_json req with
  | None => respond 500 ErrorMessage d []
  | Some b =>
      let workspace := or_default (workspaceId b) "default" in
      let eventId := uuid 0 in
      match Store.select_document docId d with
      | None => respond 404 (PlainText "Not Found") d []
      | Some doc =>
          if version_conflict (expectedVersion b) (Store.doc_version doc) then
            respond 409 (PlainText "Version Conflict") d []
          else
            match data b with
            | None => respond 500 ErrorMessage d []
            | Some j =>
                match Store.run (Store.InsertEvent eventId docId workspace Store.UPDATE j) d with
                | None => respond 500 ErrorMessage d []
                | Some (d1, version) =>
                    let collectionPath := collection_path_of (Store.doc_path doc) in
                    match Store.run (Store.UpdateDocumentPatch j version docId) d1 with
                    | None => respond 500 ErrorMessage d1 []
                    | Some (d2, _) =>
                        match Store.select_document docId d2 with
                        | None => respond 500 ErrorMessage d2 []
                        | Some updatedDoc =>
                            respond 200 (JsonWritten version) d2
                              (publish_both collectionPath (Store.doc_path updatedDoc)
                                 (doc_publication UPDATED (Some docId)
                                    {| pd_id := docId;
                                       pd_collection := Some collection;
                                       pd_path := Store.doc_path updatedDoc;
                                       pd_data := Some (Store.doc_data updatedDoc);
                                       pd_version := Some version;
                                       pd_userId := userId b;
                                       pd_workspaceId := Some workspace |}
                                    (Some version)))
                        end
                    end
                end
            end
      end
  end.

(** *** [DELETE /documents/<collection>/<id>]: soft delete *)

(** [const { expectedVersion } = await request.json().catch(() => ({}))]:
    a rejection is replaced by [{}]; the JSON [null] is not, and
    destructuring it throws. *)
Definition handle_delete (req : request) (docId : string) (d : Store.db)
  : outcome :=
  match req_body req with
  | BodyNull => respond 500 ErrorMessage d []
  | BodyRejected | Body _ =>
      let expected := req_json req ≫= expectedVersion in
      match Store.select_document docId d with
      | Some doc =>
          if version_conflict expected (Store.doc_version doc) then
            respond 409 (PlainText "Version Conflict") d []
          else
            match Store.run (Store.InsertEvent (uuid 0) docId (Store.doc_workspace_id doc)
                               Store.DELETE (JObj [])) d with
            | None => respond 500 ErrorMessage d []
            | Some (d1, version) =>
                let collectionPath := collection_path_of (Store.doc_path doc) in
                match Store.run (Store.UpdateDocumentTombstone version docId) d1 with
                | None => respond 500 ErrorMessage d1 []
                | Some (d2, _) =>
                    respond 204 NoBody d2
                      (publish_both collectionPath (Store.doc_path doc)
                         {| pub_kind := DELETED; pub_id := Some docId;
                            pub_path := None; pub_doc_member := None;
                            pub_data_member := None; pub_userId := None;
                            pub_version := Some version |})
                end
            end
      | None => respond 204 NoBody d []
      end
  end.

(** *** The router *)

Definition seg_is (x : option string) (s : string) : bool :=
  match x with Some y => String.eqb y s | None => false end.

Definition method_eqb (a b : method) : bool :=
  match a, b with
  | GET, GET | POST, POST | PUT, PUT | PATCH, PATCH | DELETE, DELETE
  | OPTIONS, OPTIONS | HEAD, HEAD => true
  | _, _ => false
  end.

Definition engine_active (d : Store.db) : outcome :=
  respond 200 (PlainText "Telestack Real-time DB Engine Active") d [].

(** [DROP TABLE IF EXISTS documents], [DROP TABLE IF EXISTS events],
    then [initDatabase]. *)
Definition reset_db (d : Store.db) : Store.db :=
  {| Store.documents := ∅; Store.events := []; Store.events_seq := 0;
     Store.last_insert_rowid := Store.last_insert_rowid d |}.

Definition fetch (req : request) (d : Store.db) : outcome :=
  let method := req_method req in
  if method_eqb method OPTIONS then respond 200 NoBody d []
  else
    match req_pathParts req with
    | first :: rest =>
        if negb (String.eqb first "documents") then engine_active d
        else
          let collection := head rest in
          let docId := rest !! 1%nat in
          let docPath := Js.join "/" rest in
          let operation := if method_eqb method GET then Rules.Read else Rules.Write in
          if negb (seg_is collection "internal") && negb (seg_is collection "auth")
             && negb (allowed docPath operation (req_auth req))
          then respond 403 (PlainText "Permission Denied") d []
          else if seg_is collection "internal" && seg_is docId "reset" && method_eqb method POST
          then respond 200 (JsonMessage "Database reset successful") (reset_db d) []
          else if method_eqb method POST && seg_is collection "batch"
          then handle_batch req d
          else if seg_is collection "auth" && seg_is docId "token" && method_eqb method POST
          then handle_token req d
          else if method_eqb method POST then handle_create req collection d
          else if method_eqb method GET && seg_is collection "sync" then handle_sync req d
          else if method_eqb method GET && seg_is collection "query" then handle_query req d
          else
            match method, collection, docId with
            | GET, Some col, None => handle_list req col d
            | GET, _, Some id => handle_get id d
            | PUT, Some col, Some id => handle_put req col id d
            | PATCH, Some col, Some id => handle_patch req col id d
            | DELETE, _, Some id => handle_delete req id d
            | _, _, _ => engine_active d
            end
    | [] => engine_active d
    end.

End Handlers.

End Worker.

(** ** The client SDK *)

Module Sdk.

(** *** References and paths *)

(** [class DocumentReference]: [collectionPath] and [id]. *)
Record DocumentReference := { collectionPath : string; id : string }.

(** [get path() { return `${this.collectionPath}/${this.id}`; }] *)
Definition path (r : DocumentReference) : string :=
  collectionPath r +:+ "/" +:+ id r.

(** [TelestackClient.doc(path)]; [None] is the [TelestackError] thrown
    for an odd number of segments. *)
Definition doc (p : string) : option DocumentReference :=
  let parts := Js.split "/" p in
  if negb (length parts mod 2 =? 0)%nat then None
  else
    Some {| collectionPath := Js.join "/" (Js.slice_init parts);
            id := default "" (Js.last_part parts) |}.

(** *** [Query.matches]: the local matcher *)

(** A JavaScript value read off a document: [undefined], a JSON value,
    or a member of a prototype (a function, or the prototype object
    itself), which is no JSON value and is known by its primitive. *)
Inductive js_value := Undefined | Value (j : json) | Builtin (p : primitive).

(** The element at the index [k] names, when [k] is the numeral of an
    index of the list (counted from [i]). *)
Fixpoint at_index {A : Type} (k : string) (i : nat) (items : list A) : option A :=
  match items with
  | [] => None
  | x :: rest =>
      if String.eqb k (Js.index_key i) then Some x else at_index k (S i) rest
  end.

(** The own property [field] of a value: a member of an object; the
    [length] or an indexed element of an array; the [length] or an
    indexed character of a string (read as the sequence of its
    characters); a boolean or a number has none. *)
Definition own_property (doc : json) (field : string) : option json :=
  match doc with
  | JObj ms => Json.get field ms
  | JArr items =>
      if String.eqb field "length" then Some (JNum (Z.of_nat (length items)))
      else at_index field 0 items
  | JStr s =>
      if String.eqb field "length" then Some (JNum (Z.of_nat (String.length s)))
      else (fun ch => JStr (String ch EmptyString))
             <$> at_index field 0 (list_ascii_of_string s)
  | JNull | JBool _ | JNum _ => None
  end.

(** [a === b]: primitives by value; an array or an object is only equal
    to itself, and the document and the filter never share one; a member
    of a prototype is equal to no value of a filter. *)
Definition strict_equal (a : js_value) (b : json) : bool :=
  match a, b with
  | Value JNull, JNull => true
  | Value (JBool x), JBool y => Bool.eqb x y
  | Value (JNum x), JNum y => x =? y
  | Value (JStr x), JStr y => String.eqb x y
  | _, _ => false
  end.

Section Matcher.

Variable h : host.

(** [doc[field]] on a document payload: the own property, else the
    member the prototype chain has under that name, else [undefined];
    [None] is the [TypeError] of reading a property of [null]. *)
Definition property (doc : json) (field : string) : option js_value :=
  match doc with
  | JNull => None
  | _ =>
      Some match own_property doc field with
           | Some v => Value v
           | None => from_option Builtin Undefined (inherited h doc field)
           end
  end.

Definition ToPrimitive (v : js_value) : primitive :=
  match v with
  | Undefined => PUndefined
  | Value JNull => PNull
  | Value (JBool b) => PBool b
  | Value (JNum n) => PNum n
  | Value (JStr s) => PStr s
  | Value j => PStr (to_primitive h j)
  | Builtin p => p
  end.

(** [ToNumber]; [None] is [NaN]. *)
Definition ToNumber (p : primitive) : option Z :=
  match p with
  | PUndefined => None
  | PNull => Some 0
  | PBool b => Some (if b then 1 else 0)
  | PNum n => Some n
  | PStr s => to_number h s
  end.

(** The abstract relational comparison [a < b]; [None] is its
    [undefined] result. *)
Definition less_than (a b : js_value) : option bool :=
  match ToPrimitive a, ToPrimitive b with
  | PStr x, PStr y => Some (String.ltb x y)
  | px, py => x ← ToNumber px; y ← ToNumber py; Some (x <? y)
  end.

(** [a < b], [a > b], [a <= b], [a >= b] *)
Definition js_lt (a b : js_value) : bool := default false (less_than a b).
Definition js_gt (a b : js_value) : bool := default false (less_than b a).
Definition js_le (a b : js_value) : bool := default false (negb <$> less_than b a).
Definition js_ge (a b : js_value) : bool := default false (negb <$> less_than a b).

(** One turn of the [switch (filter.op)]: [false] where the loop returns
    [false]. There is no case for ['LIKE']. *)
Definition filter_passes (f : filter) (docValue : js_value) : bool :=
  match op f with
  | OpEq => strict_equal docValue (value f)
  | OpNe => negb (strict_equal docValue (value f))
  | OpGt => js_gt docValue (Value (value f))
  | OpLt => js_lt docValue (Value (value f))
  | OpGe => js_ge docValue (Value (value f))
  | OpLe => js_le docValue (Value (value f))
  | OpIn =>
      match value f with
      | JArr items => existsb (strict_equal docValue) items
      | _ => false
      end
  | OpArrayContains =>
      match docValue with
      | Value (JArr items) =>
          existsb (fun x => strict_equal (Value x) (value f)) items
      | _ => false
      end
  | OpLike => true
  end.

(** [matches(doc)] over [this.filters]. *)
Fixpoint matches (filters : list filter) (doc : json) : option bool :=
  match filters with
  | [] => Some true
  | f :: rest =>
      docValue ← property doc (field f);
      if filter_passes f docValue then matches rest doc else Some false
  end.

End Matcher.

(** *** Snapshots and the local cache *)

Record metadata := { fromCache : bool; hasPendingWrites : bool }.

(** [class DocumentSnapshot]; [_data] is [JNull] for [null]. *)
Record DocumentSnapshot := {
  snap_id : string;
  snap_path : string;
  snap_data : json;
  snap_version : Z;
  snap_metadata : metadata
}.

(** The default of the constructor's last parameter. *)
Definition server_metadata : metadata :=
  {| fromCache := false; hasPendingWrites := false |}.

(** A row of the [documents] store of the cache, keyed by path. *)
Record cached_doc := { cached_data : json; cached_version : Z }.

(** An entry of the [queue] store. *)
Record queued_write := {
  queued_type : string;
  queued_path : string;
  queued_data : option json;
  queued_collectionName : string;
  queued_parentPath : option string
}.

(** The [PersistenceEngine]: the two object stores. *)
Record local_store := {
  documents : gmap string cached_doc;
  queue : list queued_write
}.

(** The part of [TelestackClient] the document operations touch;
    [persistence] is [None] for [null]. *)
Record client := {
  lastVersion : Z;
  persistence : option local_store
}.

(** What the server sent back for a read or a write. *)
Record server_reply := { reply_data : json; reply_version : Z }.

(** The outcome of one [authFetch]: the call rejects, or a response with
    its status and, when it parses, its JSON body. *)
Inductive http_result :=
| NetworkFailure
| Response (status : Z) (body : option server_reply).

(** [res.ok] *)
Definition ok (status : Z) : bool := (200 <=? status) && (status <=? 299).

(** [updateLastVersion(v)] *)
Definition updateLastVersion (v : Z) (c : client) : client :=
  {| lastVersion := Z.max (lastVersion c) v; persistence := persistence c |}.

(** [persistence.put('documents', path, { data, version })] when
    persistence is on. *)
Definition put_document (p : string) (data : json) (version : Z) (c : client)
  : client :=
  {| lastVersion := lastVersion c;
     persistence :=
       (fun st => {| documents :=
                       <[p := {| cached_data := data; cached_version := version |}]>
                         (documents st);
                     queue := queue st |}) <$> persistence c |}.

(** [persistence.put('queue', path, entry)]: the store has an
    auto-incremented key, so the entry is added. *)
Definition enqueue (w : queued_write) (st : local_store) : local_store :=
  {| documents := documents st; queue := queue st ++ [w] |}.

(** The [catch] block of [asyncGetSnapshot]: the cached row with the
    literal metadata [{ fromCache: true, hasPendingWrites: true }], or the
    error rethrown ([None]). *)
Definition cache_fallback (c : client) (r : DocumentReference)
  : option DocumentSnapshot :=
  st ← persistence c;
  cached ← documents st !! path r;
  Some {| snap_id := id r; snap_path := path r;
          snap_data := cached_data cached;
          snap_version := cached_version cached;
          snap_metadata := {| fromCache := true; hasPendingWrites := true |} |}.

(** [DocumentReference.asyncGetSnapshot()], given the outcome of its
    request: the client afterwards and the snapshot, [None] when it
    throws. *)
Definition asyncGetSnapshot (c : client) (r : DocumentReference)
    (net : http_result) : client * option DocumentSnapshot :=
  match net with
  | NetworkFailure => (c, cache_fallback c r)
  | Response status body =>
      if status =? 404 then
        (c, Some {| snap_id := id r; snap_path := path r; snap_data := JNull;
                    snap_version := 0; snap_metadata := server_metadata |})
      else if negb (ok status) then (c, cache_fallback c r)
      else
        match body with
        | None => (c, cache_fallback c r)
        | Some reply =>
            let c' :=
              if reply_version reply =? 0 then c
              else put_document (path r) (reply_data reply) (reply_version reply)
                     (updateLastVersion (reply_version reply) c) in
            (c', Some {| snap_id := id r; snap_path := path r;
                         snap_data := reply_data reply;
                         snap_version := reply_version reply;
                         snap_metadata := server_metadata |})
        end
  end.

(** [collectionPath.split('/').pop()] and the parent of the collection. *)
Definition collectionName (r : DocumentReference) : string :=
  default "" (Js.last_part (Js.split "/" (collectionPath r))).

Definition parentPath (r : DocumentReference) : option string :=
  if Js.includes (collectionPath r) "/"
  then Some (Js.join "/" (Js.slice_init (Js.split "/" (collectionPath r))))
  else None.

(** [DocumentReference.set(data)], given the outcome of its PUT: the
    client afterwards and the version it resolves with, [None] when it
    throws. The cache is written first with version [-1]. *)
Definition set (c : client) (r : DocumentReference) (data : json)
    (net : http_result) : client * option Z :=
  let c0 := put_document (path r) data (-1) c in
  let offline :=
    match persistence c0 with
    | Some st =>
        ({| lastVersion := lastVersion c0;
            persistence :=
              Some (enqueue {| queued_type := "SET"; queued_path := path r;
                               queued_data := Some data;
                               queued_collectionName := collectionName r;
                               queued_parentPath := parentPath r |} st) |},
         Some (-1))
    | None => (c0, None)
    end in
  match net with
  | Response status (Some reply) =>
      if ok status then
        if reply_version reply =? 0 then (c0, Some (reply_version reply))
        else
          (put_document (path r) data (reply_version reply)
             (updateLastVersion (reply_version reply) c0),
           Some (reply_version reply))
      else offline
  | _ => offline
  end.

End Sdk.

(** ** Notions the properties are stated with *)

Module Spec.

(** The latest event appended for a document id: the last one in the
    log that carries it. *)
Definition latest_event (doc : string) (log : list Store.event_row)
  : option Store.event_row :=
  last (base.filter (fun e => Store.ev_doc_id e = doc) log).

(** The same, among the events logged under one workspace. *)
Definition latest_event_in (ws doc : string) (log : list Store.event_row)
  : option Store.event_row :=
  last (base.filter (fun e => Store.ev_doc_id e = doc /\ Store.ev_workspace_id e = ws) log).

(** Every row's version is that of the latest event of its id. *)
Definition versions_follow_log (d : Store.db) : Prop :=
  forall id r,
    Store.documents d !! id = Some r ->
    Store.ev_version <$> latest_event id (Store.events d)
    = Some (Store.doc_version r).

(** Every row's version is that of the latest event of its id within the
    row's workspace. *)
Definition versions_follow_workspace_log (d : Store.db) : Prop :=
  forall id r,
    Store.documents d !! id = Some r ->
    Store.ev_version <$> latest_event_in (Store.doc_workspace_id r) id (Store.events d)
    = Some (Store.doc_version r).

(** A row follows an event when it has the event's version and, if
    [strict], the event was logged under the row's workspace. *)
Definition row_follows (strict : bool) (e : Store.event_row) (r : Store.doc_row)
  : Prop :=
  Store.ev_version e = Store.doc_version r
  /\ (strict = true -> Store.ev_workspace_id e = Store.doc_workspace_id r).

(** Every row follows the latest event of its id. *)
Definition rows_follow_log (strict : bool) (d : Store.db) : Prop :=
  forall id r,
    Store.documents d !! id = Some r ->
    exists e, latest_event id (Store.events d) = Some e /\ row_follows strict e r.

(** The row of [id], if there is one, belongs to workspace [ws]. *)
Definition row_in_workspace (ws id : string) (d : Store.db) : bool :=
  match Store.documents d !! id with
  | Some r => String.eqb (Store.doc_workspace_id r) ws
  | None => true
  end.

(** The id a batch operation targets: the last segment of its path. *)
Definition batch_target (o : Worker.batch_op) : string :=
  default "" (Js.last_part (Js.split "/" (Worker.op_path o))).

(** The request names the workspace of the rows it writes: a PUT or a
    PATCH in the [workspaceId] of its body, a batch in its [workspaceId]
    header. A DELETE names none; a create writes a new row. *)
Definition within_workspace (req : Worker.request) (d : Store.db) : bool :=
  match Worker.req_json req with
  | None => true
  | Some b =>
      match Worker.req_method req with
      | Worker.PUT | Worker.PATCH =>
          match Worker.req_pathParts req !! 2%nat with
          | Some id =>
              row_in_workspace (Worker.or_default (Worker.workspaceId b) "default") id d
          | None => true
          end
      | Worker.POST =>
          match Worker.operations b with
          | Some ops =>
              forallb
                (fun o =>
                   row_in_workspace
                     (Worker.or_default (Worker.req_workspace_header req) "default")
                     (batch_target o) d)
                ops
          | None => true
          end
      | _ => true
      end
  end.

(** The handler can read the body of a write on one document: a PUT or
    a PATCH finds [data] in it; a DELETE is sent any body but the JSON
    [null], or none. *)
Definition readable (req : Worker.request) : bool :=
  match Worker.req_method req with
  | Worker.DELETE =>
      match Worker.req_body req with
      | Worker.BodyNull => false
      | Worker.BodyRejected | Worker.Body _ => true
      end
  | _ => bool_decide (is_Some (Worker.req_json req ≫= Worker.data))
  end.

(** A response with a success status (200, 201, 204). *)
Definition succeeded (o : Worker.outcome) : bool :=
  let st := Worker.status (Worker.out_response o) in
  (200 <=? st) && (st <=? 299).

(** The operation types the batch route knows. *)
Definition known_type (o : Worker.batch_op) : bool :=
  String.eqb (Worker.op_type o) "SET"
  || String.eqb (Worker.op_type o) "UPDATE"
  || String.eqb (Worker.op_type o) "DELETE".

(** A request whose batch operations, if any, are of the known types. *)
Definition known_types (req : Worker.request) : bool :=
  match Worker.req_json req ≫= Worker.operations with
  | Some ops => forallb known_type ops
  | None => true
  end.

(** Serving requests one after the other, each with its own source of
    fresh identifiers; [None] as soon as one does not succeed. *)
Fixpoint serve (h : host) (reqs : list ((nat -> string) * Worker.request))
    (d : Store.db) : option Store.db :=
  match reqs with
  | [] => Some d
  | (uuid, req) :: rest =>
      let o := Worker.fetch h uuid req d in
      if succeeded o then serve h rest (Worker.out_db o) else None
  end.

(** Every request of the sequence names the workspace of the rows it
    writes, in the database it is served on. *)
Fixpoint stays_within_workspaces (h : host)
    (reqs : list ((nat -> string) * Worker.request)) (d : Store.db) : bool :=
  match reqs with
  | [] => true
  | (uuid, req) :: rest =>
      within_workspace req d
      && stays_within_workspaces h rest (Worker.out_db (Worker.fetch h uuid req d))
  end.


End Spec.

(** ** Concrete inputs *)

Module Scenario.

(** The path of a URL that needs no rewriting: what follows the
    origin. *)
Definition plain_pathname (url : string) : string :=
  match Js.indexOf "://" url with
  | Some i =>
      let rest := Js.substring_from (i + 3) url in
      match Js.indexOf "/" rest with
      | Some j => Js.substring_from j rest
      | None => "/"
      end
  | None => url
  end.

(** A host whose [eval] throws on every text, whose prototypes have the
    member [constructor] and no other, whose URL parser rewrites nothing,
    and whose other facilities do nothing; the requests below are decided
    without them. *)
Definition quiet_host : host :=
  {| js_eval := fun _ => None;
     regexp_replace := fun _ _ s => Some s;
     json_text := fun _ => "";
     json_parse := fun _ => None;
     to_primitive := fun _ => "";
     to_number := fun _ => None;
     inherited := fun _ k =>
       if String.eqb k "constructor"
       then Some (PStr "function Object() { [native code] }")
       else None;
     url_pathname := plain_pathname |}.

(** A verified caller. *)
Definition alice : option Rules.auth_ctx :=
  Some {| Rules.auth_userId := Some "alice"; Rules.auth_role := None |}.

(** Fresh identifiers [tag-0], [tag-1], ... *)
Definition fresh (tag : string) (n : nat) : string :=
  tag +:+ "-" +:+ NilZero.string_of_uint (Nat.to_uint n).

Definition no_search : Worker.search_params :=
  {| Worker.q_workspaceId := None; Worker.q_parentPath := None;
     Worker.q_since := None; Worker.q_filters := None;
     Worker.q_orderByField := None; Worker.q_orderDirection := None;
     Worker.q_limit := None |}.

(** The body [{ data, userId: "alice", workspaceId?, expectedVersion? }]. *)
Definition write_body (j : json) (ws : option string) (expected : option Z)
  : Worker.body :=
  {| Worker.data := Some j; Worker.userId := Some "alice";
     Worker.workspaceId := ws; Worker.parentPath := None;
     Worker.expectedVersion := expected; Worker.operations := None |}.

Definition request_to (m : Worker.method) (parts : list string)
    (b : option Worker.body) : Worker.request :=
  {| Worker.req_method := m; Worker.req_pathParts := "documents" :: parts;
     Worker.req_auth := alice; Worker.req_workspace_header := None;
     Worker.req_body := from_option Worker.Body Worker.BodyRejected b;
     Worker.req_search := no_search |}.

(** [PUT /documents/items/<id>] *)
Definition put (id : string) (j : json) (ws : option string)
    (expected : option Z) : Worker.request :=
  request_to Worker.PUT ["items"; id] (Some (write_body j ws expected)).

(** [PATCH /documents/items/<id>] *)
Definition patch (id : string) (j : json) (expected : option Z)
  : Worker.request :=
  request_to Worker.PATCH ["items"; id] (Some (write_body j None expected)).

(** [DELETE /documents/items/<id>] without a body. *)
Definition delete (id : string) : Worker.request :=
  request_to Worker.DELETE ["items"; id] None.

(** [DELETE /documents/items/<id>] with the body [null]. *)
Definition delete_null (id : string) : Worker.request :=
  {| Worker.req_method := Worker.DELETE;
     Worker.req_pathParts := ["documents"; "items"; id];
     Worker.req_auth := alice; Worker.req_workspace_header := None;
     Worker.req_body := Worker.BodyNull; Worker.req_search := no_search |}.

(** The same request sent without a token. *)
Definition anonymous (req : Worker.request) : Worker.request :=
  {| Worker.req_method := Worker.req_method req;
     Worker.req_pathParts := Worker.req_pathParts req;
     Worker.req_auth := None;
     Worker.req_workspace_header := Worker.req_workspace_header req;
     Worker.req_body := Worker.req_body req;
     Worker.req_search := Worker.req_search req |}.

Definition operation (type path : string) (j : option json) : Worker.batch_op :=
  {| Worker.op_type := type; Worker.op_path := path; Worker.op_data := j;
     Worker.op_expectedVersion := None |}.

(** [POST /documents/batch] *)
Definition batch (ops : list Worker.batch_op) : Worker.request :=
  request_to Worker.POST ["batch"]
    (Some {| Worker.data := None; Worker.userId := None;
             Worker.workspaceId := None; Worker.parentPath := None;
             Worker.expectedVersion := None; Worker.operations := Some ops |}).

(** The database after [PUT items/a {x: 1, y: 2}] and [PUT items/b {n: 0}]
    on an empty one: rows [a] and [b] at versions 1 and 2. *)
Definition two_documents : Store.db :=
  Worker.out_db
    (Worker.fetch quiet_host (fresh "e2")
       (put "b" (JObj [("n", JNum 0)]) None None)
       (Worker.out_db
          (Worker.fetch quiet_host (fresh "e1")
             (put "a" (JObj [("x", JNum 1); ("y", JNum 2)]) None None)
             Store.empty))).

(** The row of [a] in [two_documents]. *)
Definition row_a : Store.doc_row :=
  {| Store.doc_id := "a"; Store.doc_workspace_id := "default";
     Store.doc_collection_name := "items"; Store.doc_path := "items/a";
     Store.doc_user_id := "alice";
     Store.doc_data := JObj [("x", JNum 1); ("y", JNum 2)];
     Store.doc_version := 1; Store.doc_deleted := false |}.

(** Two PUTs on the same id: the first creates the row under workspace
    [A], the second names workspace [B] in its body. *)
Definition puts_from_two_workspaces : list ((nat -> string) * Worker.request) :=
  [ (fresh "e1", put "a" (JObj [("n", JNum 1)]) (Some "A") None);
    (fresh "e2", put "a" (JObj [("n", JNum 2)]) (Some "B") None) ].

(** The two PUTs that build [two_documents]. *)
Definition two_puts : list ((nat -> string) * Worker.request) :=
  [ (fresh "e1", put "a" (JObj [("x", JNum 1); ("y", JNum 2)]) None None);
    (fresh "e2", put "b" (JObj [("n", JNum 0)]) None None) ].

(** The two PUTs, then a batch that sets [a], updates [b] and deletes
    [a]. *)
Definition puts_then_batch : list ((nat -> string) * Worker.request) :=
  two_puts ++
  [ (fresh "e3",
     batch [ operation "SET" "items/a" (Some (JObj [("x", JNum 5)]));
             operation "UPDATE" "items/b" (Some (JObj [("n", JNum 1)]));
             operation "DELETE" "items/a" None ]) ].

(** The batch of scenario S3, [SET a, SET b, UPDATE c], where no row
    has the id [c]. *)
Definition set_set_update_absent : Worker.request :=
  batch [ operation "SET" "items/a" (Some (JObj [("x", JNum 10)]));
          operation "SET" "items/b" (Some (JObj [("n", JNum 20)]));
          operation "UPDATE" "items/c" (Some (JObj [("x", JNum 3)])) ].

(** A batch with the single operation [UPDATE a {y: 3}]. *)
Definition update_a_in_batch : Worker.request :=
  batch [ operation "UPDATE" "items/a" (Some (JObj [("y", JNum 3)])) ].

(** A batch that updates [a], then [b]. *)
Definition update_a_then_b : Worker.request :=
  batch [ operation "UPDATE" "items/a" (Some (JObj [("y", JNum 3)]));
          operation "UPDATE" "items/b" (Some (JObj [("n", JNum 1)])) ].

(** [where('name', 'LIKE', 'a%')] and a document named [bob]. *)
Definition name_like_a : filter :=
  {| field := "name"; op := OpLike; value := JStr "a%" |}.

Definition bob : json := JObj [("name", JStr "bob")].

Definition bob_row : Store.doc_row :=
  {| Store.doc_id := "u1"; Store.doc_workspace_id := "default";
     Store.doc_collection_name := "users"; Store.doc_path := "users/u1";
     Store.doc_user_id := "alice"; Store.doc_data := bob;
     Store.doc_version := 1; Store.doc_deleted := false |}.

(** A client with persistence on and nothing cached or queued. *)
Definition fresh_client : Sdk.client :=
  {| Sdk.lastVersion := 0;
     Sdk.persistence := Some {| Sdk.documents := ∅; Sdk.queue := [] |} |}.

Definition ref_a : Sdk.DocumentReference :=
  {| Sdk.collectionPath := "items"; Sdk.id := "a" |}.

(** The client after [set({n: 5})] on [items/a] was accepted by the
    server at version 7. *)
Definition synced_client : Sdk.client :=
  fst (Sdk.set fresh_client ref_a (JObj [("n", JNum 5)])
         (Sdk.Response 200
            (Some {| Sdk.reply_data := JNull; Sdk.reply_version := 7 |}))).

End Scenario.

(** ** More of the client SDK

    The rest of [TelestackSDK/src/index.ts] that works on values: the
    reference constructors, [update] and [delete] of a document
    reference, the replay of the queue, the operation lists of
    [WriteBatch] and [Transaction], the [commit] of a transaction, the
    retry loop of [runTransaction], [Query.where] and the publication
    handler of [Query.onSnapshot]. *)

Module Client.

(** *** References *)

(** [CollectionReference.doc(id)] for the collection at [collectionPath]. *)
Definition collection_doc (collectionPath id : string) : Sdk.DocumentReference :=
  {| Sdk.collectionPath := collectionPath; Sdk.id := id |}.

(** [DocumentReference.collection(name)]: the path of the nested
    collection, [`${this.path}/${name}`]. *)
Definition doc_collection (r : Sdk.DocumentReference) (name : string) : string :=
  Sdk.path r +:+ "/" +:+ name.

(** The text [set], [update], [delete] and [asyncGetSnapshot] hand to
    [authFetch]:
    [`${this.client.config.endpoint}/documents/${collectionName}/${this.id}`]. *)
Definition document_url (endpoint : string) (r : Sdk.DocumentReference) : string :=
  endpoint +:+ "/documents/" +:+ Sdk.collectionName r +:+ "/" +:+ Sdk.id r.

(** The request of [set(data)] as the worker decodes it, for a client of
    user [user] in workspace [ws]: a PUT whose path segments are those of
    the pathname of [document_url] and whose body is
    [{ data, userId, workspaceId, parentPath }]; [auth] is what the worker
    makes of the token. *)
Definition set_request (h : host) (endpoint : string)
    (auth : option Rules.auth_ctx) (user ws : string)
    (r : Sdk.DocumentReference) (data : json) : Worker.request :=
  {| Worker.req_method := Worker.PUT;
     Worker.req_pathParts :=
       Worker.path_parts (url_pathname h (document_url endpoint r));
     Worker.req_auth := auth;
     Worker.req_workspace_header := Some ws;
     Worker.req_body :=
       Worker.Body
         {| Worker.data := Some data; Worker.userId := Some user;
            Worker.workspaceId := Some ws;
            Worker.parentPath := Sdk.parentPath r;
            Worker.expectedVersion := None; Worker.operations := None |};
     Worker.req_search :=
       {| Worker.q_workspaceId := None; Worker.q_parentPath := None;
          Worker.q_since := None; Worker.q_filters := None;
          Worker.q_orderByField := None; Worker.q_orderDirection := None;
          Worker.q_limit := None |} |}.

(** *** Object spread *)

(** The own enumerable members that [{ ...j }] copies: those of an
    object, the indexed elements of an array, the indexed characters of a
    string, none of any other value. *)
Definition spread (j : json) : list (string * json) :=
  match j with
  | JObj ms => ms
  | JArr items => imap (fun i x => (Js.index_key i, x)) items
  | JStr s =>
      imap (fun i ch => (Js.index_key i, JStr (String ch EmptyString)))
        (list_ascii_of_string s)
  | _ => []
  end.

(** Copying [source] member by member into [target]: a key that is there
    keeps its place and takes the new value, a new key is added at the
    end (keys that read as array indices apart). *)
Definition assign (target source : list (string * json)) : list (string * json) :=
  fold_left (fun acc kv => Json.set (fst kv) (snd kv) acc) source target.

(** [{ ...a, ...b }] *)
Definition merged (a b : json) : json :=
  JObj (assign (assign [] (spread a)) (spread b)).

(** *** [DocumentReference.update] and [DocumentReference.delete] *)

(** The entry a write leaves in the queue when its request fails. *)
Definition queued (type : string) (r : Sdk.DocumentReference)
    (data : option json) (parent : option string) : Sdk.queued_write :=
  {| Sdk.queued_type := type; Sdk.queued_path := Sdk.path r;
     Sdk.queued_data := data;
     Sdk.queued_collectionName := Sdk.collectionName r;
     Sdk.queued_parentPath := parent |}.

(** The [catch] block of a write: with persistence the entry is queued
    and the call resolves with [value]; without it the error is rethrown
    ([None]). *)
Definition queue_or_throw {A : Type} (w : Sdk.queued_write) (value : A)
    (c : Sdk.client) : Sdk.client * option A :=
  match Sdk.persistence c with
  | Some st =>
      ({| Sdk.lastVersion := Sdk.lastVersion c;
          Sdk.persistence := Some (Sdk.enqueue w st) |},
       Some value)
  | None => (c, None)
  end.

(** The optimistic write of [update]: the patch is spread over the cached
    data, whose version is kept; with nothing cached the patch itself is
    stored with version [-1]. *)
Definition optimistic_update (c : Sdk.client) (r : Sdk.DocumentReference)
    (data : json) : Sdk.client :=
  match Sdk.persistence c with
  | Some st =>
      match Sdk.documents st !! Sdk.path r with
      | Some cached =>
          Sdk.put_document (Sdk.path r) (merged (Sdk.cached_data cached) data)
            (Sdk.cached_version cached) c
      | None => Sdk.put_document (Sdk.path r) data (-1) c
      end
  | None => c
  end.

(** [DocumentReference.update(data)], given the outcome of its PATCH and
    of the read that follows an accepted one: the client afterwards and
    the version it resolves with, [None] when it throws. *)
Definition update (c : Sdk.client) (r : Sdk.DocumentReference) (data : json)
    (net read : Sdk.http_result) : Sdk.client * option Z :=
  let c0 := optimistic_update c r data in
  let w := queued "UPDATE" r (Some data) (Sdk.parentPath r) in
  match net with
  | Sdk.Response status (Some reply) =>
      if Sdk.ok status then
        let version := Sdk.reply_version reply in
        if version =? 0 then (c0, Some version)
        else
          let c1 := Sdk.updateLastVersion version c0 in
          match Sdk.persistence c1 with
          | None => (c1, Some version)
          | Some _ =>
              match Sdk.asyncGetSnapshot c1 r read with
              | (c2, Some snap) =>
                  (Sdk.put_document (Sdk.path r) (Sdk.snap_data snap) version c2,
                   Some version)
              | (c2, None) => queue_or_throw w (-1) c2
              end
          end
      else queue_or_throw w (-1) c0
  | _ => queue_or_throw w (-1) c0
  end.

(** [DocumentReference.delete()], given the outcome of its DELETE: the
    cached row is removed first. *)
Definition delete (c : Sdk.client) (r : Sdk.DocumentReference)
    (net : Sdk.http_result) : Sdk.client * option unit :=
  let c0 :=
    {| Sdk.lastVersion := Sdk.lastVersion c;
       Sdk.persistence :=
         (fun st => {| Sdk.documents := base.delete (Sdk.path r) (Sdk.documents st);
                       Sdk.queue := Sdk.queue st |}) <$> Sdk.persistence c |} in
  let w := queued "DELETE" r None None in
  match net with
  | Sdk.Response status _ =>
      if Sdk.ok status then (c0, Some tt) else queue_or_throw w tt c0
  | Sdk.NetworkFailure => queue_or_throw w tt c0
  end.

(** *** [WriteBatch] and [Transaction] *)

(** What a failed call throws: an [Error] with its [message] and, when
    one was set, its [status]. *)
Record error := { message : string; err_status : option Z }.

(** The outcome of the request of [commit]: [authFetch] rejects, or
    there is a response with its status, its text, and what [res.json()]
    gives: the error it rejects with, or the [version] member of the body
    ([0] when it is absent). *)
Inductive batch_answer :=
| Unreachable (e : error)
| Answer (status : Z) (text : string) (body : error + Z).

(** The request [commit] sends, [POST /documents/batch] with the
    operations as its body, for a client of user [user] in workspace
    [ws]: the token names the user, the [workspaceId] header the
    workspace. *)
Definition batch_request (user ws : string) (ops : list Worker.batch_op)
  : Worker.request :=
  {| Worker.req_method := Worker.POST;
     Worker.req_pathParts := ["documents"; "batch"];
     Worker.req_auth :=
       Some {| Rules.auth_userId := Some user; Rules.auth_role := None |};
     Worker.req_workspace_header := Some ws;
     Worker.req_body :=
       Worker.Body
         {| Worker.data := None; Worker.userId := None;
            Worker.workspaceId := None; Worker.parentPath := None;
            Worker.expectedVersion := None;
            Worker.operations := Some ops |};
     Worker.req_search :=
       {| Worker.q_workspaceId := None; Worker.q_parentPath := None;
          Worker.q_since := None; Worker.q_filters := None;
          Worker.q_orderByField := None; Worker.q_orderDirection := None;
          Worker.q_limit := None |} |}.

Module WriteBatch.

(** [this.operations.push({ type, path: docRef.path, data })] *)
Definition set (ops : list Worker.batch_op) (r : Sdk.DocumentReference)
    (data : json) : list Worker.batch_op :=
  ops ++ [ {| Worker.op_type := "SET"; Worker.op_path := Sdk.path r;
              Worker.op_data := Some data;
              Worker.op_expectedVersion := None |} ].

Definition update (ops : list Worker.batch_op) (r : Sdk.DocumentReference)
    (data : json) : list Worker.batch_op :=
  ops ++ [ {| Worker.op_type := "UPDATE"; Worker.op_path := Sdk.path r;
              Worker.op_data := Some data;
              Worker.op_expectedVersion := None |} ].

Definition delete (ops : list Worker.batch_op) (r : Sdk.DocumentReference)
  : list Worker.batch_op :=
  ops ++ [ {| Worker.op_type := "DELETE"; Worker.op_path := Sdk.path r;
              Worker.op_data := None;
              Worker.op_expectedVersion := None |} ].

End WriteBatch.

Module Transaction.

(** [expectedVersion: snapshot?.version] *)
Definition expected (snapshot : option Sdk.DocumentSnapshot) : option Z :=
  Sdk.snap_version <$> snapshot.

Definition set (ops : list Worker.batch_op) (r : Sdk.DocumentReference)
    (data : json) (snapshot : option Sdk.DocumentSnapshot)
  : list Worker.batch_op :=
  ops ++ [ {| Worker.op_type := "SET"; Worker.op_path := Sdk.path r;
              Worker.op_data := Some data;
              Worker.op_expectedVersion := expected snapshot |} ].

Definition update (ops : list Worker.batch_op) (r : Sdk.DocumentReference)
    (data : json) (snapshot : option Sdk.DocumentSnapshot)
  : list Worker.batch_op :=
  ops ++ [ {| Worker.op_type := "UPDATE"; Worker.op_path := Sdk.path r;
              Worker.op_data := Some data;
              Worker.op_expectedVersion := expected snapshot |} ].

Definition delete (ops : list Worker.batch_op) (r : Sdk.DocumentReference)
    (snapshot : option Sdk.DocumentSnapshot) : list Worker.batch_op :=
  ops ++ [ {| Worker.op_type := "DELETE"; Worker.op_path := Sdk.path r;
              Worker.op_data := None;
              Worker.op_expectedVersion := expected snapshot |} ].

(** [commit()]: nothing is sent for an empty list ([net] is not looked
    at); a 409 is thrown as [Conflict] with [status = 409], another
    status that is not ok with the text of the response.  The result is
    the client afterwards and the error thrown, if any. *)
Definition commit (c : Sdk.client) (ops : list Worker.batch_op)
    (net : batch_answer) : Sdk.client * option error :=
  match ops with
  | [] => (c, None)
  | _ =>
      match net with
      | Unreachable e => (c, Some e)
      | Answer status text body =>
          if status =? 409 then
            (c, Some {| message := "Conflict"; err_status := Some 409 |})
          else if negb (Sdk.ok status) then
            (c, Some {| message := text; err_status := None |})
          else
            match body with
            | inl e => (c, Some e)
            | inr version =>
                (if version =? 0 then c else Sdk.updateLastVersion version c,
                 None)
            end
      end
  end.

End Transaction.

(** *** [TelestackClient.runTransaction] *)

(** One turn of the loop, [updateFunction] then [commit]: it resolves
    with a result or throws. *)
Inductive attempt (T : Type) :=
| Resolves (result : T)
| Throws (e : error).
Arguments Resolves {T} result.
Arguments Throws {T} e.

(** What the call comes to: the result of a turn, the error of a turn
    rethrown, or the error after [maxRetries] conflicts. *)
Inductive transaction_result (T : Type) :=
| Returned (result : T)
| Rethrown (e : error)
| RetriesExhausted.
Arguments Returned {T} result.
Arguments Rethrown {T} e.
Arguments RetriesExhausted {T}.

(** [e.message.includes("Conflict") || e.status === 409] *)
Definition is_conflict (e : error) : bool :=
  Js.includes (message e) "Conflict"
  || match err_status e with Some st => st =? 409 | None => false end.

(** The [while (retries < maxRetries)] loop, [budget] being
    [maxRetries - retries]; [turns retries] is the outcome of the turn
    taken after [retries] conflicts. *)
Fixpoint retry_loop {T : Type} (turns : nat -> attempt T) (budget retries : nat)
  : transaction_result T :=
  match budget with
  | O => RetriesExhausted
  | S budget' =>
      match turns retries with
      | Resolves result => Returned result
      | Throws e =>
          if is_conflict e then retry_loop turns budget' (S retries)
          else Rethrown e
      end
  end.

Definition runTransaction {T : Type} (turns : nat -> attempt T)
    (maxRetries : nat) : transaction_result T :=
  retry_loop turns maxRetries 0.

(** *** [TelestackClient.processQueue] *)

(** The outcomes of the requests made while one entry of the queue is
    replayed: that of the write, that of the read inside an accepted
    [update], and that of the read that follows the write. *)
Record replay_outcomes := {
  write_outcome : Sdk.http_result;
  confirm_outcome : Sdk.http_result;
  readback_outcome : Sdk.http_result
}.

(** The body of the [for (const item of queue)] loop of [processQueue];
    [outcomes i] are the outcomes for the entry at position [i].  A call
    that throws ends the loop.  [persistence.delete('queue', item.path)]
    asks the [queue] store, whose keys are the numbers it generated, to
    remove the key [item.path]: it removes nothing.  The entries are
    those [set], [update] and [delete] wrote, which give a SET and an
    UPDATE entry their data; an entry without data is replayed with
    [null]. *)
Fixpoint replay_queue (c : Sdk.client) (items : list Sdk.queued_write)
    (outcomes : nat -> replay_outcomes) (i : nat) : Sdk.client :=
  match items with
  | [] => c
  | item :: rest =>
      match Sdk.doc (Sdk.queued_path item) with
      | None => c
      | Some docRef =>
          let data := default JNull (Sdk.queued_data item) in
          let type := Sdk.queued_type item in
          let written : Sdk.client * bool :=
            if String.eqb type "SET" then
              let r := Sdk.set c docRef data (write_outcome (outcomes i)) in
              (fst r, bool_decide (is_Some (snd r)))
            else if String.eqb type "UPDATE" then
              let r := update c docRef data (write_outcome (outcomes i))
                         (confirm_outcome (outcomes i)) in
              (fst r, bool_decide (is_Some (snd r)))
            else if String.eqb type "DELETE" then
              let r := delete c docRef (write_outcome (outcomes i)) in
              (fst r, bool_decide (is_Some (snd r)))
            else (c, true) in
          if negb (snd written) then fst written
          else if String.eqb type "DELETE" then
            replay_queue (fst written) rest outcomes (S i)
          else
            match Sdk.asyncGetSnapshot (fst written) docRef
                    (readback_outcome (outcomes i)) with
            | (c2, Some snap) =>
                replay_queue
                  (Sdk.put_document (Sdk.queued_path item) (Sdk.snap_data snap)
                     (Sdk.snap_version snap) c2)
                  rest outcomes (S i)
            | (c2, None) => c2
            end
      end
  end.

(** [processQueue()]: nothing without persistence; otherwise the
    entries [getAll('queue')] returns are replayed in order. *)
Definition processQueue (c : Sdk.client) (outcomes : nat -> replay_outcomes)
  : Sdk.client :=
  match Sdk.persistence c with
  | None => c
  | Some st => replay_queue c (Sdk.queue st) outcomes 0
  end.

(** *** [class Query] *)

Module Query.

(** The fields the builder methods set; [limitCount] and [orderByField]
    are [None] while undefined. *)
Record t := {
  path : string;
  filters : list filter;
  limitCount : option Z;
  orderByField : option string;
  orderDirection : string
}.

(** [new Query(client, path)] *)
Definition create (p : string) : t :=
  {| path := p; filters := []; limitCount := None; orderByField := None;
     orderDirection := "asc" |}.

(** [where(field, op, value)]: the filter is pushed onto the receiver's
    list, and the receiver is returned. *)
Definition where_ (q : t) (f : string) (o : filter_op) (v : json) : t :=
  {| path := path q;
     filters := filters q ++ [ {| field := f; op := o; value := v |} ];
     limitCount := limitCount q; orderByField := orderByField q;
     orderDirection := orderDirection q |}.

(** [this.limitCount || this.orderByField], as a condition. *)
Definition windowed (q : t) : bool :=
  match limitCount q with Some n => negb (n =? 0) | None => false end
  || match orderByField q with Some f => negb (String.eqb f "") | None => false end.

(** An element of [docsCache]: an object [{ id, ...data }], a member
    being a JSON value or [undefined]. *)
Definition entry := list (string * Sdk.js_value).

(** [d[k]] *)
Fixpoint entry_get (k : string) (d : entry) : Sdk.js_value :=
  match d with
  | [] => Sdk.Undefined
  | (k', v) :: rest => if String.eqb k k' then v else entry_get k rest
  end.

Fixpoint entry_set (k : string) (v : Sdk.js_value) (d : entry) : entry :=
  match d with
  | [] => [(k, v)]
  | (k', v') :: rest =>
      if String.eqb k k' then (k, v) :: rest else (k', v') :: entry_set k v rest
  end.

(** [{ ...d, ...data }] *)
Definition entry_assign (d : entry) (data : json) : entry :=
  fold_left (fun acc kv => entry_set (fst kv) (Sdk.Value (snd kv)) acc)
    (spread data) d.

(** [event.id || (event.doc && event.doc.id)]; [None] is [undefined]. *)
Definition docId (event : Worker.pub_data) : option string :=
  match Rules.nonempty (Worker.pub_id event) with
  | Some i => Some i
  | None => Worker.pd_id <$> Worker.pub_doc_member event
  end.

(** [d.id === docId] *)
Definition has_id (i : option string) (d : entry) : bool :=
  match entry_get "id" d, i with
  | Sdk.Undefined, None => true
  | Sdk.Value (JStr s), Some s' => String.eqb s s'
  | _, _ => false
  end.

(** [{ id: docId, ...data }] *)
Definition new_entry (i : option string) (data : json) : entry :=
  entry_assign [("id", from_option (fun s => Sdk.Value (JStr s)) Sdk.Undefined i)]
    data.

(** [this.docsCache.filter(d => d.id !== docId)] *)
Definition without (i : option string) (docsCache : list entry) : list entry :=
  List.filter (fun d => negb (has_id i d)) docsCache.

(** [if (event.version) this.client.updateLastVersion(event.version)] *)
Definition note_version (event : Worker.pub_data) (c : Sdk.client) : Sdk.client :=
  match Worker.pub_version event with
  | Some v => if v =? 0 then c else Sdk.updateLastVersion v c
  | None => c
  end.

(** The publication handler of [onSnapshot], on the payload of a
    publication of the worker: the client and [docsCache] afterwards.
    [refetched] is what [this.get()] resolves with where the handler
    calls it, [None] when it rejects; an exception leaves [docsCache] as
    it is. *)
Definition on_publication (h : host) (q : t) (event : Worker.pub_data)
    (refetched : option (list entry)) (c : Sdk.client)
    (docsCache : list entry) : Sdk.client * list entry :=
  let c' := note_version event c in
  let i := docId event in
  match Worker.pub_kind event with
  | Worker.CREATED =>
      match Worker.pub_doc_member event with
      | None => (c', docsCache)
      | Some doc =>
          let data := default JNull (Worker.pd_data doc) in
          match Sdk.matches h (filters q) data with
          | Some true =>
              if windowed q then (c', default docsCache refetched)
              else (c', without i docsCache ++ [new_entry i data])
          | _ => (c', docsCache)
          end
      end
  | Worker.UPDATED =>
      let docData :=
        match Worker.pub_doc_member event with
        | Some doc => default JNull (Worker.pd_data doc)
        | None => JObj []
        end in
      match Sdk.matches h (filters q) docData with
      | None => (c', docsCache)
      | Some m =>
          if windowed q then (c', default docsCache refetched)
          else if m then
            (c', (fun d => if has_id i d then entry_assign d docData else d)
                   <$> docsCache)
          else (c', without i docsCache)
      end
  | Worker.DELETED => (c', without i docsCache)
  end.

End Query.

End Client.

(** ** Notions the further properties are stated with *)

Module Laws.

(** The effect of a run of prepared statements. *)
Inductive runs : Store.db -> Store.db -> Prop :=
| runs_refl (d : Store.db) : runs d d
| runs_step (s : Store.stmt) (d1 d2 d3 : Store.db) :
    Store.exec s d1 = Some d2 -> runs d2 d3 -> runs d1 d3.

(** The events are numbered 1, 2, 3, ... in the order of the log, and the
    counter of the table is the number of the last one. *)
Definition numbered (d : Store.db) : Prop :=
  Store.events_seq d = Z.of_nat (length (Store.events d))
  /\ forall i e, Store.events d !! i = Some e -> Store.ev_version e = Z.of_nat i + 1.

(** Serving requests one after the other, whatever the answers. *)
Fixpoint replay (h : host) (reqs : list ((nat -> string) * Worker.request))
    (d : Store.db) : Store.db :=
  match reqs with
  | [] => d
  | (uuid, req) :: rest => replay h rest (Worker.out_db (Worker.fetch h uuid req d))
  end.

(** The request is [POST /documents/internal/reset]. *)
Definition is_reset (req : Worker.request) : bool :=
  match Worker.req_method req, Worker.req_pathParts req with
  | Worker.POST, first :: rest =>
      String.eqb first "documents"
      && Worker.seg_is (head rest) "internal"
      && Worker.seg_is (rest !! 1%nat) "reset"
  | _, _ => false
  end.

(** Two rows agree on what identifies a document. *)
Definition same_identity (r r' : Store.doc_row) : Prop :=
  Store.doc_id r = Store.doc_id r'
  /\ Store.doc_workspace_id r = Store.doc_workspace_id r'
  /\ Store.doc_collection_name r = Store.doc_collection_name r'
  /\ Store.doc_path r = Store.doc_path r'
  /\ Store.doc_user_id r = Store.doc_user_id r'.

(** Every row of [d] is still there in [d'], with the same identity. *)
Definition keeps_rows (d d' : Store.db) : Prop :=
  forall id r,
    Store.documents d !! id = Some r ->
    exists r', Store.documents d' !! id = Some r' /\ same_identity r r'.

(** The user a batch writes as, [auth?.userId || 'anonymous']. *)
Definition batch_user (auth : option Rules.auth_ctx) : string :=
  Worker.or_default (auth ≫= Rules.auth_userId) "anonymous".

(** The event the batch route logs for operation [o], with identifier
    [id], at version [version]. *)
Definition batch_event (ws id : string) (version : Z) (o : Worker.batch_op)
  : Store.event_row :=
  {| Store.ev_version := version; Store.ev_id := id;
     Store.ev_doc_id := Spec.batch_target o; Store.ev_workspace_id := ws;
     Store.ev_event_type := Worker.batch_event_type (Worker.op_type o);
     Store.ev_payload := Worker.event_payload (Worker.op_data o) |}.

(** The two publications the batch route prepares for operation [o]. *)
Definition operation_publications (auth : option Rules.auth_ctx)
    (o : Worker.batch_op) : list Worker.publication :=
  Worker.batch_publications (Worker.op_type o) (Spec.batch_target o)
    (Worker.op_path o) (batch_user auth) (Worker.op_data o).

(** Operation [o] passes the loop of the batch route on database [d]:
    its version check, the rules, and the binding of its document
    statement. *)
Definition accepted (h : host) (d : Store.db) (auth : option Rules.auth_ctx)
    (ws : string) (o : Worker.batch_op) : bool :=
  negb (Worker.batch_conflict (Worker.op_expectedVersion o)
          (Store.select_document (Spec.batch_target o) d))
  && Worker.allowed h (Worker.op_path o)
       (if String.eqb (Worker.op_type o) "DELETE" then Rules.Delete else Rules.Write)
       auth
  && bool_decide
       (is_Some
          (Worker.batch_doc_stmt (Worker.op_type o) (Spec.batch_target o) ws
             (Js.second_last_part (Js.split "/" (Worker.op_path o)))
             (Worker.op_path o) (batch_user auth) (Worker.op_data o))).

(** A value that is neither [null] nor an object. *)
Definition flat (j : json) : bool :=
  match j with JNull | JObj _ => false | _ => true end.

(** A value that a spread and a merge patch read alike: an object (its
    members have distinct names, as those of every parsed object have),
    or a value of which a spread copies nothing, that is any other value
    but an array or a string that is not empty. *)
Definition spreads_as_object (j : json) : bool :=
  match j with
  | JObj ms => bool_decide (NoDup ms.*1)
  | _ => match Client.spread j with [] => true | _ :: _ => false end
  end.

(** The queue of [c'] is that of [c] with entries added at its end (and
    persistence is on in both or in neither). *)
Definition queue_grows (c c' : Sdk.client) : Prop :=
  match Sdk.persistence c, Sdk.persistence c' with
  | Some st, Some st' => exists added, Sdk.queue st' = Sdk.queue st ++ added
  | None, None => True
  | _, _ => False
  end.

(** A statement that cannot fail: any but the plain INSERT into
    [documents]. *)
Definition total_stmt (s : Store.stmt) : Prop :=
  match s with Store.InsertDocument _ _ _ _ _ _ _ => False | _ => True end.

(** The filter compares two integers with one of [==], [!=], [<], [<=],
    [>], [>=], or two strings with [==] or [!=]. *)
Definition comparable (o : filter_op) (a b : json) : bool :=
  match a, b with
  | JNum _, JNum _ =>
      match o with
      | OpEq | OpNe | OpLt | OpLe | OpGt | OpGe => true
      | _ => false
      end
  | JStr _, JStr _ =>
      match o with OpEq | OpNe => true | _ => false end
  | _, _ => false
  end.

End Laws.

(** ** Further concrete inputs *)

Module Cases.

(** [PUT /documents/items/c] with the body [{ data: {n: 1} }]: no
    [userId]. *)
Definition put_without_user : Worker.request :=
  Scenario.request_to Worker.PUT ["items"; "c"]
    (Some {| Worker.data := Some (JObj [("n", JNum 1)]); Worker.userId := None;
             Worker.workspaceId := None; Worker.parentPath := None;
             Worker.expectedVersion := None; Worker.operations := None |}).

(** [client.doc('items/b')] *)
Definition ref_b : Sdk.DocumentReference :=
  {| Sdk.collectionPath := "items"; Sdk.id := "b" |}.

(** A snapshot of [items/b] at version 9, which the row of [b] in
    [two_documents] does not have. *)
Definition stale_b : Sdk.DocumentSnapshot :=
  {| Sdk.snap_id := "b"; Sdk.snap_path := "items/b";
     Sdk.snap_data := JObj [("n", JNum 7)]; Sdk.snap_version := 9;
     Sdk.snap_metadata := Sdk.server_metadata |}.

(** The operations of a transaction that updates [a] and deletes [b]
    with the stale snapshot. *)
Definition stale_operations : list Worker.batch_op :=
  Client.Transaction.delete
    (Client.Transaction.update [] Scenario.ref_a (JObj [("y", JNum 3)]) None)
    ref_b (Some stale_b).

Definition update_a_then_stale_b : Worker.request :=
  Client.batch_request "alice" "default" stale_operations.

(** The reference [client.collection('users').doc('u1')
    .collection('posts').doc('p1')]. *)
Definition post : Sdk.DocumentReference :=
  Client.collection_doc
    (Client.doc_collection (Client.collection_doc "users" "u1") "posts") "p1".

(** The operations of a write batch that updates [a], deletes [b] and
    sets the document [post] of a sub-collection. *)
Definition post_operations : list Worker.batch_op :=
  Client.WriteBatch.set
    (Client.WriteBatch.delete
       (Client.WriteBatch.update [] Scenario.ref_a (JObj [("y", JNum 3)]))
       ref_b)
    post (JObj [("t", JStr "hi")]).

Definition update_a_then_set_post : Worker.request :=
  Client.batch_request "alice" "default" post_operations.

(** The PUT that [set({t: 'hi'})] on [post] sends for user [alice] of
    workspace [default] to the endpoint [https://db.example]. *)
Definition set_post : Worker.request :=
  Client.set_request Scenario.quiet_host "https://db.example" Scenario.alice
    "alice" "default" post (JObj [("t", JStr "hi")]).

(** The local store of [Scenario.synced_client]: [items/a] cached as
    [{n: 5}] at version 7, nothing queued. *)
Definition synced_store : Sdk.local_store :=
  default {| Sdk.documents := ∅; Sdk.queue := [] |}
    (Sdk.persistence Scenario.synced_client).

(** A row of [products] with the data [{name: 'phone', price: 100}]. *)
Definition phone : Store.doc_row :=
  {| Store.doc_id := "p1"; Store.doc_workspace_id := "default";
     Store.doc_collection_name := "products"; Store.doc_path := "products/p1";
     Store.doc_user_id := "alice";
     Store.doc_data := JObj [("name", JStr "phone"); ("price", JNum 100)];
     Store.doc_version := 1; Store.doc_deleted := false |}.

(** [where('price', '<', 10)] on the collection [items]. *)
Definition cheap : Client.Query.t :=
  Client.Query.where_ (Client.Query.create "items") "price" OpLt (JNum 10).

(** The list of a live query holding the document [a]. *)
Definition listed_a : list Client.Query.entry :=
  [ [("id", Sdk.Value (JStr "a")); ("price", Sdk.Value (JNum 5))] ].

(** The payload the PUT route publishes for a change of document [id]
    to [data] at version [v]. *)
Definition updated (id : string) (data : json) (v : Z) : Worker.pub_data :=
  Worker.doc_publication Worker.UPDATED (Some id)
    {| Worker.pd_id := id; Worker.pd_collection := Some "items";
       Worker.pd_path := "items/" +:+ id; Worker.pd_data := Some data;
       Worker.pd_version := Some v; Worker.pd_userId := Some "alice";
       Worker.pd_workspaceId := Some "default" |}
    (Some v).

(** The payload the PUT route publishes for the creation of document
    [id] with [data] at version [v]. *)
Definition created (id : string) (data : json) (v : Z) : Worker.pub_data :=
  Worker.doc_publication Worker.CREATED None
    {| Worker.pd_id := id; Worker.pd_collection := Some "items";
       Worker.pd_path := "items/" +:+ id; Worker.pd_data := Some data;
       Worker.pd_version := Some v; Worker.pd_userId := None;
       Worker.pd_workspaceId := Some "default" |}
    None.

End Cases.

(** * Properties *)

(** ** Strings: [split] and [join] *)

Section SplitJoin.

Variable sep : ascii.

Lemma split_not_nil (s : string) : Js.split sep s <> [].
Proof.
  destruct s as [|c s]; simpl; [discriminate|].
  destruct (Ascii.eqb c sep); [discriminate|].
  destruct (Js.split sep s); discriminate.
Qed.

Lemma join_cons_char (c : ascii) (seg : string) (segs : list string) :
  Js.join (String sep EmptyString) (String c seg :: segs)
  = String c (Js.join (String sep EmptyString) (seg :: segs)).
Proof. destruct segs; reflexivity. Qed.

(** Joining what was split gives the string back. *)
Lemma join_split (s : string) : Js.join (String sep EmptyString) (Js.split sep s) = s.
Proof.
  induction s as [|c s IH]; [reflexivity|].
  simpl. destruct (Ascii.eqb_spec c sep) as [->|Hne].
  - pose proof (split_not_nil s) as Hnil.
    destruct (Js.split sep s) as [|seg segs]; [contradiction|].
    change (Js.join (String sep EmptyString) (EmptyString :: seg :: segs))
      with (String sep (Js.join (String sep EmptyString) (seg :: segs))).
    now rewrite IH.
  - pose proof (split_not_nil s) as Hnil.
    destruct (Js.split sep s) as [|seg segs]; [contradiction|].
    rewrite join_cons_char. now rewrite IH.
Qed.

Lemma append_assoc (a b c : string) : (a +:+ b) +:+ c = a +:+ (b +:+ c).
Proof.
  induction a as [|x a IH]; [reflexivity|].
  exact (f_equal (String x) IH).
Qed.

(** With two segments or more, the segments but the last, the separator
    and the last segment make up the joined string. *)
Lemma join_init_last (parts : list string) :
  (2 <= length parts)%nat ->
  exists l, last parts = Some l
    /\ Js.join (String sep EmptyString) (Js.slice_init parts) +:+ (String sep EmptyString) +:+ l
       = Js.join (String sep EmptyString) parts.
Proof.
  induction parts as [|x parts IH]; simpl; [lia|].
  intros Hlen. destruct parts as [|y parts]; [simpl in Hlen; lia|].
  destruct parts as [|z parts].
  - exists y. split; reflexivity.
  - destruct IH as (l & Hl & Hj); [simpl; lia|].
    exists l. split; [exact Hl|].
    unfold Js.slice_init in *.
    change (removelast (x :: y :: z :: parts))
      with (x :: removelast (y :: z :: parts)).
    remember (removelast (y :: z :: parts)) as init eqn:Hinit.
    destruct init as [|i0 init].
    { simpl in Hinit. destruct parts; discriminate. }
    change (Js.join (String sep EmptyString) (x :: i0 :: init))
      with (x +:+ (String sep EmptyString) +:+ Js.join (String sep EmptyString) (i0 :: init)).
    change (Js.join (String sep EmptyString) (x :: y :: z :: parts))
      with (x +:+ (String sep EmptyString) +:+ Js.join (String sep EmptyString) (y :: z :: parts)).
    rewrite <- Hj. now rewrite !append_assoc.
Qed.

End SplitJoin.

(** ** The client's path parsing *)

Lemma doc_path (p : string) (r : Sdk.DocumentReference) :
  Sdk.doc p = Some r -> Sdk.path r = p.
Proof.
  unfold Sdk.doc, Sdk.path. intros H.
  destruct (length (Js.split "/" p) mod 2 =? 0)%nat eqn:Heven; [|discriminate].
  injection H as <-. simpl.
  apply Nat.eqb_eq in Heven.
  pose proof (split_not_nil "/" p) as Hnil.
  assert (2 <= length (Js.split "/" p))%nat as Hlen.
  { destruct (Js.split "/" p) as [|a [|b l]]; simpl in *;
      [contradiction|discriminate|lia]. }
  destruct (join_init_last "/" _ Hlen) as (l & Hl & Hj).
  unfold Js.last_part. rewrite Hl. simpl.
  transitivity (Js.join "/" (Js.split "/" p));
    [exact Hj | exact (join_split "/" p)].
Qed.

(** C9. Path-parsing round trip: for every path [p] with an even number of
    ['/']-separated segments, [client.doc(p)] is defined, so is
    [client.doc(client.doc(p).path)], and the path of the latter is [p]. *)
Theorem doc_path_round_trip (p : string) :
  (length (Js.split "/" p) mod 2 = 0)%nat ->
  exists r r',
    Sdk.doc p = Some r
    /\ Sdk.doc (Sdk.path r) = Some r'
    /\ Sdk.path r' = p.
Proof.
  intros Heven.
  assert (exists r, Sdk.doc p = Some r) as [r Hr].
  { unfold Sdk.doc. apply Nat.eqb_eq in Heven. rewrite Heven. simpl. eauto. }
  exists r, r. pose proof (doc_path p r Hr) as Hp.
  rewrite Hp. auto.
Qed.

Lemma doc_path_round_trip_witness :
  exists r r',
    Sdk.doc "users/u1/posts/p1" = Some r
    /\ Sdk.doc (Sdk.path r) = Some r'
    /\ Sdk.path r' = "users/u1/posts/p1".
Proof. apply doc_path_round_trip. reflexivity. Defined.

(** ** The rules engine *)





(** ** Routing of the write requests on one document *)

Lemma fetch_put (h : host) (uuid : nat -> string) (req : Worker.request)
    (d : Store.db) (col id : string) (rest : list string) :
  Worker.req_method req = Worker.PUT ->
  Worker.req_pathParts req = "documents" :: col :: id :: rest ->
  Worker.allowed h (Js.join "/" (col :: id :: rest)) Rules.Write
    (Worker.req_auth req) = true ->
  Worker.fetch h uuid req d = Worker.handle_put uuid req col id d.
Proof.
  intros Hm Hparts Hallowed. unfold Worker.fetch.
  rewrite Hm, Hparts. cbv zeta.
  change (String.eqb "documents" "documents") with true.
  cbn [negb Worker.method_eqb head lookup list_lookup andb].
  rewrite Hallowed. cbn [negb].
  rewrite !andb_false_r. reflexivity.
Qed.

Lemma fetch_patch (h : host) (uuid : nat -> string) (req : Worker.request)
    (d : Store.db) (col id : string) (rest : list string) :
  Worker.req_method req = Worker.PATCH ->
  Worker.req_pathParts req = "documents" :: col :: id :: rest ->
  Worker.allowed h (Js.join "/" (col :: id :: rest)) Rules.Write
    (Worker.req_auth req) = true ->
  Worker.fetch h uuid req d = Worker.handle_patch uuid req col id d.
Proof.
  intros Hm Hparts Hallowed. unfold Worker.fetch.
  rewrite Hm, Hparts. cbv zeta.
  change (String.eqb "documents" "documents") with true.
  cbn [negb Worker.method_eqb head lookup list_lookup andb].
  rewrite Hallowed. cbn [negb].
  rewrite !andb_false_r. reflexivity.
Qed.

Lemma fetch_delete (h : host) (uuid : nat -> string) (req : Worker.request)
    (d : Store.db) (col id : string) (rest : list string) :
  Worker.req_method req = Worker.DELETE ->
  Worker.req_pathParts req = "documents" :: col :: id :: rest ->
  Worker.allowed h (Js.join "/" (col :: id :: rest)) Rules.Write
    (Worker.req_auth req) = true ->
  Worker.fetch h uuid req d = Worker.handle_delete uuid req id d.
Proof.
  intros Hm Hparts Hallowed. unfold Worker.fetch.
  rewrite Hm, Hparts. cbv zeta.
  change (String.eqb "documents" "documents") with true.
  cbn [negb Worker.method_eqb head lookup list_lookup andb].
  rewrite Hallowed. cbn [negb].
  rewrite !andb_false_r. reflexivity.
Qed.

(** ** DELETE of an id that has no row *)

(** A DELETE whose body is the JSON [null] is answered 500 before any
    statement runs. *)
Lemma delete_with_null_body (uuid : nat -> string) (req : Worker.request)
    (id : string) (d : Store.db) :
  Worker.req_body req = Worker.BodyNull ->
  Worker.handle_delete uuid req id d = Worker.respond 500 Worker.ErrorMessage d [].
Proof. unfold Worker.handle_delete. now intros ->. Qed.

(** So it is for the document [a], which exists: nothing is deleted. *)
Lemma delete_with_null_body_changes_nothing :
  let d := Scenario.two_documents in
  let o := Worker.fetch Scenario.quiet_host (Scenario.fresh "e")
             (Scenario.delete_null "a") d in
  Worker.out_response o
  = {| Worker.status := 500; Worker.resp_body := Worker.ErrorMessage |}
  /\ Worker.out_db o = d
  /\ Worker.out_published o = [].
Proof. vm_compute. repeat split; reflexivity. Qed.

(** C10 (as amended). A DELETE request that passes the rules and whose
    body is not the JSON [null], for a document id with no row in
    [documents], answers 204 with no body, leaves both tables as they
    were (no event appended, no row changed) and dispatches no
    publication. *)
Theorem delete_of_absent_id_is_silent (h : host) (uuid : nat -> string)
    (req : Worker.request) (d : Store.db) (col id : string)
    (rest : list string) :
  Worker.req_method req = Worker.DELETE ->
  Worker.req_pathParts req = "documents" :: col :: id :: rest ->
  Worker.allowed h (Js.join "/" (col :: id :: rest)) Rules.Write
    (Worker.req_auth req) = true ->
  Worker.req_body req <> Worker.BodyNull ->
  Store.documents d !! id = None ->
  let o := Worker.fetch h uuid req d in
  Worker.out_response o = {| Worker.status := 204; Worker.resp_body := Worker.NoBody |}
  /\ Worker.out_db o = d
  /\ Store.events (Worker.out_db o) = Store.events d
  /\ Store.documents (Worker.out_db o) = Store.documents d
  /\ Worker.out_published o = [].
Proof.
  intros Hm Hparts Hallowed Hbody Hnone o. subst o.
  rewrite (fetch_delete h uuid req d col id rest Hm Hparts Hallowed).
  unfold Worker.handle_delete, Store.select_document. rewrite Hnone.
  destruct (Worker.req_body req); [|contradiction|]; repeat split; reflexivity.
Qed.

Lemma delete_of_absent_id_is_silent_witness :
  let o := Worker.fetch Scenario.quiet_host (Scenario.fresh "e")
             (Scenario.delete "ghost") Scenario.two_documents in
  Worker.out_response o = {| Worker.status := 204; Worker.resp_body := Worker.NoBody |}
  /\ Worker.out_db o = Scenario.two_documents
  /\ Store.events (Worker.out_db o) = Store.events Scenario.two_documents
  /\ Store.documents (Worker.out_db o) = Store.documents Scenario.two_documents
  /\ Worker.out_published o = [].
Proof.
  apply (delete_of_absent_id_is_silent Scenario.quiet_host (Scenario.fresh "e")
           (Scenario.delete "ghost") Scenario.two_documents "items" "ghost" []).
  - reflexivity.
  - reflexivity.
  - reflexivity.
  - discriminate.
  - vm_compute. reflexivity.
Defined.

(** C10 as stated fails: the rules are asked before the row is looked
    up, so the DELETE of a caller without a token, for an id that has no
    row, is answered 403 and not 204. *)
Lemma anonymous_delete_of_absent_id_is_denied :
  let d := Scenario.two_documents in
  let o := Worker.fetch Scenario.quiet_host (Scenario.fresh "e")
             (Scenario.anonymous (Scenario.delete "ghost")) d in
  Store.documents d !! "ghost" = None
  /\ Worker.status (Worker.out_response o) = 403
  /\ Worker.status (Worker.out_response o) <> 204.
Proof. vm_compute. repeat split; discriminate. Qed.

(** ** Optimistic concurrency on PUT, PATCH and DELETE *)

Lemma lookup_update_row (f : Store.doc_row -> Store.doc_row) (id : string)
    (d : Store.db) (id' : string) :
  Store.documents (Store.update_row f id d) !! id'
  = if decide (id = id') then f <$> Store.documents d !! id
    else Store.documents d !! id'.
Proof. unfold Store.update_row. simpl. apply lookup_alter. Qed.

(** An UPDATE of the row of a key that is there rewrites that row and
    no other. *)
Lemma alter_present (f : Store.doc_row -> Store.doc_row) (id : string)
    (rows : gmap string Store.doc_row) (doc : Store.doc_row) :
  rows !! id = Some doc -> alter f id rows = <[id := f doc]> rows.
Proof.
  intros Hdoc. apply map_eq. intros k. rewrite lookup_alter, lookup_insert.
  destruct (decide (id = k)); [now rewrite Hdoc|reflexivity].
Qed.

(** C3 (as amended). On a PUT, PATCH or DELETE request that passes the
    rules and targets an id with a row: when [expectedVersion] is supplied
    and differs from the row's version the answer is 409, neither table
    changes and nothing is published; when it is omitted and the handler
    can read the body ([data] for PUT and PATCH, anything but [null] for
    DELETE) the write goes through whatever the current version is.  That
    is: exactly one event is appended, for the id, with the next version,
    of the type of the request, with the data sent (nothing for DELETE)
    as its payload; the row of the id takes that version and keeps what
    identifies it, and nothing else changes; PUT stores the data sent and
    PATCH the merge of the data sent into the stored data, both clearing
    the tombstone; DELETE sets the tombstone and keeps the data; the
    answer is 200 with the version (204 for DELETE), and the change is
    published with that version on the channel of the collection and on
    that of the document. *)
Theorem expected_version_precondition (h : host) (uuid : nat -> string)
    (req : Worker.request) (d : Store.db) (col id : string)
    (rest : list string) (doc : Store.doc_row) :
  Worker.req_method req = Worker.PUT \/ Worker.req_method req = Worker.PATCH
    \/ Worker.req_method req = Worker.DELETE ->
  Worker.req_pathParts req = "documents" :: col :: id :: rest ->
  Worker.allowed h (Js.join "/" (col :: id :: rest)) Rules.Write
    (Worker.req_auth req) = true ->
  Store.documents d !! id = Some doc ->
  let o := Worker.fetch h uuid req d in
  let expected := Worker.req_json req ≫= Worker.expectedVersion in
  let sent := default JNull (Worker.req_json req ≫= Worker.data) in
  let named := Worker.or_default (Worker.req_json req ≫= Worker.workspaceId)
                 "default" in
  let v := Store.events_seq d + 1 in
  (forall v', expected = Some v' -> v' <> Store.doc_version doc ->
     Worker.status (Worker.out_response o) = 409
     /\ Worker.out_db o = d
     /\ Worker.out_published o = [])
  /\ (expected = None -> Spec.readable req = true ->
      exists e r,
        Worker.out_db o
        = {| Store.documents := <[id := r]> (Store.documents d);
             Store.events := Store.events d ++ [e];
             Store.events_seq := v;
             Store.last_insert_rowid := v |}
        /\ Store.ev_id e = uuid 0%nat
        /\ Store.ev_doc_id e = id
        /\ Store.ev_version e = v
        /\ Laws.same_identity doc r
        /\ Store.doc_version r = v
        /\ (fun p => (Worker.channel p, Worker.pub_version (Worker.payload p)))
             <$> Worker.out_published o
           = [ (Worker.collection_channel
                  (Worker.collection_path_of (Store.doc_path doc)), Some v);
               (Worker.path_channel (Store.doc_path doc), Some v) ]
        /\ match Worker.req_method req with
           | Worker.PUT =>
               Worker.out_response o
               = {| Worker.status := 200; Worker.resp_body := Worker.JsonWritten v |}
               /\ Store.ev_event_type e = Store.SET
               /\ Store.ev_workspace_id e = named
               /\ Store.ev_payload e = sent
               /\ Store.doc_data r = sent
               /\ Store.doc_deleted r = false
           | Worker.PATCH =>
               Worker.out_response o
               = {| Worker.status := 200; Worker.resp_body := Worker.JsonWritten v |}
               /\ Store.ev_event_type e = Store.UPDATE
               /\ Store.ev_workspace_id e = named
               /\ Store.ev_payload e = sent
               /\ Store.doc_data r = Json.json_patch (Store.doc_data doc) sent
               /\ Store.doc_deleted r = false
           | _ =>
               Worker.out_response o
               = {| Worker.status := 204; Worker.resp_body := Worker.NoBody |}
               /\ Store.ev_event_type e = Store.DELETE
               /\ Store.ev_workspace_id e = Store.doc_workspace_id doc
               /\ Store.ev_payload e = JObj []
               /\ Store.doc_data r = Store.doc_data doc
               /\ Store.doc_deleted r = true
           end).
Proof.
  intros Hm Hparts Hallowed Hdoc o expected sent named v.
  subst o expected sent named v.
  assert (forall v, v <> Store.doc_version doc ->
            Worker.version_conflict (Some v) (Store.doc_version doc) = true)
    as Hconflict.
  { intros v Hv. unfold Worker.version_conflict.
    apply negb_true_iff, Z.eqb_neq. congruence. }
  unfold Spec.readable.
  destruct Hm as [Hm | [Hm | Hm]]; rewrite Hm.
  - (* PUT *)
    rewrite (fetch_put h uuid req d col id rest Hm Hparts Hallowed).
    unfold Worker.handle_put, Store.select_document. split.
    + intros v Hexp Hv.
      destruct (Worker.req_json req) as [b|]; [|discriminate].
      simpl in Hexp. rewrite Hdoc, Hexp, (Hconflict v Hv). auto.
    + intros Hnone Hread. apply bool_decide_eq_true in Hread as [j Hj].
      destruct (Worker.req_json req) as [b|]; [|discriminate].
      simpl in Hnone, Hj. simpl. rewrite Hdoc, Hnone, !Hj. simpl.
      unfold Store.update_row. simpl. rewrite (alter_present _ _ _ doc Hdoc).
      eexists _, _. split; [reflexivity|]. repeat split; reflexivity.
  - (* PATCH *)
    rewrite (fetch_patch h uuid req d col id rest Hm Hparts Hallowed).
    unfold Worker.handle_patch, Store.select_document. split.
    + intros v Hexp Hv.
      destruct (Worker.req_json req) as [b|]; [|discriminate].
      simpl in Hexp. rewrite Hdoc, Hexp, (Hconflict v Hv). auto.
    + intros Hnone Hread. apply bool_decide_eq_true in Hread as [j Hj].
      destruct (Worker.req_json req) as [b|]; [|discriminate].
      simpl in Hnone, Hj. simpl. rewrite Hdoc, Hnone, !Hj. simpl.
      rewrite lookup_alter_eq, Hdoc. simpl.
      unfold Store.update_row. simpl. rewrite (alter_present _ _ _ doc Hdoc).
      eexists _, _. split; [reflexivity|]. repeat split; reflexivity.
  - (* DELETE *)
    rewrite (fetch_delete h uuid req d col id rest Hm Hparts Hallowed).
    unfold Worker.handle_delete, Store.select_document, Worker.req_json.
    rewrite Hdoc. split.
    + intros v Hexp Hv.
      destruct (Worker.req_body req) as [| |b]; try discriminate.
      simpl in Hexp. simpl. rewrite Hexp, (Hconflict v Hv). auto.
    + intros Hnone Hread.
      destruct (Worker.req_body req) as [| |b]; try discriminate;
        simpl in Hnone; simpl; rewrite ?Hnone; simpl.
      all: unfold Store.update_row; simpl; rewrite (alter_present _ _ _ doc Hdoc).
      all: eexists _, _; split; [reflexivity|]; repeat split; reflexivity.
Qed.

Lemma expected_version_precondition_witness :
  (let o := Worker.fetch Scenario.quiet_host (Scenario.fresh "e3")
              (Scenario.put "a" (JObj []) None (Some 7)) Scenario.two_documents in
   Worker.status (Worker.out_response o) = 409
   /\ Worker.out_db o = Scenario.two_documents
   /\ Worker.out_published o = [])
  /\ (let d := Scenario.two_documents in
      let o := Worker.fetch Scenario.quiet_host (Scenario.fresh "e3")
                 (Scenario.patch "a" (JObj [("y", JNum 3)]) None) d in
      exists e r,
        Worker.out_db o
        = {| Store.documents := <["a" := r]> (Store.documents d);
             Store.events := Store.events d ++ [e];
             Store.events_seq := 3;
             Store.last_insert_rowid := 3 |}
        /\ Store.ev_version e = 3
        /\ Store.doc_version r = 3
        /\ Worker.out_response o
           = {| Worker.status := 200; Worker.resp_body := Worker.JsonWritten 3 |}
        /\ Store.ev_event_type e = Store.UPDATE
        /\ Store.doc_data r
           = Json.json_patch (Store.doc_data Scenario.row_a) (JObj [("y", JNum 3)])
        /\ Store.doc_deleted r = false).
Proof.
  split.
  - destruct (expected_version_precondition Scenario.quiet_host (Scenario.fresh "e3")
                (Scenario.put "a" (JObj []) None (Some 7)) Scenario.two_documents
                "items" "a" [] Scenario.row_a) as [Hconflict _].
    + left. reflexivity.
    + reflexivity.
    + reflexivity.
    + vm_compute. reflexivity.
    + apply (Hconflict 7); [reflexivity | discriminate].
  - destruct (expected_version_precondition Scenario.quiet_host (Scenario.fresh "e3")
                (Scenario.patch "a" (JObj [("y", JNum 3)]) None)
                Scenario.two_documents "items" "a" [] Scenario.row_a) as [_ Hfree].
    + right. left. reflexivity.
    + reflexivity.
    + reflexivity.
    + vm_compute. reflexivity.
    + destruct Hfree as (e & r & Hdb & _ & _ & Hev & _ & Hver & _ & Hans
                         & Hty & _ & _ & Hdata & Hlive);
        [reflexivity|reflexivity|].
      exists e, r. split; [exact Hdb|]. repeat split; assumption.
Defined.

(** C3 as stated fails: the rules are asked before the version is
    compared, so the PUT of a caller without a token on the document [a],
    which exists at version 1, with the stale [expectedVersion] 7, is
    answered 403 and not 409. *)
Lemma anonymous_stale_put_is_denied :
  let d := Scenario.two_documents in
  let o := Worker.fetch Scenario.quiet_host (Scenario.fresh "e3")
             (Scenario.anonymous (Scenario.put "a" (JObj []) None (Some 7))) d in
  Store.doc_version <$> Store.documents d !! "a" = Some 1
  /\ Worker.status (Worker.out_response o) = 403
  /\ Worker.status (Worker.out_response o) <> 409.
Proof. vm_compute. repeat split; discriminate. Qed.

(** ** Row versions and the event log *)

Lemma latest_event_snoc (id : string) (log : list Store.event_row)
    (e : Store.event_row) :
  Spec.latest_event id (log ++ [e])
  = if decide (Store.ev_doc_id e = id) then Some e else Spec.latest_event id log.
Proof.
  unfold Spec.latest_event. rewrite filter_app.
  destruct (decide (Store.ev_doc_id e = id)) as [Heq|Hne].
  - rewrite filter_cons_True by exact Heq. rewrite filter_nil. apply last_snoc.
  - rewrite filter_cons_False by exact Hne. rewrite filter_nil.
    now rewrite app_nil_r.
Qed.

(** The latest event of an id, when it was logged under [ws], is also the
    latest one of that id within [ws]. *)
Lemma latest_event_in_workspace (ws id : string) (log : list Store.event_row)
    (e : Store.event_row) :
  Spec.latest_event id log = Some e ->
  Store.ev_workspace_id e = ws ->
  Spec.latest_event_in ws id log = Some e.
Proof.
  induction log as [|x log IH] using rev_ind; [discriminate|].
  rewrite latest_event_snoc. unfold Spec.latest_event_in. rewrite filter_app.
  destruct (decide (Store.ev_doc_id x = id)) as [Hx|Hx].
  - intros [= ->] Hws.
    rewrite filter_cons_True by auto. rewrite filter_nil. apply last_snoc.
  - intros He Hws.
    rewrite filter_cons_False by (intros [? _]; contradiction).
    rewrite filter_nil, app_nil_r. now apply IH.
Qed.

Lemma rows_follow_log_version (strict : bool) (d : Store.db) :
  Spec.rows_follow_log strict d -> Spec.versions_follow_log d.
Proof.
  intros Hinv id r Hr. destruct (Hinv id r Hr) as (e & -> & Hv & _).
  simpl. now rewrite Hv.
Qed.

Lemma rows_follow_log_workspace (d : Store.db) :
  Spec.rows_follow_log true d -> Spec.versions_follow_workspace_log d.
Proof.
  intros Hinv id r Hr. destruct (Hinv id r Hr) as (e & He & Hv & Hws).
  rewrite (latest_event_in_workspace _ _ _ e He (Hws eq_refl)).
  simpl. now rewrite Hv.
Qed.

(** An event for an id followed by a write that makes the row of that id,
    if there is one, follow the event, and leaves the other rows alone. *)
Lemma event_then_write_follows (strict : bool) (d d' : Store.db)
    (e : Store.event_row) :
  Spec.rows_follow_log strict d ->
  Store.events d' = Store.events d ++ [e] ->
  (forall id', id' <> Store.ev_doc_id e ->
     Store.documents d' !! id' = Store.documents d !! id') ->
  (forall r, Store.documents d' !! Store.ev_doc_id e = Some r ->
     Spec.row_follows strict e r) ->
  Spec.rows_follow_log strict d'.
Proof.
  intros Hinv Hev Hother Hsame id r Hr.
  rewrite Hev, latest_event_snoc.
  destruct (decide (Store.ev_doc_id e = id)) as [<-|Hne].
  - exists e. split; [reflexivity|]. now apply Hsame.
  - apply Hinv. rewrite <- Hother; [exact Hr|congruence].
Qed.

Lemma exec_insert_event (id doc ws : string) (ty : Store.event_type)
    (payload : json) (d d1 : Store.db) :
  Store.exec (Store.InsertEvent id doc ws ty payload) d = Some d1 ->
  exists e,
    Store.ev_doc_id e = doc
    /\ Store.ev_workspace_id e = ws
    /\ Store.ev_version e = Store.last_insert_rowid d1
    /\ Store.events d1 = Store.events d ++ [e]
    /\ Store.documents d1 = Store.documents d.
Proof.
  simpl. intros [= <-]. simpl. eexists. repeat split; reflexivity.
Qed.

Lemma run_exec (s : Store.stmt) (d d' : Store.db) (v : Z) :
  Store.run s d = Some (d', v) ->
  Store.exec s d = Some d' /\ v = Store.last_insert_rowid d'.
Proof.
  unfold Store.run. destruct (Store.exec s d); simpl; [|discriminate].
  now intros [= <- <-].
Qed.

Lemma update_after_event (strict : bool) (f : Store.doc_row -> Store.doc_row)
    (d d1 : Store.db) (e : Store.event_row) :
  Spec.rows_follow_log strict d ->
  Store.events d1 = Store.events d ++ [e] ->
  Store.documents d1 = Store.documents d ->
  (strict = true ->
   Spec.row_in_workspace (Store.ev_workspace_id e) (Store.ev_doc_id e) d = true) ->
  (forall r, Store.doc_version (f r) = Store.ev_version e
             /\ Store.doc_workspace_id (f r) = Store.doc_workspace_id r) ->
  Spec.rows_follow_log strict (Store.update_row f (Store.ev_doc_id e) d1).
Proof.
  intros Hinv Hev Hdocs Hws Hf.
  apply (event_then_write_follows strict d _ e Hinv).
  - exact Hev.
  - intros id' Hne. rewrite lookup_update_row, Hdocs.
    destruct (decide (Store.ev_doc_id e = id')); [congruence|reflexivity].
  - intros r. rewrite lookup_update_row, Hdocs.
    destruct (decide _); [|congruence].
    unfold Spec.row_in_workspace in Hws.
    destruct (Store.documents d !! Store.ev_doc_id e) as [r0|]; simpl;
      [|discriminate].
    intros [= <-]. destruct (Hf r0) as [Hv Hw]. split; [now rewrite Hv|].
    intros Hstrict. rewrite Hw. symmetry. now apply String.eqb_eq, Hws.
Qed.

Lemma insert_after_event (strict : bool) (r : Store.doc_row)
    (d d1 : Store.db) (e : Store.event_row) :
  Spec.rows_follow_log strict d ->
  Store.events d1 = Store.events d ++ [e] ->
  Store.documents d1 = Store.documents d ->
  Store.doc_id r = Store.ev_doc_id e ->
  Store.doc_version r = Store.ev_version e ->
  Store.doc_workspace_id r = Store.ev_workspace_id e ->
  Spec.rows_follow_log strict (Store.insert_row r d1).
Proof.
  intros Hinv Hev Hdocs Hid Hv Hw.
  apply (event_then_write_follows strict d _ e Hinv).
  - exact Hev.
  - intros id' Hne. simpl. rewrite lookup_insert_ne, Hdocs; congruence.
  - intros r'. simpl. rewrite Hid, lookup_insert_eq. intros [= <-].
    split; [now rewrite Hv|]. now rewrite Hw.
Qed.

(** A document statement run right after the event of its id, naming the
    event's version (or reading it off [last_insert_rowid()]) and, where it
    may insert the row, the event's workspace. *)
Lemma document_statement_after_event (strict : bool) (s : Store.stmt)
    (d d1 d2 : Store.db) (e : Store.event_row) :
  Spec.rows_follow_log strict d ->
  Store.events d1 = Store.events d ++ [e] ->
  Store.documents d1 = Store.documents d ->
  Store.ev_version e = Store.last_insert_rowid d1 ->
  (strict = true ->
   Spec.row_in_workspace (Store.ev_workspace_id e) (Store.ev_doc_id e) d = true) ->
  match s with
  | Store.InsertEvent _ _ _ _ _ => False
  | Store.InsertDocument id ws _ _ _ _ v =>
      id = Store.ev_doc_id e /\ v = Store.ev_version e
      /\ ws = Store.ev_workspace_id e
  | Store.UpdateDocumentSet _ v id
  | Store.UpdateDocumentPatch _ v id
  | Store.UpdateDocumentTombstone v id =>
      id = Store.ev_doc_id e /\ v = Store.ev_version e
  | Store.BatchUpsertDocument id ws _ _ _ _ =>
      id = Store.ev_doc_id e /\ ws = Store.ev_workspace_id e
  | Store.BatchUpdateDocument _ id
  | Store.BatchTombstoneDocument id => id = Store.ev_doc_id e
  end ->
  Store.exec s d1 = Some d2 ->
  Spec.rows_follow_log strict d2.
Proof.
  intros Hinv Hev Hdocs Hrow Hws Hs Hexec.
  destruct s; simpl in Hexec; try contradiction.
  - destruct Hs as (-> & -> & ->).
    destruct (Store.documents d1 !! Store.ev_doc_id e); [discriminate|].
    injection Hexec as <-. now apply (insert_after_event _ _ d d1 e).
  - destruct Hs as [-> ->]. injection Hexec as <-.
    now apply (update_after_event _ _ d d1 e).
  - destruct Hs as [-> ->]. injection Hexec as <-.
    now apply (update_after_event _ _ d d1 e).
  - destruct Hs as [-> ->]. injection Hexec as <-.
    now apply (update_after_event _ _ d d1 e).
  - destruct Hs as [-> ->]. rewrite <- Hrow in Hexec.
    destruct (Store.documents d1 !! Store.ev_doc_id e); injection Hexec as <-.
    + now apply (update_after_event _ _ d d1 e).
    + now apply (insert_after_event _ _ d d1 e).
  - subst id. rewrite <- Hrow in Hexec. injection Hexec as <-.
    now apply (update_after_event _ _ d d1 e).
  - subst id. rewrite <- Hrow in Hexec. injection Hexec as <-.
    now apply (update_after_event _ _ d d1 e).
Qed.

Ltac after_event strict Hinv :=
  match goal with
  | He : Store.run (Store.InsertEvent _ _ _ _ _) ?d = Some (?d1, _) |- _ =>
      let e := fresh "e" in
      let Hdoc := fresh "Hdoc" in
      let Hws := fresh "Hws" in
      let Hver := fresh "Hver" in
      let Hev := fresh "Hev" in
      let Hdocs := fresh "Hdocs" in
      apply run_exec in He as [He ->];
      apply exec_insert_event in He as (e & Hdoc & Hws & Hver & Hev & Hdocs);
      match goal with
      | Hs : Store.run ?s d1 = Some (?d2, _) |- Spec.rows_follow_log _ ?d2 =>
          apply run_exec in Hs as [Hs _];
          apply (document_statement_after_event strict s d d1 d2 e Hinv Hev Hdocs Hver);
          [ rewrite Hdoc, Hws
          | simpl; rewrite ?Hdoc, ?Hws, ?Hver; auto
          | exact Hs ]
      end
  end.

Ltac handler_cases :=
  repeat case_match; simplify_eq;
  try (intros _ Hs; simpl in Hs; discriminate);
  intros Hinv _; simpl; try exact Hinv.

Lemma row_in_workspace_absent (ws id : string) (d : Store.db) :
  Store.documents d !! id = None -> Spec.row_in_workspace ws id d = true.
Proof. unfold Spec.row_in_workspace. now intros ->. Qed.

Lemma row_in_workspace_own (id : string) (d : Store.db) (r : Store.doc_row) :
  Store.documents d !! id = Some r ->
  Spec.row_in_workspace (Store.doc_workspace_id r) id d = true.
Proof. unfold Spec.row_in_workspace. intros ->. apply String.eqb_refl. Qed.

Lemma handle_put_follows (strict : bool) (uuid : nat -> string)
    (req : Worker.request) (col id : string) (d : Store.db) :
  (strict = true -> forall b, Worker.req_json req = Some b ->
     Spec.row_in_workspace (Worker.or_default (Worker.workspaceId b) "default") id d
     = true) ->
  Spec.rows_follow_log strict d ->
  Spec.succeeded (Worker.handle_put uuid req col id d) = true ->
  Spec.rows_follow_log strict (Worker.out_db (Worker.handle_put uuid req col id d)).
Proof.
  intros Hnamed. unfold Worker.handle_put. handler_cases; after_event strict Hinv.
  - intros Hstrict. now apply Hnamed.
  - intros _. now apply row_in_workspace_absent.
Qed.

Lemma handle_patch_follows (strict : bool) (uuid : nat -> string)
    (req : Worker.request) (col id : string) (d : Store.db) :
  (strict = true -> forall b, Worker.req_json req = Some b ->
     Spec.row_in_workspace (Worker.or_default (Worker.workspaceId b) "default") id d
     = true) ->
  Spec.rows_follow_log strict d ->
  Spec.succeeded (Worker.handle_patch uuid req col id d) = true ->
  Spec.rows_follow_log strict (Worker.out_db (Worker.handle_patch uuid req col id d)).
Proof.
  intros Hnamed. unfold Worker.handle_patch. handler_cases; after_event strict Hinv.
  intros Hstrict. now apply Hnamed.
Qed.

Lemma handle_delete_follows (strict : bool) (uuid : nat -> string)
    (req : Worker.request) (id : string) (d : Store.db) :
  Spec.rows_follow_log strict d ->
  Spec.succeeded (Worker.handle_delete uuid req id d) = true ->
  Spec.rows_follow_log strict (Worker.out_db (Worker.handle_delete uuid req id d)).
Proof.
  unfold Worker.handle_delete. handler_cases; after_event strict Hinv.
  all: intros _; now apply row_in_workspace_own.
Qed.

Lemma handle_create_follows (strict : bool) (uuid : nat -> string)
    (req : Worker.request) (col : option string) (d : Store.db) :
  Spec.rows_follow_log strict d ->
  Spec.succeeded (Worker.handle_create uuid req col d) = true ->
  Spec.rows_follow_log strict (Worker.out_db (Worker.handle_create uuid req col d)).
Proof.
  unfold Worker.handle_create. handler_cases; after_event strict Hinv.
  intros _. apply row_in_workspace_absent.
  simpl in *. rewrite <- Hdocs.
  now destruct (Store.documents _ !! uuid 0%nat).
Qed.

Lemma batch_cons (s : Store.stmt) (rest : list Store.stmt) (d d' : Store.db)
    (rids : list Z) :
  Store.batch (s :: rest) d = Some (d', rids) ->
  exists d1 rids',
    Store.exec s d = Some d1
    /\ Store.batch rest d1 = Some (d', rids')
    /\ rids = Store.last_insert_rowid d1 :: rids'.
Proof.
  simpl. unfold Store.run.
  destruct (Store.exec s d) as [d1|]; simpl; [|discriminate].
  destruct (Store.batch rest d1) as [[d2 rids']|] eqn:Hrest; simpl; [|discriminate].
  intros [= <- <-]. exists d1, rids'. auto.
Qed.

(** The document statement of a known operation: one statement, on the
    operation's target, inserting under the batch's workspace. *)
Lemma batch_doc_stmt_known (o : Worker.batch_op) (id ws : string)
    (col : option string) (path user : string) (ds : list Store.stmt) :
  Spec.known_type o = true ->
  Worker.batch_doc_stmt (Worker.op_type o) id ws col path user (Worker.op_data o)
  = Some ds ->
  exists s, ds = [s]
    /\ match s with
       | Store.BatchUpsertDocument id' ws' _ _ _ _ => id' = id /\ ws' = ws
       | Store.BatchUpdateDocument _ id'
       | Store.BatchTombstoneDocument id' => id' = id
       | _ => False
       end.
Proof.
  unfold Spec.known_type, Worker.batch_doc_stmt. intros Hknown.
  destruct (String.eqb (Worker.op_type o) "SET").
  - destruct col; simpl; [|discriminate].
    destruct (Worker.op_data o); simpl; [|discriminate].
    intros [= <-]. eexists. split; [reflexivity|]. split; reflexivity.
  - destruct (String.eqb (Worker.op_type o) "UPDATE").
    + destruct (Worker.op_data o); simpl; [|discriminate].
      intros [= <-]. eexists. split; reflexivity.
    + destruct (String.eqb (Worker.op_type o) "DELETE"); [|discriminate].
      intros [= <-]. eexists. split; reflexivity.
Qed.

(** A batch document statement under workspace [ws] keeps in [ws] the
    rows that were in it. *)
Lemma batch_statement_keeps_workspace (s : Store.stmt) (ws id id' : string)
    (d1 d2 : Store.db) :
  match s with
  | Store.BatchUpsertDocument i w _ _ _ _ => i = id /\ w = ws
  | Store.BatchUpdateDocument _ i
  | Store.BatchTombstoneDocument i => i = id
  | _ => False
  end ->
  Store.exec s d1 = Some d2 ->
  Spec.row_in_workspace ws id' d1 = true ->
  Spec.row_in_workspace ws id' d2 = true.
Proof.
  unfold Spec.row_in_workspace.
  destruct s; simpl; try contradiction.
  - intros [-> ->].
    destruct (Store.documents d1 !! id) as [r|] eqn:Hr; intros [= <-].
    + rewrite lookup_update_row.
      destruct (decide (id = id')) as [<-|Hne]; [|auto].
      rewrite Hr. auto.
    + simpl. destruct (decide (id = id')) as [<-|Hne].
      * rewrite lookup_insert_eq. intros _. apply String.eqb_refl.
      * now rewrite lookup_insert_ne.
  - intros -> [= <-]. rewrite lookup_update_row.
    destruct (decide (id = id')) as [<-|Hne]; [|auto].
    now destruct (Store.documents d1 !! id).
  - intros -> [= <-]. rewrite lookup_update_row.
    destruct (decide (id = id')) as [<-|Hne]; [|auto].
    now destruct (Store.documents d1 !! id).
Qed.

(** The statements a batch of known operations prepares keep every row
    following the latest event of its id, on whatever database they are
    run. *)
Lemma prepared_statements_follow (strict : bool) (h : host)
    (uuid : nat -> string) (d0 : Store.db) (auth : option Rules.auth_ctx)
    (ws : string) (ops : list Worker.batch_op) :
  forallb Spec.known_type ops = true ->
  forall i stmts pubs stmts' pubs',
    Worker.prepare_batch h uuid d0 auth ws ops i stmts pubs
    = Worker.Prepared stmts' pubs' ->
    exists tail,
      stmts' = stmts ++ tail
      /\ forall d d' rids,
           Spec.rows_follow_log strict d ->
           (strict = true ->
            forallb (fun o => Spec.row_in_workspace ws (Spec.batch_target o) d) ops
            = true) ->
           Store.batch tail d = Some (d', rids) ->
           Spec.rows_follow_log strict d'.
Proof.
  induction ops as [|o ops IH]; intros Hknown i stmts pubs stmts' pubs'.
  - simpl. intros [= <- <-]. exists []. split; [now rewrite app_nil_r|].
    simpl. now intros d d' rids Hinv _ [= <- <-].
  - apply andb_prop in Hknown as [Ho Hops]. simpl.
    destruct (Worker.batch_conflict _ _); [discriminate|].
    destruct (negb _); [discriminate|].
    destruct (Worker.batch_doc_stmt _ _ _ _ _ _ _) as [ds|] eqn:Hds; [|discriminate].
    destruct (batch_doc_stmt_known _ _ _ _ _ _ _ Ho Hds) as (s & -> & Hs).
    intros Hprep. destruct (IH Hops _ _ _ _ _ Hprep) as (tail & -> & Htail).
    eexists (_ :: s :: tail). split.
    { rewrite <- app_assoc. reflexivity. }
    intros d d' rids Hinv Hnamed Hbatch.
    apply batch_cons in Hbatch as (d1 & rids1 & He & Hbatch & _).
    apply batch_cons in Hbatch as (d2 & rids2 & Hexec & Hbatch & _).
    apply exec_insert_event in He as (e & Hdoc & Hws & Hver & Hev & Hdocs).
    apply (Htail d2 d' rids2); [| |exact Hbatch].
    + apply (document_statement_after_event strict s d d1 d2 e Hinv Hev Hdocs Hver);
        [| |exact Hexec].
      * intros Hstrict. specialize (Hnamed Hstrict).
        apply andb_prop in Hnamed as [Hnamed _]. now rewrite Hdoc, Hws.
      * rewrite Hdoc, Hws. destruct s; simpl in *; try contradiction; auto.
    + intros Hstrict. specialize (Hnamed Hstrict).
      apply andb_prop in Hnamed as [_ Hnamed].
      apply forallb_forall. intros o' Ho'.
      apply (batch_statement_keeps_workspace s ws _ _ d1 d2 Hs Hexec).
      unfold Spec.row_in_workspace. rewrite Hdocs.
      exact (proj1 (forallb_forall _ _) Hnamed o' Ho').
Qed.

Lemma handle_batch_follows (strict : bool) (h : host) (uuid : nat -> string)
    (req : Worker.request) (d : Store.db) :
  Spec.known_types req = true ->
  (strict = true -> forall b ops,
     Worker.req_json req = Some b -> Worker.operations b = Some ops ->
     forallb
       (fun o =>
          Spec.row_in_workspace
            (Worker.or_default (Worker.req_workspace_header req) "default")
            (Spec.batch_target o) d)
       ops = true) ->
  Spec.rows_follow_log strict d ->
  Spec.succeeded (Worker.handle_batch h uuid req d) = true ->
  Spec.rows_follow_log strict (Worker.out_db (Worker.handle_batch h uuid req d)).
Proof.
  unfold Spec.known_types, Worker.handle_batch.
  intros Hknown Hnamed.
  destruct (Worker.req_json req) as [b|]; simpl in Hknown; [|discriminate].
  destruct (Worker.operations b) as [ops|] eqn:Hops; [|discriminate].
  destruct (Worker.prepare_batch _ _ _ _ _ _ _ _ _) as [st msg|stmts pubs] eqn:Hprep.
  - intros Hinv _. exact Hinv.
  - destruct (prepared_statements_follow strict _ _ _ _ _ _ Hknown _ _ _ _ _ Hprep)
      as (tail & -> & Htail).
    destruct (Store.batch _ d) as [[d' rids]|] eqn:Hbatch; [|discriminate].
    intros Hinv _.
    assert (Spec.rows_follow_log strict d') as Hinv'.
    { apply (Htail d d' rids Hinv); [|exact Hbatch].
      intros Hstrict. now apply (Hnamed Hstrict b ops). }
    now destruct (last rids).
Qed.

Lemma read_routes_keep_db (req : Worker.request) (d : Store.db)
    (col id : string) :
  Worker.out_db (Worker.handle_token req d) = d
  /\ Worker.out_db (Worker.handle_sync req d) = d
  /\ Worker.out_db (Worker.handle_query req d) = d
  /\ Worker.out_db (Worker.handle_list req col d) = d
  /\ Worker.out_db (Worker.handle_get id d) = d.
Proof.
  unfold Worker.handle_token, Worker.handle_sync, Worker.handle_query,
    Worker.handle_list, Worker.handle_get.
  repeat split; repeat case_match; reflexivity.
Qed.

Lemma reset_follows (strict : bool) (d : Store.db) :
  Spec.rows_follow_log strict (Worker.reset_db d).
Proof. intros id r. simpl. now rewrite lookup_empty. Qed.

Ltac split_route :=
  match goal with
  | |- context [Worker.out_db (if ?c then _ else _)] => destruct c eqn:?
  end.

(** Every request that succeeds keeps every row following the latest
    event of its id. *)
Lemma fetch_follows (strict : bool) (h : host) (uuid : nat -> string)
    (req : Worker.request) (d : Store.db) :
  Spec.known_types req = true ->
  (strict = true -> Spec.within_workspace req d = true) ->
  Spec.rows_follow_log strict d ->
  Spec.succeeded (Worker.fetch h uuid req d) = true ->
  Spec.rows_follow_log strict (Worker.out_db (Worker.fetch h uuid req d)).
Proof.
  intros Hknown Hnamed Hinv. unfold Worker.fetch. cbv zeta.
  split_route; [intros _; exact Hinv|].
  destruct (Worker.req_pathParts req) as [|first rest] eqn:Hparts;
    [intros _; exact Hinv|].
  split_route; [intros _; exact Hinv|].
  split_route; [intros _; exact Hinv|].
  split_route; [intros _; apply reset_follows|].
  split_route.
  { apply handle_batch_follows; [exact Hknown| |exact Hinv].
    intros Hstrict b ops Hb Hops. specialize (Hnamed Hstrict).
    unfold Spec.within_workspace in Hnamed. rewrite Hb in Hnamed.
    match goal with
    | Hc : _ && _ = true |- _ => apply andb_prop in Hc as [Hpost _]
    end.
    destruct (Worker.req_method req); try discriminate.
    now rewrite Hops in Hnamed. }
  split_route.
  { intros _. now rewrite (proj1 (read_routes_keep_db req d "" "")). }
  split_route.
  { now apply handle_create_follows. }
  split_route.
  { intros _. now rewrite (proj1 (proj2 (read_routes_keep_db req d "" ""))). }
  split_route.
  { intros _. now rewrite (proj1 (proj2 (proj2 (read_routes_keep_db req d "" "")))). }
  assert (forall id, rest !! 1%nat = Some id -> strict = true ->
          forall b, Worker.req_json req = Some b ->
            Worker.req_method req = Worker.PUT \/ Worker.req_method req = Worker.PATCH ->
            Spec.row_in_workspace (Worker.or_default (Worker.workspaceId b) "default") id d
            = true) as Hrow.
  { intros id Hid Hstrict b Hb Hm. specialize (Hnamed Hstrict).
    unfold Spec.within_workspace in Hnamed. rewrite Hb, Hparts in Hnamed.
    change ((first :: rest) !! 2%nat) with (rest !! 1%nat) in Hnamed.
    rewrite Hid in Hnamed.
    destruct Hm as [Hm | Hm]; rewrite Hm in Hnamed; exact Hnamed. }
  destruct (Worker.req_method req) eqn:Hm;
    destruct (head rest) as [col|]; destruct (rest !! 1%nat) as [id|] eqn:Hid;
    try (intros _; exact Hinv).
  all: try (intros _;
            now rewrite (proj2 (proj2 (proj2 (proj2 (read_routes_keep_db req d "" id)))))).
  all: try (intros _;
            now rewrite (proj1 (proj2 (proj2 (proj2 (read_routes_keep_db req d col ""))))) ).
  all: try (now apply handle_delete_follows).
  - apply handle_put_follows; [|exact Hinv]. intros Hstrict b Hb.
    apply (Hrow id eq_refl Hstrict b Hb). now left.
  - apply handle_patch_follows; [|exact Hinv]. intros Hstrict b Hb.
    apply (Hrow id eq_refl Hstrict b Hb). now right.
Qed.

(** Serving a sequence of requests that all succeed, from empty tables. *)
Lemma served_rows_follow_log (strict : bool) (h : host)
    (reqs : list ((nat -> string) * Worker.request)) (d : Store.db) :
  Forall (fun r => Spec.known_types (snd r) = true) reqs ->
  (strict = true -> Spec.stays_within_workspaces h reqs Store.empty = true) ->
  Spec.serve h reqs Store.empty = Some d ->
  Spec.rows_follow_log strict d.
Proof.
  assert (Spec.rows_follow_log strict Store.empty) as Hempty.
  { intros id r. simpl. now rewrite lookup_empty. }
  revert Hempty. generalize Store.empty as d0.
  induction reqs as [|[uuid req] reqs IH]; intros d0 Hinv Hknown Hnamed; simpl.
  - now intros [= <-].
  - apply Forall_cons in Hknown as [Hreq Hrest]. simpl in Hreq.
    destruct (Spec.succeeded _) eqn:Hok; [|discriminate].
    apply IH; [|exact Hrest|].
    + apply fetch_follows; auto.
      intros Hstrict. specialize (Hnamed Hstrict). simpl in Hnamed.
      now apply andb_prop in Hnamed as [? _].
    + intros Hstrict. specialize (Hnamed Hstrict). simpl in Hnamed.
      now apply andb_prop in Hnamed as [_ ?].
Qed.

(** Whatever the workspaces the requests name, every row has the version
    of the latest event of its id. *)
Lemma versions_follow_whole_log (h : host)
    (reqs : list ((nat -> string) * Worker.request)) (d : Store.db) :
  Forall (fun r => Spec.known_types (snd r) = true) reqs ->
  Spec.serve h reqs Store.empty = Some d ->
  Spec.versions_follow_log d.
Proof.
  intros Hknown Hserve.
  apply (rows_follow_log_version false).
  now apply (served_rows_follow_log false h reqs).
Qed.

(** Where every request names the workspace of the rows it writes, the
    version of every row is that of the latest event appended for the
    document in its workspace: after any sequence of requests that all
    succeed (create, set, update, delete, batches of SET, UPDATE and
    DELETE operations), starting from empty tables. *)
Lemma versions_follow_event_log (h : host)
    (reqs : list ((nat -> string) * Worker.request)) (d : Store.db) :
  Forall (fun r => Spec.known_types (snd r) = true) reqs ->
  Spec.stays_within_workspaces h reqs Store.empty = true ->
  Spec.serve h reqs Store.empty = Some d ->
  Spec.versions_follow_workspace_log d.
Proof.
  intros Hknown Hnamed Hserve.
  apply rows_follow_log_workspace.
  now apply (served_rows_follow_log true h reqs).
Qed.

Lemma versions_follow_event_log_example :
  exists d,
    Spec.serve Scenario.quiet_host Scenario.puts_then_batch Store.empty = Some d
    /\ Spec.versions_follow_workspace_log d.
Proof.
  eexists. split; [vm_compute; reflexivity|].
  apply (versions_follow_event_log Scenario.quiet_host Scenario.puts_then_batch).
  - repeat constructor.
  - vm_compute. reflexivity.
  - vm_compute. reflexivity.
Qed.

(** C2 (the code departs from it). PUT looks its row up by id alone and
    logs its event under the workspace the request names: after
    [PUT items/a] with [workspaceId: "A"] (answered 201) and [PUT items/a]
    with [workspaceId: "B"] (answered 200) the row of [a], still of
    workspace [A], has version 2, the version of an event logged under
    [B], while the latest event for [a] within [A] is event 1.  The DELETE
    route logs under the workspace of the row: a DELETE of [a] then
    appends event 3 under [A]. *)
Theorem put_logs_event_under_named_workspace :
  exists d,
    Spec.serve Scenario.quiet_host Scenario.puts_from_two_workspaces Store.empty
    = Some d
    /\ (fun r => (Store.doc_workspace_id r, Store.doc_version r))
         <$> Store.documents d !! "a"
       = Some ("A", 2)
    /\ (fun e => (Store.ev_doc_id e, Store.ev_workspace_id e,
                  Store.ev_event_type e, Store.ev_version e))
         <$> Store.events d
       = [ ("a", "A", Store.INSERT, 1); ("a", "B", Store.SET, 2) ]
    /\ Store.ev_version <$> Spec.latest_event_in "A" "a" (Store.events d) = Some 1
    /\ ~ Spec.versions_follow_workspace_log d
    /\ (let o := Worker.fetch Scenario.quiet_host (Scenario.fresh "e3")
                   (Scenario.delete "a") d in
        Worker.status (Worker.out_response o) = 204
        /\ (fun e => (Store.ev_doc_id e, Store.ev_workspace_id e,
                      Store.ev_event_type e, Store.ev_version e))
             <$> last (Store.events (Worker.out_db o))
           = Some ("a", "A", Store.DELETE, 3)).
Proof.
  eexists. split; [vm_compute; reflexivity|].
  split; [vm_compute; reflexivity|].
  split; [vm_compute; reflexivity|].
  split; [vm_compute; reflexivity|].
  split; [|vm_compute; split; reflexivity].
  intros Hclaim.
  specialize (Hclaim "a"
    {| Store.doc_id := "a"; Store.doc_workspace_id := "A";
       Store.doc_collection_name := "items"; Store.doc_path := "items/a";
       Store.doc_user_id := "alice"; Store.doc_data := JObj [("n", JNum 2)];
       Store.doc_version := 2; Store.doc_deleted := false |}).
  vm_compute in Hclaim. specialize (Hclaim eq_refl). discriminate.
Qed.

(** ** The batch route *)

(** A batch that is answered with anything but 200 leaves the database as
    it was and publishes nothing. *)
Lemma rejected_batch_leaves_no_trace (h : host) (uuid : nat -> string)
    (req : Worker.request) (d : Store.db) :
  let o := Worker.handle_batch h uuid req d in
  Worker.status (Worker.out_response o) <> 200 ->
  Worker.out_db o = d /\ Worker.out_published o = [].
Proof.
  unfold Worker.handle_batch.
  destruct (Worker.req_json req) as [b|]; [|now auto].
  destruct (Worker.operations b) as [ops|]; [|now auto].
  destruct (Worker.prepare_batch _ _ _ _ _ _ _ _ _) as [st msg|stmts pubs];
    [now auto|].
  destruct (Store.batch stmts d) as [[d' rids]|] eqn:Hbatch; [|now auto].
  destruct (last rids) eqn:Hlast; simpl; [congruence|].
  intros _. split; [|reflexivity].
  apply last_None in Hlast as ->.
  destruct stmts as [|s stmts].
  - simpl in Hbatch. congruence.
  - apply batch_cons in Hbatch as (d1 & rids' & _ & _ & Hrids). discriminate.
Qed.

(** C1 (the code departs from it). The batch [SET a, SET b, UPDATE c] of
    scenario S3, with no row of id [c]: the worker answers 200, the rows of
    [a] and [b] are overwritten, three events are appended, among them an
    UPDATE event for [c], and there is still no row [c]. *)
Theorem batch_update_of_absent_document_commits :
  let d := Scenario.two_documents in
  let o := Worker.fetch Scenario.quiet_host (Scenario.fresh "e3")
             Scenario.set_set_update_absent d in
  Store.documents d !! "c" = None
  /\ Worker.status (Worker.out_response o) = 200
  /\ (Store.doc_data <$> Store.documents d !! "a",
      Store.doc_data <$> Store.documents (Worker.out_db o) !! "a")
     = (Some (JObj [("x", JNum 1); ("y", JNum 2)]), Some (JObj [("x", JNum 10)]))
  /\ (Store.doc_data <$> Store.documents d !! "b",
      Store.doc_data <$> Store.documents (Worker.out_db o) !! "b")
     = (Some (JObj [("n", JNum 0)]), Some (JObj [("n", JNum 20)]))
  /\ (fun e => (Store.ev_doc_id e, Store.ev_event_type e, Store.ev_version e))
       <$> Store.events (Worker.out_db o)
     = [ ("a", Store.INSERT, 1); ("b", Store.INSERT, 2);
         ("a", Store.INSERT, 3); ("b", Store.INSERT, 4);
         ("c", Store.UPDATE, 5) ]
  /\ Store.documents (Worker.out_db o) !! "c" = None.
Proof. vm_compute. repeat split; reflexivity. Qed.

(** ** Merge patch *)

(** The PATCH route stores [json_patch(data, patch)]. *)
Lemma patch_stores_merge (uuid : nat -> string) (req : Worker.request)
    (col id : string) (d : Store.db) (doc : Store.doc_row) (b : Worker.body)
    (p : json) :
  Store.documents d !! id = Some doc ->
  Worker.req_json req = Some b ->
  Worker.data b = Some p ->
  Worker.version_conflict (Worker.expectedVersion b) (Store.doc_version doc) = false ->
  let o := Worker.handle_patch uuid req col id d in
  Worker.status (Worker.out_response o) = 200
  /\ Store.doc_data <$> Store.documents (Worker.out_db o) !! id
     = Some (Json.json_patch (Store.doc_data doc) p).
Proof.
  intros Hdoc Hb Hp Hocc. unfold Worker.handle_patch, Store.select_document.
  rewrite Hb, Hdoc, Hocc, Hp. simpl.
  rewrite lookup_alter_eq, Hdoc. simpl.
  split; [reflexivity|]. now rewrite lookup_alter_eq, Hdoc.
Qed.

(** C4 (the code departs from it). The UPDATE operation of a batch binds
    the patch itself as the new [data]: on the row [a] holding
    [{x: 1, y: 2}], the batch [UPDATE a {y: 3}] is answered 200 and leaves
    [{y: 3}], where the merge is [{x: 1, y: 3}] (which is what the PATCH
    route stores). *)
Theorem batch_update_overwrites_data :
  let d := Scenario.two_documents in
  let p := JObj [("y", JNum 3)] in
  let o := Worker.fetch Scenario.quiet_host (Scenario.fresh "e3")
             Scenario.update_a_in_batch d in
  let o' := Worker.fetch Scenario.quiet_host (Scenario.fresh "e3")
              (Scenario.patch "a" p None) d in
  Store.doc_data <$> Store.documents d !! "a" = Some (JObj [("x", JNum 1); ("y", JNum 2)])
  /\ Json.json_patch (JObj [("x", JNum 1); ("y", JNum 2)]) p
     = JObj [("x", JNum 1); ("y", JNum 3)]
  /\ Worker.status (Worker.out_response o) = 200
  /\ Store.doc_data <$> Store.documents (Worker.out_db o) !! "a" = Some p
  /\ Store.doc_data <$> Store.documents (Worker.out_db o') !! "a"
     = Some (JObj [("x", JNum 1); ("y", JNum 3)]).
Proof. vm_compute. repeat split; reflexivity. Qed.

(** ** Versions in publications *)

(** Every publication of a batch carries the version the batch answers
    with. *)
Lemma batch_publications_carry_answer (h : host) (uuid : nat -> string)
    (req : Worker.request) (d : Store.db) (v : Z) :
  let o := Worker.handle_batch h uuid req d in
  Worker.out_response o
  = {| Worker.status := 200; Worker.resp_body := Worker.JsonWritten v |} ->
  Forall (fun p => Worker.pub_version (Worker.payload p) = Some v)
    (Worker.out_published o).
Proof.
  unfold Worker.handle_batch.
  destruct (Worker.req_json req) as [b|]; [|discriminate].
  destruct (Worker.operations b) as [ops|]; [|discriminate].
  destruct (Worker.prepare_batch _ _ _ _ _ _ _ _ _) as [st msg|stmts pubs].
  { simpl. intros [= -> ->]. constructor. }
  destruct (Store.batch stmts d) as [[d' rids]|]; [|discriminate].
  destruct (last rids); [|discriminate].
  simpl. intros [= ->]. apply Forall_fmap, Forall_true. reflexivity.
Qed.

(** C5 (the code departs from it). The batch [UPDATE a, UPDATE b]
    appends the event of [a] at version 3 and the event of [b] at version
    4; all four publications, those of [a] included, carry version 4. *)
Theorem batch_publications_share_last_version :
  let o := Worker.fetch Scenario.quiet_host (Scenario.fresh "e3")
             Scenario.update_a_then_b Scenario.two_documents in
  Worker.status (Worker.out_response o) = 200
  /\ (fun e => (Store.ev_doc_id e, Store.ev_version e))
       <$> drop 2 (Store.events (Worker.out_db o))
     = [("a", 3); ("b", 4)]
  /\ (fun p => (Worker.channel p, Worker.pub_id (Worker.payload p),
                Worker.pub_version (Worker.payload p)))
       <$> Worker.out_published o
     = [ ("collection:items", Some "a", Some 4); ("path:items_a", Some "a", Some 4);
         ("collection:items", Some "b", Some 4); ("path:items_b", Some "b", Some 4) ].
Proof. vm_compute. repeat split; reflexivity. Qed.

(** ** The local matcher and the query route *)

(** C6 (the code departs from it). [matches] has no case for ['LIKE']:
    with the filter [name LIKE 'a%'] it accepts the document
    [{name: "bob"}], which the WHERE clause of the query route rejects. *)
Theorem like_filter_is_ignored_locally :
  (forall h, Sdk.matches h [Scenario.name_like_a] Scenario.bob = Some true)
  /\ (forall h, Worker.query_returns h "default" [Scenario.name_like_a]
                  Scenario.bob_row = Some false).
Proof. split; intros h; reflexivity. Qed.

(** ** Snapshot metadata *)

(** Whatever is cached, a snapshot served by the fallback says it has
    pending writes. *)
Lemma cache_fallback_is_always_pending (c : Sdk.client)
    (r : Sdk.DocumentReference) (snap : Sdk.DocumentSnapshot) :
  Sdk.cache_fallback c r = Some snap ->
  Sdk.snap_metadata snap
  = {| Sdk.fromCache := true; Sdk.hasPendingWrites := true |}.
Proof.
  unfold Sdk.cache_fallback.
  destruct (Sdk.persistence c) as [st|]; simpl; [|discriminate].
  destruct (Sdk.documents st !! Sdk.path r); simpl; [|discriminate].
  now intros [= <-].
Qed.

(** C8 (the code departs from it). After a [set] that the server accepted
    at version 7 the cache holds that version and the queue is empty; a
    read that then falls back to the cache reports
    [hasPendingWrites = true]. *)
Theorem cache_fallback_reports_pending_writes :
  let c := Scenario.synced_client in
  (Sdk.queue <$> Sdk.persistence c) = Some []
  /\ (Sdk.persistence c ≫= fun st =>
        Sdk.cached_version <$> Sdk.documents st !! "items/a") = Some 7
  /\ exists snap,
       snd (Sdk.asyncGetSnapshot c Scenario.ref_a Sdk.NetworkFailure) = Some snap
       /\ Sdk.snap_version snap = 7
       /\ Sdk.snap_metadata snap
          = {| Sdk.fromCache := true; Sdk.hasPendingWrites := true |}.
Proof.
  vm_compute. repeat split. eexists. repeat split.
Qed.

(** * Further properties *)

(** ** The worker: what a request can leave behind *)

Ltac no_trace :=
  simpl; intros; (split; [reflexivity || lia | reflexivity || lia]).

(** The outcome [o] is that of one of the route handlers. *)
Ltac one_of_the_handlers H :=
  destruct H as [->|[[? ->]|[->|[->|[->|[[? ->]|[[? ->]|[(? & ? & ->)|[(? & ? & ->)|[[? ->]| ->]]]]]]]]]].

Lemma handler_client_error (h : host) (uuid : nat -> string)
    (req : Worker.request) (d : Store.db) (o : Worker.outcome) :
  (o = Worker.handle_batch h uuid req d
   \/ (exists col, o = Worker.handle_create uuid req col d)
   \/ o = Worker.handle_token req d
   \/ o = Worker.handle_query req d
   \/ o = Worker.handle_sync req d
   \/ (exists col, o = Worker.handle_list req col d)
   \/ (exists id, o = Worker.handle_get id d)
   \/ (exists col id, o = Worker.handle_put uuid req col id d)
   \/ (exists col id, o = Worker.handle_patch uuid req col id d)
   \/ (exists id, o = Worker.handle_delete uuid req id d)
   \/ o = Worker.engine_active d) ->
  400 <= Worker.status (Worker.out_response o) < 500 ->
  Worker.out_db o = d /\ Worker.out_published o = [].
Proof.
  intros H. one_of_the_handlers H.
  - unfold Worker.handle_batch. repeat case_match; no_trace.
  - unfold Worker.handle_create. repeat case_match; no_trace.
  - unfold Worker.handle_token. repeat case_match; no_trace.
  - unfold Worker.handle_query. repeat case_match; no_trace.
  - unfold Worker.handle_sync. no_trace.
  - unfold Worker.handle_list. no_trace.
  - unfold Worker.handle_get. repeat case_match; no_trace.
  - unfold Worker.handle_put. repeat case_match; no_trace.
  - unfold Worker.handle_patch. repeat case_match; no_trace.
  - unfold Worker.handle_delete. repeat case_match; no_trace.
  - unfold Worker.engine_active. no_trace.
Qed.

(** X1. A request that is answered with a client error (a status from
    400 to 499: 400, 403, 404, 409) leaves both tables as they were and
    publishes nothing. *)
Theorem client_errors_leave_no_trace (h : host) (uuid : nat -> string)
    (req : Worker.request) (d : Store.db) :
  let o := Worker.fetch h uuid req d in
  400 <= Worker.status (Worker.out_response o) < 500 ->
  Worker.out_db o = d /\ Worker.out_published o = [].
Proof.
  unfold Worker.fetch.
  repeat match goal with
  | |- context [Worker.out_response (if ?c then _ else _)] => destruct c eqn:?
  | |- context [Worker.out_response (match ?x with _ => _ end)] => destruct x eqn:?
  end.
  all: try (apply (handler_client_error h uuid req d); eauto 15; fail).
  all: no_trace.
Qed.

Lemma client_errors_leave_no_trace_witness :
  let o := Worker.fetch Scenario.quiet_host (Scenario.fresh "e")
             (Scenario.patch "ghost" (JObj [("n", JNum 1)]) None)
             Scenario.two_documents in
  Worker.out_db o = Scenario.two_documents /\ Worker.out_published o = [].
Proof.
  apply (client_errors_leave_no_trace Scenario.quiet_host (Scenario.fresh "e")
           (Scenario.patch "ghost" (JObj [("n", JNum 1)]) None)
           Scenario.two_documents).
  vm_compute. split; [discriminate|reflexivity].
Defined.

(** X2. A GET, HEAD or OPTIONS request changes nothing: the database
    after it is the database before it, and nothing is published. *)
Theorem safe_methods_change_nothing (h : host) (uuid : nat -> string)
    (req : Worker.request) (d : Store.db) :
  Worker.req_method req = Worker.GET
  \/ Worker.req_method req = Worker.HEAD
  \/ Worker.req_method req = Worker.OPTIONS ->
  let o := Worker.fetch h uuid req d in
  Worker.out_db o = d /\ Worker.out_published o = [].
Proof.
  intros Hm. unfold Worker.fetch.
  destruct Hm as [Hm|[Hm|Hm]]; rewrite Hm; cbn [Worker.method_eqb andb];
    try (split; reflexivity).
  all: destruct (Worker.req_pathParts req) as [|first rest]; [split; reflexivity|].
  all: rewrite ?andb_false_r.
  all: repeat match goal with
       | |- context [Worker.out_db (if ?c then _ else _)] => destruct c
       | |- context [Worker.out_db (match ?x with _ => _ end)] => destruct x
       end.
  all: try (split; reflexivity).
  all: unfold Worker.handle_sync, Worker.handle_query, Worker.handle_list,
         Worker.handle_get; repeat case_match; split; reflexivity.
Qed.

Lemma safe_methods_change_nothing_witness :
  let o := Worker.fetch Scenario.quiet_host (Scenario.fresh "e")
             (Scenario.request_to Worker.GET ["items"; "a"] None)
             Scenario.two_documents in
  Worker.out_db o = Scenario.two_documents /\ Worker.out_published o = [].
Proof.
  apply (safe_methods_change_nothing Scenario.quiet_host (Scenario.fresh "e")
           (Scenario.request_to Worker.GET ["items"; "a"] None)
           Scenario.two_documents).
  left. reflexivity.
Defined.

(** *** Every effect is a run of statements, or the reset *)

Lemma runs_trans (d1 d2 d3 : Store.db) :
  Laws.runs d1 d2 -> Laws.runs d2 d3 -> Laws.runs d1 d3.
Proof.
  induction 1; [auto|]. intros. eapply Laws.runs_step; eauto.
Qed.

Lemma runs_run (s : Store.stmt) (d d' : Store.db) (v : Z) :
  Store.run s d = Some (d', v) -> Laws.runs d d'.
Proof.
  intros H. apply run_exec in H as [H _].
  eapply Laws.runs_step; [exact H|constructor].
Qed.

Lemma runs_batch (stmts : list Store.stmt) (d d' : Store.db) (rids : list Z) :
  Store.batch stmts d = Some (d', rids) -> Laws.runs d d'.
Proof.
  revert d rids. induction stmts as [|s stmts IH]; intros d rids H.
  - simpl in H. injection H as <- _. constructor.
  - apply batch_cons in H as (d1 & rids' & Hrun & Hrest & _).
    eapply Laws.runs_step; [exact Hrun|]. eapply IH; exact Hrest.
Qed.

Ltac runs_cases :=
  repeat match goal with
  | |- context [Worker.out_db (if ?c then _ else _)] => destruct c eqn:?
  | |- context [Worker.out_db (match ?x with _ => _ end)] => destruct x eqn:?
  end;
  simpl;
  repeat match goal with
  | H : Store.run _ _ = Some _ |- _ => apply runs_run in H
  end;
  eauto using Laws.runs_refl, runs_trans.

Lemma handler_runs (h : host) (uuid : nat -> string)
    (req : Worker.request) (d : Store.db) (o : Worker.outcome) :
  (o = Worker.handle_batch h uuid req d
   \/ (exists col, o = Worker.handle_create uuid req col d)
   \/ o = Worker.handle_token req d
   \/ o = Worker.handle_query req d
   \/ o = Worker.handle_sync req d
   \/ (exists col, o = Worker.handle_list req col d)
   \/ (exists id, o = Worker.handle_get id d)
   \/ (exists col id, o = Worker.handle_put uuid req col id d)
   \/ (exists col id, o = Worker.handle_patch uuid req col id d)
   \/ (exists id, o = Worker.handle_delete uuid req id d)
   \/ o = Worker.engine_active d) ->
  Laws.runs d (Worker.out_db o).
Proof.
  intros H. one_of_the_handlers H.
  - unfold Worker.handle_batch. runs_cases.
    all: match goal with
         | H : Store.batch _ _ = Some _ |- _ => apply runs_batch in H
         end.
    all: assumption.
  - unfold Worker.handle_create. runs_cases.
  - unfold Worker.handle_token. runs_cases.
  - unfold Worker.handle_query. runs_cases.
  - unfold Worker.handle_sync. runs_cases.
  - unfold Worker.handle_list. runs_cases.
  - unfold Worker.handle_get. runs_cases.
  - unfold Worker.handle_put. runs_cases.
  - unfold Worker.handle_patch. runs_cases.
  - unfold Worker.handle_delete. runs_cases.
  - unfold Worker.engine_active. runs_cases.
Qed.

Lemma fetch_runs (h : host) (uuid : nat -> string) (req : Worker.request)
    (d : Store.db) :
  Laws.runs d (Worker.out_db (Worker.fetch h uuid req d))
  \/ (Laws.is_reset req = true
      /\ Worker.out_db (Worker.fetch h uuid req d) = Worker.reset_db d).
Proof.
  unfold Worker.fetch, Laws.is_reset.
  repeat match goal with
  | |- context [Worker.out_db (if ?c then _ else _)] => destruct c eqn:?
  | |- context [Worker.out_db (match ?x with _ => _ end)] => destruct x eqn:?
  end.
  all: try (left; apply (handler_runs h uuid req d); eauto 15; fail).
  all: try (left; simpl; constructor; fail).
  right. split; [|reflexivity].
  match goal with
  | H : _ && _ && Worker.method_eqb _ Worker.POST = true |- _ =>
      apply andb_prop in H as [Hseg Hpost];
      apply andb_prop in Hseg as [Hinternal Hreset]
  end.
  match goal with
  | H : negb (String.eqb _ "documents") = false |- _ =>
      apply negb_false_iff in H; rename H into Hfirst
  end.
  destruct (Worker.req_method req); try discriminate.
  now rewrite Hfirst, Hinternal, Hreset.
Qed.

Lemma exec_numbered (s : Store.stmt) (d d' : Store.db) :
  Store.exec s d = Some d' -> Laws.numbered d -> Laws.numbered d'.
Proof.
  intros Hexec [Hseq Hnum].
  destruct s; simpl in Hexec;
    repeat match type of Hexec with
    | match ?x with _ => _ end = _ => destruct x
    end;
    try discriminate; injection Hexec as <-; try (split; assumption).
  split; simpl.
  - rewrite length_app. simpl. lia.
  - intros i e He. apply lookup_app_Some in He as [He|[Hle He]].
    + now apply Hnum.
    + destruct (i - length (Store.events d))%nat as [|n] eqn:Hi; simpl in He;
        [|discriminate].
      injection He as <-. simpl. lia.
Qed.

Lemma runs_numbered (d d' : Store.db) :
  Laws.runs d d' -> Laws.numbered d -> Laws.numbered d'.
Proof. induction 1; eauto using exec_numbered. Qed.

(** X3. Whatever requests are served, accepted or not, starting from
    empty tables, the events of the log are numbered 1, 2, 3, ... in the
    order they were appended (so versions grow strictly along the log,
    without a gap). *)
Theorem event_log_is_numbered (h : host)
    (reqs : list ((nat -> string) * Worker.request)) :
  Laws.numbered (Laws.replay h reqs Store.empty).
Proof.
  assert (Laws.numbered Store.empty) as Hempty.
  { split; [reflexivity|]. intros i e He. simpl in He. now rewrite lookup_nil in He. }
  revert Hempty. generalize Store.empty.
  induction reqs as [|[uuid req] reqs IH]; intros d Hd; simpl; [exact Hd|].
  apply IH.
  destruct (fetch_runs h uuid req d) as [Hruns|[_ ->]].
  - eapply runs_numbered; eassumption.
  - split; [reflexivity|]. intros i e He. simpl in He. now rewrite lookup_nil in He.
Qed.

Lemma exec_keeps_rows (s : Store.stmt) (d d' : Store.db) :
  Store.exec s d = Some d' -> Laws.keeps_rows d d'.
Proof.
  intros Hexec id r Hr.
  assert (forall f, (forall x, Laws.same_identity x (f x)) -> forall id',
            exists r', Store.documents (Store.update_row f id' d) !! id = Some r'
                       /\ Laws.same_identity r r') as Hupd.
  { intros f Hf id'. simpl. destruct (decide (id' = id)) as [->|Hne].
    - rewrite lookup_alter_eq, Hr. simpl. eauto.
    - rewrite lookup_alter_ne by exact Hne. exists r. split; [exact Hr|].
      repeat split. }
  destruct s; simpl in Hexec.
  - injection Hexec as <-. simpl. exists r. repeat split; auto.
  - destruct (Store.documents d !! id0) eqn:Hid0; [discriminate|].
    injection Hexec as <-. simpl.
    destruct (decide (id0 = id)) as [->|Hne]; [congruence|].
    rewrite lookup_insert_ne by exact Hne. exists r. repeat split; auto.
  - injection Hexec as <-. apply Hupd. intros x. repeat split.
  - injection Hexec as <-. apply Hupd. intros x. repeat split.
  - injection Hexec as <-. apply Hupd. intros x. repeat split.
  - destruct (Store.documents d !! id0) eqn:Hid0; injection Hexec as <-.
    + apply Hupd. intros x. repeat split.
    + simpl. destruct (decide (id0 = id)) as [->|Hne]; [congruence|].
      rewrite lookup_insert_ne by exact Hne. exists r. repeat split; auto.
  - injection Hexec as <-. apply Hupd. intros x. repeat split.
  - injection Hexec as <-. apply Hupd. intros x. repeat split.
Qed.

Lemma keeps_rows_trans (d1 d2 d3 : Store.db) :
  Laws.keeps_rows d1 d2 -> Laws.keeps_rows d2 d3 -> Laws.keeps_rows d1 d3.
Proof.
  intros H12 H23 id r Hr.
  destruct (H12 id r Hr) as (r2 & Hr2 & Hsame2).
  destruct (H23 id r2 Hr2) as (r3 & Hr3 & Hsame3).
  exists r3. split; [exact Hr3|].
  unfold Laws.same_identity in *. intuition congruence.
Qed.

Lemma runs_keeps_rows (d d' : Store.db) :
  Laws.runs d d' -> Laws.keeps_rows d d'.
Proof.
  induction 1.
  - intros id r Hr. exists r. repeat split; auto.
  - eapply keeps_rows_trans; [eapply exec_keeps_rows; eassumption|assumption].
Qed.

Lemma exec_extends_log (s : Store.stmt) (d d' : Store.db) :
  Store.exec s d = Some d' ->
  exists new, Store.events d' = Store.events d ++ new.
Proof.
  intros Hexec.
  destruct s; simpl in Hexec;
    repeat match type of Hexec with
    | match ?x with _ => _ end = _ => destruct x
    end;
    try discriminate; injection Hexec as <-; simpl;
    solve [eexists; reflexivity | exists []; now rewrite app_nil_r].
Qed.

Lemma runs_extends_log (d d' : Store.db) :
  Laws.runs d d' ->
  exists new, Store.events d' = Store.events d ++ new.
Proof.
  induction 1 as [d|s d1 d2 d3 Hexec _ [new2 IH]].
  - exists []. now rewrite app_nil_r.
  - apply exec_extends_log in Hexec as [new1 Hnew1].
    exists (new1 ++ new2). now rewrite IH, Hnew1, app_assoc.
Qed.

(** X4. No request but [POST /documents/internal/reset] removes a row of
    [documents] or changes the id, the workspace, the collection, the
    path or the owner of one, and none but the reset removes or rewrites
    an event: the log after the request is the log before it with events
    added at its end. *)
Theorem requests_only_add (h : host) (uuid : nat -> string)
    (req : Worker.request) (d : Store.db) :
  Laws.is_reset req = false ->
  let d' := Worker.out_db (Worker.fetch h uuid req d) in
  Laws.keeps_rows d d'
  /\ exists new, Store.events d' = Store.events d ++ new.
Proof.
  intros Hreset d'. subst d'.
  destruct (fetch_runs h uuid req d) as [Hruns|[Hr _]]; [|congruence].
  split; [now apply runs_keeps_rows | now apply runs_extends_log].
Qed.

Lemma requests_only_add_witness :
  let d' := Worker.out_db
              (Worker.fetch Scenario.quiet_host (Scenario.fresh "e")
                 (Scenario.delete "a") Scenario.two_documents) in
  Laws.keeps_rows Scenario.two_documents d'
  /\ exists new, Store.events d' = Store.events Scenario.two_documents ++ new.
Proof.
  apply (requests_only_add Scenario.quiet_host (Scenario.fresh "e")
           (Scenario.delete "a") Scenario.two_documents).
  reflexivity.
Defined.

(** X5. The routes on one document are not atomic: a PUT for an id that
    has no row, whose body names no [userId], is answered 500 and creates
    no row, but the INSERT event it logged first stays in the log. *)
Theorem failed_creation_leaves_its_event (uuid : nat -> string)
    (req : Worker.request) (col id : string) (d : Store.db) (b : Worker.body)
    (j : json) :
  Store.documents d !! id = None ->
  Worker.req_json req = Some b ->
  Worker.data b = Some j ->
  Worker.userId b = None ->
  let o := Worker.handle_put uuid req col id d in
  Worker.status (Worker.out_response o) = 500
  /\ Store.documents (Worker.out_db o) = Store.documents d
  /\ Store.events (Worker.out_db o)
     = Store.events d
       ++ [ {| Store.ev_version := Store.events_seq d + 1;
               Store.ev_id := uuid 0%nat; Store.ev_doc_id := id;
               Store.ev_workspace_id :=
                 Worker.or_default (Worker.workspaceId b) "default";
               Store.ev_event_type := Store.INSERT;
               Store.ev_payload := j |} ]
  /\ Worker.out_published o = [].
Proof.
  intros Hdoc Hb Hj Huser. unfold Worker.handle_put, Store.select_document.
  rewrite Hb, Hdoc, Hj. simpl. rewrite Huser. simpl. auto.
Qed.

Lemma failed_creation_leaves_its_event_witness :
  let o := Worker.handle_put (Scenario.fresh "e") Cases.put_without_user
             "items" "c" Scenario.two_documents in
  Worker.status (Worker.out_response o) = 500
  /\ Store.documents (Worker.out_db o) = Store.documents Scenario.two_documents
  /\ Store.events (Worker.out_db o)
     = Store.events Scenario.two_documents
       ++ [ {| Store.ev_version := Store.events_seq Scenario.two_documents + 1;
               Store.ev_id := Scenario.fresh "e" 0%nat; Store.ev_doc_id := "c";
               Store.ev_workspace_id := Worker.or_default None "default";
               Store.ev_event_type := Store.INSERT;
               Store.ev_payload := JObj [("n", JNum 1)] |} ]
  /\ Worker.out_published o = [].
Proof.
  apply (failed_creation_leaves_its_event (Scenario.fresh "e")
           Cases.put_without_user "items" "c" Scenario.two_documents
           {| Worker.data := Some (JObj [("n", JNum 1)]); Worker.userId := None;
              Worker.workspaceId := None; Worker.parentPath := None;
              Worker.expectedVersion := None; Worker.operations := None |}
           (JObj [("n", JNum 1)])).
  - vm_compute. reflexivity.
  - reflexivity.
  - reflexivity.
  - reflexivity.
Defined.

(** ** The routes on one document *)

(** X6. DELETE keeps the row: the row of a deleted document is still in
    the table, its data untouched, with the tombstone set and the version
    of the DELETE event; GET answers 404 for it.  (A DELETE whose body is
    the JSON [null] is answered 500 and deletes nothing.) *)
Theorem deleted_document_is_kept_but_not_found (uuid : nat -> string)
    (req : Worker.request) (id : string) (d : Store.db) (doc : Store.doc_row) :
  Store.documents d !! id = Some doc ->
  Worker.req_body req <> Worker.BodyNull ->
  Worker.version_conflict (Worker.req_json req ≫= Worker.expectedVersion)
    (Store.doc_version doc) = false ->
  let o := Worker.handle_delete uuid req id d in
  Worker.status (Worker.out_response o) = 204
  /\ Store.documents (Worker.out_db o) !! id
     = Some (Store.tombstone_version (Store.events_seq d + 1) doc)
  /\ Worker.status (Worker.out_response (Worker.handle_get id (Worker.out_db o)))
     = 404.
Proof.
  intros Hdoc Hbody Hocc. unfold Worker.handle_delete, Store.select_document.
  rewrite Hdoc, Hocc.
  destruct (Worker.req_body req); [|contradiction|]; simpl.
  all: unfold Worker.handle_get, Store.select_live_document; simpl.
  all: rewrite lookup_alter_eq, Hdoc; simpl; auto.
Qed.

Lemma deleted_document_is_kept_but_not_found_witness :
  let o := Worker.handle_delete (Scenario.fresh "e") (Scenario.delete "a") "a"
             Scenario.two_documents in
  Worker.status (Worker.out_response o) = 204
  /\ Store.documents (Worker.out_db o) !! "a"
     = Some (Store.tombstone_version (Store.events_seq Scenario.two_documents + 1)
               Scenario.row_a)
  /\ Worker.status (Worker.out_response (Worker.handle_get "a" (Worker.out_db o)))
     = 404.
Proof.
  apply (deleted_document_is_kept_but_not_found (Scenario.fresh "e")
           (Scenario.delete "a") "a" Scenario.two_documents Scenario.row_a).
  - vm_compute. reflexivity.
  - discriminate.
  - reflexivity.
Defined.

(** X7. A PATCH brings a deleted document back with the data it had:
    after DELETE and then PATCH with a patch [p], GET answers 200 with
    the patch merged into the data the document had when it was deleted,
    at the version of the UPDATE event. *)
Theorem delete_then_patch_restores_data (uuid uuid' : nat -> string)
    (del req : Worker.request) (col id : string) (d : Store.db)
    (doc : Store.doc_row) (b : Worker.body) (p : json) :
  Store.documents d !! id = Some doc ->
  Worker.req_body del <> Worker.BodyNull ->
  Worker.version_conflict (Worker.req_json del ≫= Worker.expectedVersion)
    (Store.doc_version doc) = false ->
  Worker.req_json req = Some b ->
  Worker.data b = Some p ->
  Worker.expectedVersion b = None ->
  let d1 := Worker.out_db (Worker.handle_delete uuid del id d) in
  let d2 := Worker.out_db (Worker.handle_patch uuid' req col id d1) in
  Worker.out_response (Worker.handle_get id d2)
  = {| Worker.status := 200;
       Worker.resp_body :=
         Worker.JsonDocument
           (Store.set_data_version (Json.json_patch (Store.doc_data doc) p)
              (Store.events_seq d + 2) doc) |}.
Proof.
  intros Hdoc Hbody Hocc Hb Hp Hexpected.
  assert (Worker.handle_delete uuid del id d
          = Worker.handle_delete uuid
              {| Worker.req_method := Worker.req_method del;
                 Worker.req_pathParts := Worker.req_pathParts del;
                 Worker.req_auth := Worker.req_auth del;
                 Worker.req_workspace_header := Worker.req_workspace_header del;
                 Worker.req_body := Worker.BodyRejected;
                 Worker.req_search := Worker.req_search del |} id d) as ->.
  { unfold Worker.handle_delete, Store.select_document. rewrite Hdoc, Hocc.
    destruct (Worker.req_body del); [|contradiction|]; reflexivity. }
  unfold Worker.handle_delete, Store.select_document. rewrite Hdoc. simpl.
  unfold Worker.handle_patch, Store.select_document. rewrite Hb. simpl.
  rewrite lookup_alter_eq, Hdoc. simpl. rewrite Hexpected, Hp. simpl.
  rewrite !lookup_alter_eq, Hdoc. simpl.
  unfold Worker.handle_get, Store.select_live_document. simpl.
  rewrite !lookup_alter_eq, Hdoc. simpl.
  replace (Store.events_seq d + 1 + 1) with (Store.events_seq d + 2) by lia.
  reflexivity.
Qed.

Lemma delete_then_patch_restores_data_witness :
  let d1 := Worker.out_db
              (Worker.handle_delete (Scenario.fresh "e3") (Scenario.delete "a")
                 "a" Scenario.two_documents) in
  let d2 := Worker.out_db
              (Worker.handle_patch (Scenario.fresh "e4")
                 (Scenario.patch "a" (JObj [("y", JNum 3)]) None) "items" "a" d1) in
  Worker.out_response (Worker.handle_get "a" d2)
  = {| Worker.status := 200;
       Worker.resp_body :=
         Worker.JsonDocument
           (Store.set_data_version
              (Json.json_patch (Store.doc_data Scenario.row_a) (JObj [("y", JNum 3)]))
              (Store.events_seq Scenario.two_documents + 2) Scenario.row_a) |}.
Proof.
  apply (delete_then_patch_restores_data (Scenario.fresh "e3") (Scenario.fresh "e4")
           (Scenario.delete "a") (Scenario.patch "a" (JObj [("y", JNum 3)]) None)
           "items" "a" Scenario.two_documents Scenario.row_a
           (Scenario.write_body (JObj [("y", JNum 3)]) None None)
           (JObj [("y", JNum 3)])).
  - vm_compute. reflexivity.
  - discriminate.
  - reflexivity.
  - reflexivity.
  - reflexivity.
  - reflexivity.
Defined.

(** X8. What a PUT that is answered 200 or 201 stored is what GET
    returns next: the data of the request, at the version the PUT
    answered with, the document being live (a deleted one is brought
    back). *)
Theorem put_then_get (uuid : nat -> string) (req : Worker.request)
    (col id : string) (d : Store.db) (b : Worker.body) (j : json) :
  Worker.req_json req = Some b ->
  Worker.data b = Some j ->
  let o := Worker.handle_put uuid req col id d in
  Spec.succeeded o = true ->
  exists r,
    Worker.out_response (Worker.handle_get id (Worker.out_db o))
    = {| Worker.status := 200; Worker.resp_body := Worker.JsonDocument r |}
    /\ Store.doc_data r = j
    /\ Store.doc_deleted r = false
    /\ (Worker.resp_body (Worker.out_response o)
        = Worker.JsonWritten (Store.doc_version r)
        \/ Worker.resp_body (Worker.out_response o)
           = Worker.JsonCreated id (Store.doc_path r) (Store.doc_version r)).
Proof.
  intros Hb Hj. unfold Worker.handle_put, Store.select_document.
  rewrite Hb, Hj.
  destruct (Store.documents d !! id) as [doc|] eqn:Hdoc.
  - destruct (Worker.version_conflict _ _); [discriminate|]. simpl. intros _.
    unfold Worker.handle_get, Store.select_live_document. simpl.
    rewrite lookup_alter_eq, Hdoc. simpl.
    eexists. split; [reflexivity|]. simpl. auto.
  - simpl. destruct (Worker.userId b) as [user|]; [|discriminate].
    unfold Store.run. simpl. rewrite Hdoc. simpl. intros _.
    unfold Worker.handle_get, Store.select_live_document. simpl.
    rewrite lookup_insert_eq. simpl.
    eexists. split; [reflexivity|]. simpl. auto.
Qed.

Lemma put_then_get_witness :
  let o := Worker.handle_put (Scenario.fresh "e")
             (Scenario.put "c" (JObj [("n", JNum 1)]) None None) "items" "c"
             Scenario.two_documents in
  exists r,
    Worker.out_response (Worker.handle_get "c" (Worker.out_db o))
    = {| Worker.status := 200; Worker.resp_body := Worker.JsonDocument r |}
    /\ Store.doc_data r = JObj [("n", JNum 1)]
    /\ Store.doc_deleted r = false
    /\ (Worker.resp_body (Worker.out_response o)
        = Worker.JsonWritten (Store.doc_version r)
        \/ Worker.resp_body (Worker.out_response o)
           = Worker.JsonCreated "c" (Store.doc_path r) (Store.doc_version r)).
Proof.
  apply (put_then_get (Scenario.fresh "e")
           (Scenario.put "c" (JObj [("n", JNum 1)]) None None) "items" "c"
           Scenario.two_documents
           (Scenario.write_body (JObj [("n", JNum 1)]) None None)
           (JObj [("n", JNum 1)])).
  - reflexivity.
  - reflexivity.
  - vm_compute. reflexivity.
Defined.

(** X9. What a PATCH stored is what GET returns next: on a document with
    data [data], a PATCH with patch [p] that passes its version check is
    answered 200 with the version of its event, and GET then returns
    [json_patch(data, p)] at that version. *)
Theorem patch_then_get (uuid : nat -> string) (req : Worker.request)
    (col id : string) (d : Store.db) (doc : Store.doc_row) (b : Worker.body)
    (p : json) :
  Store.documents d !! id = Some doc ->
  Worker.req_json req = Some b ->
  Worker.data b = Some p ->
  Worker.version_conflict (Worker.expectedVersion b) (Store.doc_version doc) = false ->
  let o := Worker.handle_patch uuid req col id d in
  Worker.out_response o
  = {| Worker.status := 200;
       Worker.resp_body := Worker.JsonWritten (Store.events_seq d + 1) |}
  /\ Worker.out_response (Worker.handle_get id (Worker.out_db o))
     = {| Worker.status := 200;
          Worker.resp_body :=
            Worker.JsonDocument
              (Store.set_data_version (Json.json_patch (Store.doc_data doc) p)
                 (Store.events_seq d + 1) doc) |}.
Proof.
  intros Hdoc Hb Hp Hocc. unfold Worker.handle_patch, Store.select_document.
  rewrite Hb, Hdoc, Hocc, Hp. simpl.
  rewrite lookup_alter_eq, Hdoc. simpl. split; [reflexivity|].
  unfold Worker.handle_get, Store.select_live_document. simpl.
  rewrite lookup_alter_eq, Hdoc. reflexivity.
Qed.

Lemma patch_then_get_witness :
  let o := Worker.handle_patch (Scenario.fresh "e")
             (Scenario.patch "a" (JObj [("y", JNum 3)]) (Some 1)) "items" "a"
             Scenario.two_documents in
  Worker.out_response o
  = {| Worker.status := 200;
       Worker.resp_body :=
         Worker.JsonWritten (Store.events_seq Scenario.two_documents + 1) |}
  /\ Worker.out_response (Worker.handle_get "a" (Worker.out_db o))
     = {| Worker.status := 200;
          Worker.resp_body :=
            Worker.JsonDocument
              (Store.set_data_version
                 (Json.json_patch (Store.doc_data Scenario.row_a)
                    (JObj [("y", JNum 3)]))
                 (Store.events_seq Scenario.two_documents + 1) Scenario.row_a) |}.
Proof.
  apply (patch_then_get (Scenario.fresh "e")
           (Scenario.patch "a" (JObj [("y", JNum 3)]) (Some 1)) "items" "a"
           Scenario.two_documents Scenario.row_a
           (Scenario.write_body (JObj [("y", JNum 3)]) None (Some 1))
           (JObj [("y", JNum 3)])).
  - vm_compute. reflexivity.
  - reflexivity.
  - reflexivity.
  - reflexivity.
Defined.

(** ** The batch route *)

(** A document statement of the batch route leaves the log alone. *)
Lemma batch_doc_stmt_log (type id ws : string) (col : option string)
    (path user : string) (data : option json) (ds : list Store.stmt)
    (d d' : Store.db) (rids : list Z) :
  Worker.batch_doc_stmt type id ws col path user data = Some ds ->
  Store.batch ds d = Some (d', rids) ->
  Store.events d' = Store.events d /\ Store.events_seq d' = Store.events_seq d.
Proof.
  unfold Worker.batch_doc_stmt. intros Hds Hbatch.
  assert (ds = [] \/ exists s, ds = [s]
          /\ match s with
             | Store.BatchUpsertDocument _ _ _ _ _ _
             | Store.BatchUpdateDocument _ _
             | Store.BatchTombstoneDocument _ => True
             | _ => False
             end) as [->|(s & -> & Hs)].
  { clear Hbatch. repeat case_match; simplify_option_eq; eauto; right; eexists; (split; [reflexivity|exact I]). }
  - simpl in Hbatch. now simplify_eq.
  - apply batch_cons in Hbatch as (d1 & rids' & Hexec & Hnil & _).
    simpl in Hnil. simplify_eq.
    destruct s; try contradiction; simpl in Hexec;
      repeat case_match; simplify_eq; auto.
Qed.

Lemma batch_app (a b : list Store.stmt) (d d' : Store.db) (rids : list Z) :
  Store.batch (a ++ b) d = Some (d', rids) ->
  exists d1 r1 r2,
    Store.batch a d = Some (d1, r1) /\ Store.batch b d1 = Some (d', r2)
    /\ rids = r1 ++ r2.
Proof.
  revert d rids. induction a as [|s a IH]; intros d rids; simpl.
  - intros H. exists d, [], rids. auto.
  - destruct (Store.run s d) as [[d1 rid]|]; simpl; [|discriminate].
    destruct (Store.batch (a ++ b) d1) as [[d2 rs]|] eqn:Hrest; simpl; [|discriminate].
    intros [= <- <-].
    destruct (IH _ _ Hrest) as (d3 & r1 & r2 & Ha & Hb & ->).
    exists d3, (rid :: r1), r2. rewrite Ha. simpl. auto.
Qed.

Lemma prepare_batch_prepared (h : host) (uuid : nat -> string) (d0 : Store.db)
    (auth : option Rules.auth_ctx) (ws : string) (ops : list Worker.batch_op) :
  forall i stmts pubs stmts' pubs',
    Worker.prepare_batch h uuid d0 auth ws ops i stmts pubs
    = Worker.Prepared stmts' pubs' ->
    forallb (Laws.accepted h d0 auth ws) ops = true
    /\ pubs' = pubs ++ (ops ≫= Laws.operation_publications auth)
    /\ exists tail,
         stmts' = stmts ++ tail
         /\ forall d d' rids,
              Store.batch tail d = Some (d', rids) ->
              Store.events d'
              = Store.events d
                ++ imap (fun k o =>
                           Laws.batch_event ws (uuid (i + k)%nat)
                             (Store.events_seq d + Z.of_nat k + 1) o) ops
              /\ Store.events_seq d' = Store.events_seq d + Z.of_nat (length ops).
Proof.
  induction ops as [|o ops IH]; intros i stmts pubs stmts' pubs'.
  - simpl. intros [= <- <-]. split; [reflexivity|]. split; [now rewrite app_nil_r|].
    exists []. split; [now rewrite app_nil_r|].
    simpl. intros d d' rids [= <- <-]. rewrite app_nil_r. split; [reflexivity|lia].
  - simpl.
    fold (Spec.batch_target o). fold (Laws.batch_user auth).
    destruct (Worker.batch_conflict _ _) eqn:Hconflict; [discriminate|].
    destruct (Worker.allowed _ _ _ _) eqn:Hallowed; [|discriminate].
    destruct (Worker.batch_doc_stmt _ _ _ _ _ _ _) as [ds|] eqn:Hds; [|discriminate].
    intros Hprep. destruct (IH _ _ _ _ _ Hprep) as (Hacc & -> & tail & -> & Htail).
    split.
    { cbn [forallb]. rewrite Hacc, andb_true_r. unfold Laws.accepted.
      rewrite Hconflict, Hallowed, Hds. reflexivity. }
    split.
    { rewrite <- app_assoc. reflexivity. }
    eexists (_ :: ds ++ tail). split.
    { rewrite <- !app_assoc. reflexivity. }
    intros d d' rids Hbatch.
    apply batch_cons in Hbatch as (d1 & rids1 & He & Hbatch & _).
    simpl in He. injection He as <-.
    apply batch_app in Hbatch as (d2 & r1 & r2 & Hdoc & Hrest & _).
    destruct (batch_doc_stmt_log _ _ _ _ _ _ _ _ _ _ _ Hds Hdoc) as [Hev Hseq].
    destruct (Htail _ _ _ Hrest) as [Hev' Hseq'].
    rewrite Hev', Hseq', Hev, Hseq. simpl. split; [|lia].
    rewrite <- app_assoc. f_equal. simpl. f_equal.
    + unfold Laws.batch_event. f_equal; [lia|]. now rewrite Nat.add_0_r.
    + apply imap_ext. intros k x _. simpl. unfold Laws.batch_event.
      f_equal; [lia|]. f_equal. lia.
Qed.

Lemma batch_total (stmts : list Store.stmt) (d : Store.db) :
  Forall Laws.total_stmt stmts ->
  exists d' rids, Store.batch stmts d = Some (d', rids)
                  /\ length rids = length stmts.
Proof.
  revert d. induction stmts as [|s stmts IH]; intros d Hall.
  - exists d, []. auto.
  - apply Forall_cons in Hall as [Hs Hall]. simpl. unfold Store.run.
    assert (exists d1, Store.exec s d = Some d1) as [d1 ->].
    { destruct s; simpl in *; try contradiction; repeat case_match; eauto. }
    simpl. destruct (IH d1 Hall) as (d' & rids & -> & Hlen). simpl.
    eexists _, _. split; [reflexivity|]. simpl. now rewrite Hlen.
Qed.

Lemma batch_doc_stmt_total (type id ws : string) (col : option string)
    (path user : string) (data : option json) (ds : list Store.stmt) :
  Worker.batch_doc_stmt type id ws col path user data = Some ds ->
  Forall Laws.total_stmt ds.
Proof.
  unfold Worker.batch_doc_stmt.
  intros Hds.
  repeat case_match; simplify_option_eq;
    repeat (apply Forall_cons; split; [exact I|]); apply Forall_nil_2.
Qed.

Lemma prepare_batch_accepted (h : host) (uuid : nat -> string) (d0 : Store.db)
    (auth : option Rules.auth_ctx) (ws : string) (ops : list Worker.batch_op) :
  forallb (Laws.accepted h d0 auth ws) ops = true ->
  forall i stmts pubs,
    Forall Laws.total_stmt stmts ->
    exists stmts' pubs',
      Worker.prepare_batch h uuid d0 auth ws ops i stmts pubs
      = Worker.Prepared stmts' pubs'
      /\ Forall Laws.total_stmt stmts'
      /\ (length stmts + length ops <= length stmts')%nat.
Proof.
  induction ops as [|o ops IH]; intros Hacc i stmts pubs Hstmts.
  - simpl. eexists _, _. split; [reflexivity|]. split; [assumption|lia].
  - cbn [forallb] in Hacc. apply andb_prop in Hacc as [Ho Hops].
    unfold Laws.accepted in Ho.
    apply andb_prop in Ho as [Ho Hbind]. apply andb_prop in Ho as [Hconflict Hallowed].
    apply negb_true_iff in Hconflict. apply bool_decide_eq_true_1 in Hbind as [ds Hds].
    simpl. fold (Spec.batch_target o). fold (Laws.batch_user auth).
    rewrite Hconflict, Hallowed, Hds. cbn [negb].
    destruct (IH Hops (S i) (stmts ++ Store.InsertEvent (uuid i) (Spec.batch_target o) ws
                 (Worker.batch_event_type (Worker.op_type o))
                 (Worker.event_payload (Worker.op_data o)) :: ds)
                (pubs ++ Worker.batch_publications (Worker.op_type o)
                   (Spec.batch_target o) (Worker.op_path o)
                   (Laws.batch_user auth) (Worker.op_data o)))
      as (stmts' & pubs' & Hprep & Htotal & Hlen).
    { apply Forall_app. split; [assumption|].
      constructor; [exact I|]. eapply batch_doc_stmt_total; exact Hds. }
    exists stmts', pubs'. split; [exact Hprep|]. split; [exact Htotal|].
    rewrite length_app in Hlen. simpl in *. lia.
Qed.

Lemma prepare_batch_rejected (h : host) (uuid : nat -> string) (d0 : Store.db)
    (auth : option Rules.auth_ctx) (ws : string) (ops : list Worker.batch_op) :
  forall i stmts pubs st msg,
    Worker.prepare_batch h uuid d0 auth ws ops i stmts pubs
    = Worker.Rejected st msg ->
    st = 409 \/ st = 403 \/ st = 500.
Proof.
  induction ops as [|o ops IH]; intros i stmts pubs st msg; simpl; [discriminate|].
  destruct (Worker.batch_conflict _ _); [intros [= <- <-]; auto|].
  destruct (negb _); [intros [= <- <-]; auto|].
  destruct (Worker.batch_doc_stmt _ _ _ _ _ _ _); [|intros [= <- <-]; auto].
  apply IH.
Qed.

Lemma handle_batch_accepted (h : host) (uuid : nat -> string)
    (req : Worker.request) (d : Store.db) (ops : list Worker.batch_op) :
  Worker.req_json req ≫= Worker.operations = Some ops ->
  Worker.status (Worker.out_response (Worker.handle_batch h uuid req d)) = 200 ->
  forallb
    (Laws.accepted h d (Worker.req_auth req)
       (Worker.or_default (Worker.req_workspace_header req) "default"))
    ops = true.
Proof.
  intros Hops. unfold Worker.handle_batch.
  destruct (Worker.req_json req) as [b|]; [|discriminate]. simpl in Hops.
  rewrite Hops.
  destruct (Worker.prepare_batch _ _ _ _ _ _ _ _ _) as [st msg|stmts pubs] eqn:Hprep.
  { apply prepare_batch_rejected in Hprep. simpl. lia. }
  intros _. now apply prepare_batch_prepared in Hprep as [? _].
Qed.

(** X10. A batch is answered 200 exactly when it has an operation and
    every operation passes the loop: its version check against the
    database as it is before the batch (not as the earlier operations of
    the batch leave it), the rules, and the binding of its statement (a
    SET has data and a path of two segments or more, an UPDATE has
    data). *)
Theorem batch_commits_iff (h : host) (uuid : nat -> string)
    (req : Worker.request) (d : Store.db) (ops : list Worker.batch_op) :
  Worker.req_json req ≫= Worker.operations = Some ops ->
  Worker.status (Worker.out_response (Worker.handle_batch h uuid req d)) = 200
  <-> ops <> []
      /\ forallb
           (Laws.accepted h d (Worker.req_auth req)
              (Worker.or_default (Worker.req_workspace_header req) "default"))
           ops = true.
Proof.
  intros Hops. split.
  - intros H200. split; [|now apply (handle_batch_accepted h uuid req d)].
    intros ->. revert H200. unfold Worker.handle_batch.
    destruct (Worker.req_json req) as [b|]; [|discriminate]. simpl in Hops.
    rewrite Hops. simpl. discriminate.
  - intros [Hne Hacc]. unfold Worker.handle_batch.
    destruct (Worker.req_json req) as [b|]; [|discriminate]. simpl in Hops.
    rewrite Hops.
    destruct (prepare_batch_accepted h uuid d (Worker.req_auth req) _ ops Hacc
                0%nat [] [] (Forall_nil_2 _)) as (stmts & pubs & -> & Htotal & Hlen).
    destruct (batch_total stmts d Htotal) as (d' & rids & -> & Hrids).
    destruct (last rids) eqn:Hlast; [reflexivity|].
    apply last_None in Hlast. subst rids.
    destruct ops; [contradiction|]. simpl in *. lia.
Qed.

Lemma batch_commits_iff_witness :
  Worker.status
    (Worker.out_response
       (Worker.handle_batch Scenario.quiet_host (Scenario.fresh "e")
          Cases.update_a_then_stale_b Scenario.two_documents)) = 200
  <-> Cases.stale_operations <> []
      /\ forallb
           (Laws.accepted Scenario.quiet_host Scenario.two_documents
              (Worker.req_auth Cases.update_a_then_stale_b)
              (Worker.or_default
                 (Worker.req_workspace_header Cases.update_a_then_stale_b)
                 "default"))
           Cases.stale_operations = true.
Proof.
  apply (batch_commits_iff Scenario.quiet_host (Scenario.fresh "e")
           Cases.update_a_then_stale_b Scenario.two_documents
           Cases.stale_operations).
  reflexivity.
Defined.

(** X11. A batch that is answered 200 has appended one event for each
    of its operations, in their order, at consecutive versions: the
    operation at position [k] has the event of version [k + 1] past the
    counter, on the document named by the last segment of its path, in
    the workspace of the request's header. *)
Theorem batch_logs_one_event_per_operation (h : host) (uuid : nat -> string)
    (req : Worker.request) (d : Store.db) (ops : list Worker.batch_op) :
  Worker.req_json req ≫= Worker.operations = Some ops ->
  let o := Worker.handle_batch h uuid req d in
  Worker.status (Worker.out_response o) = 200 ->
  Store.events (Worker.out_db o)
  = Store.events d
    ++ imap (fun k op =>
               Laws.batch_event
                 (Worker.or_default (Worker.req_workspace_header req) "default")
                 (uuid k) (Store.events_seq d + Z.of_nat k + 1) op) ops.
Proof.
  intros Hops. unfold Worker.handle_batch.
  destruct (Worker.req_json req) as [b|]; [|discriminate]. simpl in Hops.
  rewrite Hops.
  destruct (Worker.prepare_batch _ _ _ _ _ _ _ _ _) as [st msg|stmts pubs] eqn:Hprep.
  { apply prepare_batch_rejected in Hprep. simpl. lia. }
  destruct (Store.batch stmts d) as [[d' rids]|] eqn:Hbatch; [|discriminate].
  destruct (last rids) eqn:Hlast; [|discriminate]. intros _. simpl.
  apply prepare_batch_prepared in Hprep as (_ & _ & tail & -> & Htail).
  simpl in Hbatch. now apply Htail in Hbatch as [-> _].
Qed.

Lemma batch_logs_one_event_per_operation_witness :
  let o := Worker.handle_batch Scenario.quiet_host (Scenario.fresh "e")
             Scenario.update_a_then_b Scenario.two_documents in
  Store.events (Worker.out_db o)
  = Store.events Scenario.two_documents
    ++ imap (fun k op =>
               Laws.batch_event
                 (Worker.or_default
                    (Worker.req_workspace_header Scenario.update_a_then_b) "default")
                 (Scenario.fresh "e" k)
                 (Store.events_seq Scenario.two_documents + Z.of_nat k + 1) op)
         [ Scenario.operation "UPDATE" "items/a" (Some (JObj [("y", JNum 3)]));
           Scenario.operation "UPDATE" "items/b" (Some (JObj [("n", JNum 1)])) ].
Proof.
  apply (batch_logs_one_event_per_operation Scenario.quiet_host (Scenario.fresh "e")
           Scenario.update_a_then_b Scenario.two_documents).
  - reflexivity.
  - vm_compute. reflexivity.
Defined.



(** X13. A batch request is all or nothing: [POST /documents/batch] that
    is answered with anything but 200 (403, 409, 400, 500) leaves both
    tables as they were and publishes nothing. *)
Theorem batch_request_is_all_or_nothing (h : host) (uuid : nat -> string)
    (req : Worker.request) (d : Store.db) (rest : list string) :
  Worker.req_method req = Worker.POST ->
  Worker.req_pathParts req = "documents" :: "batch" :: rest ->
  let o := Worker.fetch h uuid req d in
  Worker.status (Worker.out_response o) <> 200 ->
  Worker.out_db o = d /\ Worker.out_published o = [].
Proof.
  intros Hm Hparts. unfold Worker.fetch. rewrite Hm, Hparts. cbv zeta.
  change (String.eqb "documents" "documents") with true.
  cbn [negb Worker.method_eqb head lookup list_lookup andb Worker.seg_is].
  change (String.eqb "batch" "internal") with false.
  change (String.eqb "batch" "auth") with false.
  change (String.eqb "batch" "batch") with true.
  cbn [negb andb].
  destruct (negb (Worker.allowed _ _ _ _)); [now auto|].
  unfold Worker.handle_batch.
  destruct (Worker.req_json req) as [b|]; [|now auto].
  destruct (Worker.operations b) as [ops|]; [|now auto].
  destruct (Worker.prepare_batch _ _ _ _ _ _ _ _ _) as [st msg|stmts pubs] eqn:Hprep;
    [now auto|].
  destruct (Store.batch stmts d) as [[d' rids]|] eqn:Hbatch; [|now auto].
  destruct (last rids) eqn:Hlast; simpl; [congruence|].
  intros _. split; [|reflexivity].
  apply last_None in Hlast as ->.
  destruct stmts as [|s stmts].
  - simpl in Hbatch. congruence.
  - apply batch_cons in Hbatch as (d1 & rids' & _ & _ & Hrids). discriminate.
Qed.

Lemma batch_request_is_all_or_nothing_witness :
  let o := Worker.fetch Scenario.quiet_host (Scenario.fresh "e")
             Cases.update_a_then_stale_b Scenario.two_documents in
  Worker.out_db o = Scenario.two_documents /\ Worker.out_published o = [].
Proof.
  apply (batch_request_is_all_or_nothing Scenario.quiet_host (Scenario.fresh "e")
           Cases.update_a_then_stale_b Scenario.two_documents []).
  - reflexivity.
  - reflexivity.
  - vm_compute. discriminate.
Defined.

(** ** The rules engine and the configured rules *)

Ltac closed_bool :=
  repeat match goal with
  | |- context [Js.endsWith ?a ?b] =>
      let v := eval vm_compute in (Js.endsWith a b) in
      change (Js.endsWith a b) with v
  | |- context [Js.includes ?a ?b] =>
      let v := eval vm_compute in (Js.includes a b) in
      change (Js.includes a b) with v
  | |- context [Js.slice_drop_end ?n ?a] =>
      let v := eval vm_compute in (Js.slice_drop_end n a) in
      change (Js.slice_drop_end n a) with v
  | |- context [Js.slice_inner ?a] =>
      let v := eval vm_compute in (Js.slice_inner a) in
      change (Js.slice_inner a) with v
  | |- context [Js.before_first ?a ?b] =>
      let v := eval vm_compute in (Js.before_first a b) in
      change (Js.before_first a b) with v
  | |- context [Js.startsWith ?a "{"] =>
      let v := eval vm_compute in (Js.startsWith a "{") in
      change (Js.startsWith a "{") with v
  | |- context [Js.split "/" (String ?c ?s)] =>
      let v := eval vm_compute in (Js.split "/" (String c s)) in
      change (Js.split "/" (String c s)) with v
  end.

Ltac segments :=
  repeat (cbn [Rules.match_segments length Nat.eqb negb andb]; closed_bool;
          cbn [andb];
          try match goal with
              | |- context [String.eqb ?a ?b] =>
                  destruct (String.eqb_spec a b); try reflexivity
              end).

Lemma match_storage (path : string) :
  Js.startsWith path "storage/users/{userId}" = false ->
  (length (Js.split "/" path) = 4%nat -> Js.last_part (Js.split "/" path) <> Some "**") ->
  Rules.matchPath "storage/users/{userId}/**" path = None.
Proof.
  intros Hstart Hlast. unfold Rules.matchPath.
  closed_bool. rewrite Hstart. cbn [andb].
  destruct (Js.split "/" path) as [|a [|b [|c [|d [|e l]]]]]; try reflexivity.
  specialize (Hlast eq_refl). segments. subst. now contradiction Hlast.
Qed.

Lemma match_nested (path : string) :
  Js.startsWith path "{collection}/{id}" = false ->
  (length (Js.split "/" path) = 3%nat -> Js.last_part (Js.split "/" path) <> Some "**") ->
  Rules.matchPath "{collection}/{id}/**" path = None.
Proof.
  intros Hstart Hlast. unfold Rules.matchPath.
  closed_bool. rewrite Hstart. cbn [andb].
  destruct (Js.split "/" path) as [|a [|b [|c [|d l]]]]; try reflexivity.
  specialize (Hlast eq_refl). segments. subst. now contradiction Hlast.
Qed.

Lemma starts_with_first_segment (path a b : string) (l : list string) :
  Js.split "/" path = a :: b :: l ->
  Js.startsWith path (a +:+ "/") = true.
Proof.
  intros Hsplit. rewrite <- (join_split "/" path) at 1. rewrite Hsplit.
  unfold Js.startsWith.
  change (Js.join "/" (a :: b :: l)) with (a +:+ "/" +:+ Js.join "/" (b :: l)).
  generalize (Js.join "/" (b :: l)). clear Hsplit. intros rest.
  induction a as [|x a IH]; simpl.
  - destruct (Ascii.ascii_dec "/" "/"); [|contradiction]. now destruct rest.
  - destruct (Ascii.ascii_dec x x); [|contradiction]. exact IH.
Qed.

Lemma match_documents (path : string) :
  Js.startsWith path "documents/" = false ->
  Rules.matchPath "documents/{path=**}" path = None.
Proof.
  intros Hstart. unfold Rules.matchPath.
  closed_bool. rewrite Hstart. cbn [andb].
  destruct (Js.split "/" path) as [|a [|b [|c l]]] eqn:Hsplit; try reflexivity.
  segments. subst a.
  apply starts_with_first_segment in Hsplit.
  change ("documents" +:+ "/") with "documents/" in Hsplit. congruence.
Qed.

Lemma match_sync (path : string) :
  Rules.matchPath "sync" path = if String.eqb path "sync" then Some [] else None.
Proof.
  unfold Rules.matchPath. closed_bool. cbn [andb].
  pose proof (join_split "/" path) as Hjoin.
  destruct (Js.split "/" path) as [|a [|b l]] eqn:Hsplit.
  - now destruct (split_not_nil "/" path).
  - simpl in Hjoin. subst a.
    cbn [Rules.match_segments length Nat.eqb negb]. closed_bool. cbn [andb].
    rewrite (String.eqb_sym "sync" path). now destruct (String.eqb path "sync").
  - cbn [length Nat.eqb negb].
    destruct (String.eqb_spec path "sync") as [->|]; [discriminate|reflexivity].
Qed.

Lemma match_collection (path : string) :
  Rules.matchPath "{collection}" path
  = match Js.split "/" path with
    | [a] => Some [("collection", a)]
    | _ => None
    end.
Proof.
  unfold Rules.matchPath. closed_bool. cbn [andb].
  destruct (Js.split "/" path) as [|a [|b l]]; reflexivity.
Qed.

Lemma match_document (path : string) :
  Rules.matchPath "{collection}/{id}" path
  = match Js.split "/" path with
    | [a; b] => Some [("collection", a); ("id", b)]
    | _ => None
    end.
Proof.
  unfold Rules.matchPath. closed_bool. cbn [andb].
  destruct (Js.split "/" path) as [|a [|b [|c l]]]; reflexivity.
Qed.

Lemma rules_deny_nested (h : host) (path : string) (op : Rules.operation)
    (auth : option Rules.auth_ctx) :
  (3 <= length (Js.split "/" path))%nat ->
  Js.startsWith path "storage/users/{userId}" = false ->
  Js.startsWith path "documents/" = false ->
  Js.startsWith path "{collection}/{id}" = false ->
  Js.last_part (Js.split "/" path) <> Some "**" ->
  Rules.evaluate h Rules.rulesConfig path op auth = false.
Proof.
  intros Hlen Hstorage Hdocuments Hnested Hlast.
  unfold Rules.rulesConfig. cbn [Rules.evaluate Rules.rule_path].
  rewrite match_sync.
  destruct (String.eqb_spec path "sync") as [->|_]; [simpl in Hlen; lia|].
  rewrite (match_storage path Hstorage) by auto.
  rewrite (match_documents path Hdocuments).
  rewrite match_collection, match_document.
  rewrite (match_nested path Hnested) by auto.
  destruct (Js.split "/" path) as [|a [|b [|c l]]]; simpl in Hlen;
    first [lia | reflexivity].
Qed.

(** X14. The configured rules deny every operation, to every caller, on
    a path of three segments or more (a document of a sub-collection,
    say), unless the path starts with one of the literal texts
    [storage/users/{userId}], [documents/] and [{collection}/{id}] or its
    last segment is [**]. *)
Theorem nested_paths_are_denied (h : host) (path : string)
    (op : Rules.operation) (auth : option Rules.auth_ctx) :
  (3 <= length (Js.split "/" path))%nat ->
  Js.startsWith path "storage/users/{userId}" = false ->
  Js.startsWith path "documents/" = false ->
  Js.startsWith path "{collection}/{id}" = false ->
  Js.last_part (Js.split "/" path) <> Some "**" ->
  Rules.evaluate h Rules.rulesConfig path op auth = false.
Proof. apply rules_deny_nested. Qed.

Lemma nested_paths_are_denied_witness :
  Rules.evaluate Scenario.quiet_host Rules.rulesConfig "users/u1/posts/p1"
    Rules.Write Scenario.alice = false.
Proof.
  apply (nested_paths_are_denied Scenario.quiet_host "users/u1/posts/p1"
           Rules.Write Scenario.alice).
  - simpl. lia.
  - reflexivity.
  - reflexivity.
  - reflexivity.
  - discriminate.
Defined.

(** X15. A batch with an operation on such a path (a document of a
    sub-collection, as [WriteBatch] and [Transaction] send it) is never
    answered 200, and changes nothing: the rules deny the operation. *)
Theorem batch_on_nested_path_is_rejected (h : host) (uuid : nat -> string)
    (req : Worker.request) (d : Store.db) (ops : list Worker.batch_op)
    (o : Worker.batch_op) :
  Worker.req_json req ≫= Worker.operations = Some ops ->
  o ∈ ops ->
  (3 <= length (Js.split "/" (Worker.op_path o)))%nat ->
  Js.startsWith (Worker.op_path o) "storage/users/{userId}" = false ->
  Js.startsWith (Worker.op_path o) "documents/" = false ->
  Js.startsWith (Worker.op_path o) "{collection}/{id}" = false ->
  Js.last_part (Js.split "/" (Worker.op_path o)) <> Some "**" ->
  let out := Worker.handle_batch h uuid req d in
  Worker.status (Worker.out_response out) <> 200
  /\ Worker.out_db out = d
  /\ Worker.out_published out = [].
Proof.
  intros Hops Ho Hlen Hs Hd Hn Hlast out. subst out.
  unfold Worker.handle_batch.
  destruct (Worker.req_json req) as [b|]; [|now auto].
  simpl in Hops. rewrite Hops.
  destruct (Worker.prepare_batch _ _ _ _ _ _ _ _ _) as [st msg|stmts pubs] eqn:Hprep.
  { apply prepare_batch_rejected in Hprep. simpl. repeat split. lia. }
  destruct (prepare_batch_prepared _ _ _ _ _ _ _ _ _ _ _ Hprep) as (Hacc & _).
  rewrite forallb_forall in Hacc.
  apply list_elem_of_In in Ho. specialize (Hacc o Ho).
  unfold Laws.accepted, Worker.allowed in Hacc.
  rewrite (rules_deny_nested h _ _ _ Hlen Hs Hd Hn Hlast) in Hacc.
  now rewrite andb_false_r in Hacc.
Qed.

Lemma batch_on_nested_path_is_rejected_witness :
  let out := Worker.handle_batch Scenario.quiet_host (Scenario.fresh "e")
               Cases.update_a_then_set_post Scenario.two_documents in
  Worker.status (Worker.out_response out) <> 200
  /\ Worker.out_db out = Scenario.two_documents
  /\ Worker.out_published out = [].
Proof.
  apply (batch_on_nested_path_is_rejected Scenario.quiet_host (Scenario.fresh "e")
           Cases.update_a_then_set_post Scenario.two_documents
           Cases.post_operations
           {| Worker.op_type := "SET"; Worker.op_path := Sdk.path Cases.post;
              Worker.op_data := Some (JObj [("t", JStr "hi")]);
              Worker.op_expectedVersion := None |}).
  - reflexivity.
  - right. right. left.
  - simpl. lia.
  - reflexivity.
  - reflexivity.
  - reflexivity.
  - discriminate.
Defined.

(** X16. On a path of one or two segments other than [sync] that does
    not start with [storage/users/{userId}] or [documents/], the
    configured rules allow a read to every caller, and a write or a
    delete exactly to the callers with a verified token. *)
Theorem flat_paths_read_open_write_authenticated (h : host) (path : string)
    (auth : option Rules.auth_ctx) :
  (length (Js.split "/" path) <= 2)%nat ->
  path <> "sync" ->
  Js.startsWith path "storage/users/{userId}" = false ->
  Js.startsWith path "documents/" = false ->
  Rules.evaluate h Rules.rulesConfig path Rules.Read auth = true
  /\ Rules.evaluate h Rules.rulesConfig path Rules.Write auth
     = bool_decide (is_Some auth)
  /\ Rules.evaluate h Rules.rulesConfig path Rules.Delete auth
     = bool_decide (is_Some auth).
Proof.
  intros Hlen Hsync Hstorage Hdocuments.
  unfold Rules.rulesConfig. cbn [Rules.evaluate Rules.rule_path].
  rewrite match_sync.
  destruct (String.eqb_spec path "sync") as [->|_]; [contradiction|].
  rewrite (match_storage path Hstorage) by lia.
  rewrite (match_documents path Hdocuments).
  rewrite match_collection, match_document.
  pose proof (split_not_nil "/" path).
  destruct (Js.split "/" path) as [|a [|b [|c l]]]; simpl in Hlen; try lia;
    try contradiction; repeat split; reflexivity.
Qed.

Lemma flat_paths_read_open_write_authenticated_witness :
  Rules.evaluate Scenario.quiet_host Rules.rulesConfig "items/a" Rules.Read None = true
  /\ Rules.evaluate Scenario.quiet_host Rules.rulesConfig "items/a" Rules.Write None
     = bool_decide (is_Some (@None Rules.auth_ctx))
  /\ Rules.evaluate Scenario.quiet_host Rules.rulesConfig "items/a" Rules.Delete None
     = bool_decide (is_Some (@None Rules.auth_ctx)).
Proof.
  apply (flat_paths_read_open_write_authenticated Scenario.quiet_host "items/a" None).
  - simpl. lia.
  - discriminate.
  - reflexivity.
  - reflexivity.
Defined.

Lemma length_append (a b : string) :
  String.length (a +:+ b) = (String.length a + String.length b)%nat.
Proof. induction a as [|x a IH]; [reflexivity|]. simpl. change (String.append a b) with (a +:+ b). now rewrite IH. Qed.

Lemma prefix_append (a b : string) : String.prefix a (a +:+ b) = true.
Proof.
  induction a as [|x a IH]; simpl; [now destruct b|].
  destruct (Ascii.ascii_dec x x); [exact IH|contradiction].
Qed.

Lemma substring_append_left (a b : string) :
  String.substring 0 (String.length a) (a +:+ b) = a.
Proof.
  induction a as [|x a IH]; simpl; [now destruct b|].
  exact (f_equal (String x) IH).
Qed.

Lemma substring_append_right (a b : string) :
  String.substring (String.length a) (String.length b) (a +:+ b) = b.
Proof.
  induction a as [|x a IH]; [|exact IH].
  change (String.substring 0 (String.length b) b = b).
  induction b as [|y b IHb]; [reflexivity|]. simpl. now rewrite IHb.
Qed.

(** X17. A pattern [base/**] matches every path that has [base] as a
    prefix of its text, whatever the segments: the path [base] itself,
    [base/x], and also [base-other/x]; it binds no parameter. *)
Theorem wildcard_matches_by_text_prefix (base rest : string) :
  Rules.matchPath (base +:+ "/**") (base +:+ rest) = Some [].
Proof.
  unfold Rules.matchPath.
  assert (Js.endsWith (base +:+ "/**") "/**" = true) as ->.
  { unfold Js.endsWith. cbv zeta. rewrite length_append.
    replace (String.length base + String.length "/**" - String.length "/**")%nat
      with (String.length base) by lia.
    rewrite substring_append_right, String.eqb_refl, andb_true_r.
    apply Nat.leb_le. lia. }
  assert (Js.slice_drop_end 3 (base +:+ "/**") = base) as ->.
  { unfold Js.slice_drop_end. rewrite length_append.
    replace (String.length base + String.length "/**" - 3)%nat
      with (String.length base) by (simpl; lia).
    apply substring_append_left. }
  unfold Js.startsWith. now rewrite prefix_append.
Qed.

(** ** The client: references and paths *)

Lemma split_append (a b : string) :
  Js.split "/" (a +:+ "/" +:+ b) = Js.split "/" a ++ Js.split "/" b.
Proof.
  induction a as [|x a IH].
  - reflexivity.
  - change (String x a +:+ "/" +:+ b) with (String x (a +:+ "/" +:+ b)).
    cbn [Js.split]. rewrite IH.
    destruct (Ascii.eqb x "/"); [reflexivity|].
    pose proof (split_not_nil "/" a) as Hnil.
    destruct (Js.split "/" a) as [|seg segs]; [contradiction|]. reflexivity.
Qed.

(** X18. A reference built from a collection path of an odd number of
    segments and an id that is one segment is the one [client.doc] parses
    from its path. *)
Theorem doc_of_reference_path (collectionPath id : string) :
  (length (Js.split "/" collectionPath) mod 2 = 1)%nat ->
  Js.split "/" id = [id] ->
  Sdk.doc (Sdk.path (Client.collection_doc collectionPath id))
  = Some (Client.collection_doc collectionPath id).
Proof.
  intros Hodd Hid. unfold Sdk.doc, Sdk.path, Client.collection_doc.
  cbn [Sdk.collectionPath Sdk.id].
  rewrite split_append, Hid.
  assert ((length (Js.split "/" collectionPath ++ [id]) mod 2 =? 0)%nat = true) as ->.
  { rewrite length_app. cbn [length]. apply Nat.eqb_eq.
    pose proof (Nat.div_mod_eq (length (Js.split "/" collectionPath)) 2) as Hdiv.
    rewrite Hodd in Hdiv.
    replace (length (Js.split "/" collectionPath) + 1)%nat
      with ((length (Js.split "/" collectionPath) / 2 + 1) * 2)%nat by lia.
    apply Nat.Div0.mod_mul. }
  cbn [negb]. unfold Js.slice_init, Js.last_part.
  rewrite removelast_last, last_snoc. cbn [default].
  now rewrite (join_split "/" collectionPath).
Qed.

Lemma doc_of_reference_path_witness :
  Sdk.doc (Sdk.path (Client.collection_doc "users/u1/posts" "p1"))
  = Some (Client.collection_doc "users/u1/posts" "p1").
Proof.
  apply (doc_of_reference_path "users/u1/posts" "p1"); reflexivity.
Defined.








(** An id that holds a slash is not one segment: the worker takes its
    first segment for the id, and the PUT of [set] on
    [collection('internal').doc('x/y')] creates the row [x] at
    [internal/x]. *)
Lemma slashed_id_names_another_row :
  let r := Client.collection_doc "internal" "x/y" in
  let o := Worker.fetch Scenario.quiet_host (Scenario.fresh "e")
             (Client.set_request Scenario.quiet_host "https://db.example"
                Scenario.alice "alice" "default" r (JObj [("n", JNum 1)]))
             Store.empty in
  Sdk.path r = "internal/x/y"
  /\ Worker.out_response o
     = {| Worker.status := 201;
          Worker.resp_body := Worker.JsonCreated "x" "internal/x" 1 |}
  /\ Store.doc_path <$> Store.documents (Worker.out_db o) !! "x"
     = Some "internal/x".
Proof. vm_compute. repeat split; reflexivity. Qed.

(** ** The client: the local matcher *)

Lemma string_compare_refl (x : string) : String.compare x x = Eq.
Proof.
  pose proof (String.compare_antisym x x) as H.
  destruct (String.compare x x); simpl in H; congruence.
Qed.

Lemma string_eqb_compare (x y : string) :
  String.eqb x y = match String.compare x y with Eq => true | _ => false end.
Proof.
  destruct (String.eqb_spec x y) as [->|Hne].
  - now rewrite string_compare_refl.
  - destruct (String.compare x y) eqn:Hc; try reflexivity.
    now apply String.compare_eq_iff in Hc.
Qed.

(** X20. Where the local matcher and the query route agree: for a filter
    on a field the document has, whose name passes the worker's check
    and has no dot, when the document's value and the filter's value are
    both integers (with [==], [!=], [<], [<=], [>] or [>=]) or both
    strings (with [==] or [!=]), the WHERE clause of the query route
    keeps a live row of the workspace exactly when the local matcher
    accepts its data. *)
Theorem comparisons_agree_on_same_kind (h : host) (ws : string) (f : filter)
    (r : Store.doc_row) (ms : list (string * json)) (v : json) :
  Worker.field_ok (field f) = true ->
  Js.split "." (field f) = [field f] ->
  Store.doc_data r = JObj ms ->
  Json.get (field f) ms = Some v ->
  Laws.comparable (op f) v (value f) = true ->
  Store.doc_workspace_id r = ws ->
  Store.doc_deleted r = false ->
  Worker.query_returns h ws [f] r = Sdk.matches h [f] (Store.doc_data r).
Proof.
  intros Hok Hsplit Hdata Hget Hkind Hws Hdel.
  unfold Worker.query_returns. rewrite Hdata, Hws, Hdel, String.eqb_refl.
  cbn [Worker.compile_filters]. unfold Worker.compile_filter. rewrite Hok.
  cbn [negb Sdk.matches Sdk.property Sdk.own_property]. rewrite Hget.
  assert (Sql.json_extract h (field f) (JObj ms) = Some (Sql.of_json h v)) as Hex.
  { unfold Sql.json_extract, Sql.element_at, Sql.path_labels. rewrite Hsplit.
    cbn [existsb].
    assert (String.eqb "" (field f) = false) as ->.
    { unfold Worker.field_ok in Hok. apply andb_prop in Hok as [Hne _].
      apply negb_true_iff in Hne. now rewrite String.eqb_sym. }
    simpl. rewrite Hget. reflexivity. }
  unfold Laws.comparable in Hkind.
  unfold Sdk.filter_passes, Sdk.js_gt, Sdk.js_lt, Sdk.js_ge, Sdk.js_le,
    Sdk.less_than.
  destruct v as [| | x | x | |], (value f) as [| | y | y | |]; try discriminate;
    destruct (op f); try discriminate; simpl; rewrite Hex; simpl;
    unfold Sql.eval_cmp; simpl.
  all: try rewrite string_eqb_compare.
  all: try rewrite Z.eqb_compare.
  all: unfold Z.ltb.
  all: try rewrite (Z.compare_antisym x y).
  all: try (destruct (x ?= y); reflexivity).
  all: try (destruct (y ?= x); reflexivity).
  all: destruct (String.compare x y); reflexivity.
Qed.

Lemma comparisons_agree_on_same_kind_witness :
  Worker.query_returns Scenario.quiet_host "default"
    [ {| field := "price"; op := OpGt; value := JNum 50 |} ] Cases.phone
  = Sdk.matches Scenario.quiet_host
      [ {| field := "price"; op := OpGt; value := JNum 50 |} ]
      (Store.doc_data Cases.phone).
Proof.
  apply (comparisons_agree_on_same_kind Scenario.quiet_host "default"
           {| field := "price"; op := OpGt; value := JNum 50 |} Cases.phone
           [("name", JStr "phone"); ("price", JNum 100)] (JNum 100)).
  - reflexivity.
  - reflexivity.
  - reflexivity.
  - reflexivity.
  - reflexivity.
  - reflexivity.
  - reflexivity.
Defined.




(** A field that names a member of the prototype chain is not missing:
    the member is compared by its primitive, a function by its source
    text. *)
Lemma inherited_member_is_compared (h : host) (doc : json) (name t v : string) :
  doc <> JNull ->
  Sdk.own_property doc name = None ->
  inherited h doc name = Some (PStr t) ->
  Sdk.matches h [ {| field := name; op := OpGt; value := JStr v |} ] doc
  = Some (String.ltb v t).
Proof.
  intros Hdoc Hown Hin. cbn [Sdk.matches field]. unfold Sdk.property.
  rewrite Hown, Hin.
  destruct doc; try contradiction; simpl;
    unfold Sdk.filter_passes, Sdk.js_gt, Sdk.less_than; simpl;
    now destruct (String.ltb v t).
Qed.

(** ** The client: cache and queue *)

(** X22. A document read from the server is served from the cache when
    the next read fails: the same data at the same version, marked as
    coming from the cache. *)
Theorem server_read_is_cached (c : Sdk.client) (r : Sdk.DocumentReference)
    (st : Sdk.local_store) (status : Z) (reply : Sdk.server_reply) :
  Sdk.persistence c = Some st ->
  Sdk.ok status = true ->
  Sdk.reply_version reply <> 0 ->
  let c' := fst (Sdk.asyncGetSnapshot c r (Sdk.Response status (Some reply))) in
  snd (Sdk.asyncGetSnapshot c' r Sdk.NetworkFailure)
  = Some {| Sdk.snap_id := Sdk.id r; Sdk.snap_path := Sdk.path r;
            Sdk.snap_data := Sdk.reply_data reply;
            Sdk.snap_version := Sdk.reply_version reply;
            Sdk.snap_metadata :=
              {| Sdk.fromCache := true; Sdk.hasPendingWrites := true |} |}.
Proof.
  intros Hst Hok Hver. unfold Sdk.asyncGetSnapshot.
  assert ((status =? 404) = false) as ->.
  { unfold Sdk.ok in Hok. lia. }
  rewrite Hok. cbn [negb].
  destruct (Z.eqb_spec (Sdk.reply_version reply) 0) as [|_]; [contradiction|].
  simpl. unfold Sdk.cache_fallback. simpl. rewrite Hst. simpl.
  rewrite lookup_insert_eq. reflexivity.
Qed.

Lemma server_read_is_cached_witness :
  let c' := fst (Sdk.asyncGetSnapshot Scenario.fresh_client Scenario.ref_a
                   (Sdk.Response 200
                      (Some {| Sdk.reply_data := JObj [("n", JNum 5)];
                               Sdk.reply_version := 7 |}))) in
  snd (Sdk.asyncGetSnapshot c' Scenario.ref_a Sdk.NetworkFailure)
  = Some {| Sdk.snap_id := Sdk.id Scenario.ref_a;
            Sdk.snap_path := Sdk.path Scenario.ref_a;
            Sdk.snap_data := JObj [("n", JNum 5)];
            Sdk.snap_version := 7;
            Sdk.snap_metadata :=
              {| Sdk.fromCache := true; Sdk.hasPendingWrites := true |} |}.
Proof.
  apply (server_read_is_cached Scenario.fresh_client Scenario.ref_a
           {| Sdk.documents := ∅; Sdk.queue := [] |} 200
           {| Sdk.reply_data := JObj [("n", JNum 5)]; Sdk.reply_version := 7 |}).
  - reflexivity.
  - reflexivity.
  - discriminate.
Defined.

(** X23. A [set] whose request fails, with persistence on, resolves with
    version [-1], adds one SET entry at the end of the queue, and the
    data it wrote is what a read that fails next returns, at version
    [-1]; with persistence off it throws and changes nothing. *)
Theorem offline_set_is_queued_and_readable (c : Sdk.client)
    (r : Sdk.DocumentReference) (data : json) :
  let c' := fst (Sdk.set c r data Sdk.NetworkFailure) in
  match Sdk.persistence c with
  | Some st =>
      snd (Sdk.set c r data Sdk.NetworkFailure) = Some (-1)
      /\ Sdk.queue <$> Sdk.persistence c'
         = Some (Sdk.queue st
                   ++ [Client.queued "SET" r (Some data) (Sdk.parentPath r)])
      /\ snd (Sdk.asyncGetSnapshot c' r Sdk.NetworkFailure)
         = Some {| Sdk.snap_id := Sdk.id r; Sdk.snap_path := Sdk.path r;
                   Sdk.snap_data := data; Sdk.snap_version := -1;
                   Sdk.snap_metadata :=
                     {| Sdk.fromCache := true; Sdk.hasPendingWrites := true |} |}
  | None => Sdk.set c r data Sdk.NetworkFailure = (c, None)
  end.
Proof.
  unfold Sdk.set, Sdk.put_document.
  destruct c as [v [st|]]; simpl; [|reflexivity].
  repeat split. unfold Sdk.cache_fallback. simpl.
  rewrite lookup_insert_eq. reflexivity.
Qed.

(** X24. An [update] whose request fails, on a document that is cached,
    stores the patch spread over the cached data and keeps the cached
    version (the [-1] of a local write is not set), resolves with [-1]
    and adds one UPDATE entry at the end of the queue. *)
Theorem offline_update_keeps_cached_version (c : Sdk.client)
    (r : Sdk.DocumentReference) (data : json) (read : Sdk.http_result)
    (st : Sdk.local_store) (cached : Sdk.cached_doc) :
  Sdk.persistence c = Some st ->
  Sdk.documents st !! Sdk.path r = Some cached ->
  let c' := fst (Client.update c r data Sdk.NetworkFailure read) in
  snd (Client.update c r data Sdk.NetworkFailure read) = Some (-1)
  /\ (Sdk.persistence c' ≫= fun st' => Sdk.documents st' !! Sdk.path r)
     = Some {| Sdk.cached_data := Client.merged (Sdk.cached_data cached) data;
               Sdk.cached_version := Sdk.cached_version cached |}
  /\ Sdk.queue <$> Sdk.persistence c'
     = Some (Sdk.queue st
               ++ [Client.queued "UPDATE" r (Some data) (Sdk.parentPath r)]).
Proof.
  intros Hst Hcached.
  unfold Client.update, Client.optimistic_update, Client.queue_or_throw,
    Sdk.put_document.
  rewrite Hst, Hcached. simpl.
  rewrite lookup_insert_eq. auto.
Qed.

Lemma offline_update_keeps_cached_version_witness :
  let c' := fst (Client.update Scenario.synced_client Scenario.ref_a
                   (JObj [("m", JNum 1)]) Sdk.NetworkFailure Sdk.NetworkFailure) in
  snd (Client.update Scenario.synced_client Scenario.ref_a
         (JObj [("m", JNum 1)]) Sdk.NetworkFailure Sdk.NetworkFailure)
  = Some (-1)
  /\ (Sdk.persistence c' ≫= fun st' => Sdk.documents st' !! Sdk.path Scenario.ref_a)
     = Some {| Sdk.cached_data :=
                 Client.merged (JObj [("n", JNum 5)]) (JObj [("m", JNum 1)]);
               Sdk.cached_version := 7 |}
  /\ Sdk.queue <$> Sdk.persistence c'
     = Some (Sdk.queue Cases.synced_store
               ++ [Client.queued "UPDATE" Scenario.ref_a (Some (JObj [("m", JNum 1)]))
                     (Sdk.parentPath Scenario.ref_a)]).
Proof.
  apply (offline_update_keeps_cached_version Scenario.synced_client Scenario.ref_a
           (JObj [("m", JNum 1)]) Sdk.NetworkFailure Cases.synced_store
           {| Sdk.cached_data := JObj [("n", JNum 5)]; Sdk.cached_version := 7 |}).
  - vm_compute. reflexivity.
  - vm_compute. reflexivity.
Defined.

Lemma set_absent (k : string) (v : json) (ms : list (string * json)) :
  Json.get k ms = None -> Json.set k v ms = ms ++ [(k, v)].
Proof.
  induction ms as [|[k' v'] ms IH]; simpl; [reflexivity|].
  destruct (String.eqb k k'); [discriminate|].
  intros H. now rewrite IH.
Qed.

Lemma get_app_absent (k : string) (ms ms' : list (string * json)) :
  Json.get k ms = None -> Json.get k (ms ++ ms') = Json.get k ms'.
Proof.
  induction ms as [|[k' v'] ms IH]; simpl; [reflexivity|].
  destruct (String.eqb k k'); [discriminate|]. exact IH.
Qed.

Lemma assign_distinct (acc ms : list (string * json)) :
  NoDup ms.*1 ->
  (forall k, k ∈ ms.*1 -> Json.get k acc = None) ->
  Client.assign acc ms = acc ++ ms.
Proof.
  unfold Client.assign. revert acc.
  induction ms as [|[k v] ms IH]; intros acc Hnodup Hfresh; simpl.
  - now rewrite app_nil_r.
  - simpl in Hnodup. apply NoDup_cons in Hnodup as [Hk Hnodup].
    rewrite set_absent by (apply Hfresh; simpl; left).
    rewrite IH; [now rewrite <- app_assoc|exact Hnodup|].
    intros k' Hk'. rewrite get_app_absent by (apply Hfresh; simpl; now right).
    simpl. destruct (String.eqb_spec k' k) as [->|]; [contradiction|reflexivity].
Qed.

Lemma assign_is_patch (pms tms : list (string * json)) :
  forallb (fun m => Laws.flat (snd m)) pms = true ->
  JObj (Client.assign tms pms) = Json.json_patch (JObj tms) (JObj pms).
Proof.
  intros Hflat. cbn [Json.json_patch Json.members_of]. f_equal.
  unfold Client.assign. revert tms.
  induction pms as [|[k v] pms IH]; intros tms; [reflexivity|].
  cbn [forallb] in Hflat. apply andb_prop in Hflat as [Hv Hflat]. simpl in Hv.
  simpl. destruct v; try discriminate; apply (IH Hflat).
Qed.

(** X25. When the cached data is an object, or a value of which a spread
    copies nothing ([null], a boolean, a number, an empty string or
    array), and the patch is an object whose members are neither [null]
    nor objects, the data [update] writes to the cache, the patch spread
    over the cached data, is what the worker's PATCH stores
    ([json_patch]). *)
Theorem optimistic_update_agrees_on_flat_patches (cached : json)
    (pms : list (string * json)) :
  Laws.spreads_as_object cached = true ->
  forallb (fun m => Laws.flat (snd m)) pms = true ->
  Client.merged cached (JObj pms) = Json.json_patch cached (JObj pms).
Proof.
  intros Hcached Hflat. unfold Client.merged.
  destruct cached as [| b | n | t | items | tms];
    cbn [Laws.spreads_as_object] in Hcached.
  6: { apply bool_decide_eq_true in Hcached. cbn [Client.spread].
       rewrite (assign_distinct [] tms Hcached) by reflexivity.
       now apply assign_is_patch. }
  all: destruct (Client.spread _); [|discriminate].
  all: exact (assign_is_patch pms [] Hflat).
Qed.

Lemma optimistic_update_agrees_on_flat_patches_witness :
  Client.merged (JObj [("x", JNum 1); ("y", JNum 2)]) (JObj [("y", JNum 3)])
  = Json.json_patch (JObj [("x", JNum 1); ("y", JNum 2)]) (JObj [("y", JNum 3)]).
Proof.
  apply (optimistic_update_agrees_on_flat_patches
           (JObj [("x", JNum 1); ("y", JNum 2)]) [("y", JNum 3)]).
  - vm_compute. reflexivity.
  - reflexivity.
Defined.

(** Over an array that is not empty the two differ: the spread copies
    the elements under their indices, the merge patch drops them. *)
Lemma spread_of_array_is_no_patch :
  Client.merged (JArr [JNum 1; JNum 2]) (JObj [("a", JNum 1)])
  = JObj [("0", JNum 1); ("1", JNum 2); ("a", JNum 1)]
  /\ Json.json_patch (JArr [JNum 1; JNum 2]) (JObj [("a", JNum 1)])
     = JObj [("a", JNum 1)].
Proof. split; reflexivity. Qed.

Lemma queue_grows_refl (c : Sdk.client) : Laws.queue_grows c c.
Proof.
  unfold Laws.queue_grows. destruct (Sdk.persistence c); [|exact I].
  exists []. now rewrite app_nil_r.
Qed.

Lemma queue_grows_trans (c1 c2 c3 : Sdk.client) :
  Laws.queue_grows c1 c2 -> Laws.queue_grows c2 c3 -> Laws.queue_grows c1 c3.
Proof.
  unfold Laws.queue_grows.
  destruct (Sdk.persistence c1), (Sdk.persistence c2), (Sdk.persistence c3);
    try tauto.
  intros [a1 H1] [a2 H2]. exists (a1 ++ a2). now rewrite H2, H1, app_assoc.
Qed.

Lemma queue_grows_put (p : string) (data : json) (v : Z) (c : Sdk.client) :
  Laws.queue_grows c (Sdk.put_document p data v c).
Proof.
  unfold Laws.queue_grows, Sdk.put_document. destruct (Sdk.persistence c); simpl; [|exact I].
  exists []. now rewrite app_nil_r.
Qed.

Lemma queue_grows_version (v : Z) (c : Sdk.client) :
  Laws.queue_grows c (Sdk.updateLastVersion v c).
Proof.
  unfold Laws.queue_grows, Sdk.updateLastVersion. destruct (Sdk.persistence c); simpl; [|exact I].
  exists []. now rewrite app_nil_r.
Qed.

Lemma queue_grows_queue_or_throw {A : Type} (w : Sdk.queued_write) (a : A)
    (c : Sdk.client) :
  Laws.queue_grows c (fst (Client.queue_or_throw w a c)).
Proof.
  unfold Laws.queue_grows, Client.queue_or_throw.
  destruct (Sdk.persistence c) eqn:Hc; simpl; [|now rewrite Hc].
  eexists. reflexivity.
Qed.

Lemma queue_grows_get (c : Sdk.client) (r : Sdk.DocumentReference)
    (net : Sdk.http_result) :
  Laws.queue_grows c (fst (Sdk.asyncGetSnapshot c r net)).
Proof.
  unfold Sdk.asyncGetSnapshot.
  repeat case_match; simpl; try apply queue_grows_refl.
  eapply queue_grows_trans; [apply queue_grows_version|apply queue_grows_put].
Qed.

Lemma queue_grows_set (c : Sdk.client) (r : Sdk.DocumentReference)
    (data : json) (net : Sdk.http_result) :
  Laws.queue_grows c (fst (Sdk.set c r data net)).
Proof.
  assert (Laws.queue_grows c
            (fst (Client.queue_or_throw
                    (Client.queued "SET" r (Some data) (Sdk.parentPath r)) (-1)
                    (Sdk.put_document (Sdk.path r) data (-1) c)))) as Hoffline.
  { eapply queue_grows_trans; [apply queue_grows_put|apply queue_grows_queue_or_throw]. }
  unfold Sdk.set. unfold Client.queue_or_throw, Client.queued in Hoffline.
  repeat case_match; simpl; simplify_eq; try exact Hoffline;
    try apply queue_grows_put.
  all: eapply queue_grows_trans; [apply queue_grows_put|];
    eapply queue_grows_trans; [apply queue_grows_version|apply queue_grows_put].
Qed.

Lemma queue_grows_update (c : Sdk.client) (r : Sdk.DocumentReference)
    (data : json) (net read : Sdk.http_result) :
  Laws.queue_grows c (fst (Client.update c r data net read)).
Proof.
  assert (Laws.queue_grows c (Client.optimistic_update c r data)) as H0.
  { unfold Client.optimistic_update.
    repeat case_match; try apply queue_grows_put; apply queue_grows_refl. }
  unfold Client.update.
  repeat match goal with
  | |- context [fst (match ?x with _ => _ end)] => destruct x eqn:?
  | |- context [fst (if ?x then _ else _)] => destruct x eqn:?
  end; simpl.
  all: try (eapply queue_grows_trans; [exact H0|]).
  all: try apply queue_grows_queue_or_throw.
  all: try apply queue_grows_refl.
  all: try apply queue_grows_version.
  all: eapply queue_grows_trans; [apply queue_grows_version|].
  all: match goal with
       | H : Sdk.asyncGetSnapshot ?c1 ?r0 ?n0 = (?c2, _) |- _ =>
           pose proof (queue_grows_get c1 r0 n0) as Hget; rewrite H in Hget;
           simpl in Hget
       end.
  all: eapply queue_grows_trans; [exact Hget|].
  all: first [apply queue_grows_put | apply queue_grows_queue_or_throw].
Qed.

Lemma queue_grows_delete (c : Sdk.client) (r : Sdk.DocumentReference)
    (net : Sdk.http_result) :
  Laws.queue_grows c (fst (Client.delete c r net)).
Proof.
  unfold Client.delete.
  set (c0 := {| Sdk.lastVersion := _; Sdk.persistence := _ |}).
  assert (Laws.queue_grows c c0) as H0.
  { unfold Laws.queue_grows. subst c0. destruct (Sdk.persistence c); simpl; [|exact I].
    exists []. now rewrite app_nil_r. }
  repeat case_match; simpl; try exact H0.
  all: eapply queue_grows_trans; [exact H0|apply queue_grows_queue_or_throw].
Qed.

Lemma queue_grows_replay (items : list Sdk.queued_write)
    (outcomes : nat -> Client.replay_outcomes) :
  forall c i, Laws.queue_grows c (Client.replay_queue c items outcomes i).
Proof.
  induction items as [|item items IH]; intros c i; simpl.
  - apply queue_grows_refl.
  - destruct (Sdk.doc (Sdk.queued_path item)) as [docRef|]; [|apply queue_grows_refl].
    set (written := if String.eqb (Sdk.queued_type item) "SET" then _ else _).
    assert (Laws.queue_grows c (fst written)) as Hw.
    { subst written. repeat case_match; simpl.
      - apply queue_grows_set.
      - apply queue_grows_update.
      - apply queue_grows_delete.
      - apply queue_grows_refl. }
    destruct (negb (snd written)); [exact Hw|].
    destruct (String.eqb (Sdk.queued_type item) "DELETE").
    { eapply queue_grows_trans; [exact Hw|apply IH]. }
    pose proof (queue_grows_get (fst written) docRef
                  (Client.readback_outcome (outcomes i))) as Hget.
    destruct (Sdk.asyncGetSnapshot _ _ _) as [c2 [snap|]]; simpl in Hget.
    + eapply queue_grows_trans; [exact Hw|].
      eapply queue_grows_trans; [exact Hget|].
      eapply queue_grows_trans; [apply queue_grows_put|apply IH].
    + eapply queue_grows_trans; [exact Hw|exact Hget].
Qed.

(** X26. [processQueue] never takes an entry out of the queue: whatever
    the outcomes of the requests it makes, the queue afterwards is the
    queue before with entries added at its end. *)
Theorem processQueue_keeps_every_entry (c : Sdk.client)
    (outcomes : nat -> Client.replay_outcomes) :
  Laws.queue_grows c (Client.processQueue c outcomes).
Proof.
  unfold Client.processQueue.
  destruct (Sdk.persistence c) eqn:Hc; [apply queue_grows_replay|].
  apply queue_grows_refl.
Qed.

(** ** The client: transactions *)

Lemma retry_loop_returns {T : Type} (turns : nat -> Client.attempt T)
    (budget retries : nat) (v : T) :
  Client.retry_loop turns budget retries = Client.Returned v
  <-> exists k, (k < budget)%nat
        /\ turns (retries + k)%nat = Client.Resolves v
        /\ forall j, (j < k)%nat ->
             exists e, turns (retries + j)%nat = Client.Throws e
                       /\ Client.is_conflict e = true.
Proof.
  revert retries. induction budget as [|budget IH]; intros retries; simpl.
  - split; [discriminate|]. intros (k & Hk & _). lia.
  - destruct (turns retries) as [result|e] eqn:Hturn.
    + split.
      * intros [= ->]. exists 0%nat. rewrite Nat.add_0_r.
        split; [lia|]. split; [exact Hturn|]. intros j Hj. lia.
      * intros (k & Hk & Hres & Hconf). destruct k as [|k].
        -- rewrite Nat.add_0_r in Hres. congruence.
        -- destruct (Hconf 0%nat ltac:(lia)) as (e & He & _).
           rewrite Nat.add_0_r in He. congruence.
    + destruct (Client.is_conflict e) eqn:Hc.
      * rewrite IH. split.
        -- intros (k & Hk & Hres & Hconf). exists (S k).
           split; [lia|]. split; [now rewrite Nat.add_succ_r|].
           intros [|j] Hj.
           ++ exists e. now rewrite Nat.add_0_r.
           ++ rewrite Nat.add_succ_r. apply Hconf. lia.
        -- intros (k & Hk & Hres & Hconf). destruct k as [|k].
           ++ rewrite Nat.add_0_r in Hres. congruence.
           ++ exists k. split; [lia|]. split; [now rewrite Nat.add_succ_r in Hres|].
              intros j Hj. specialize (Hconf (S j) ltac:(lia)).
              now rewrite Nat.add_succ_r in Hconf.
      * split; [discriminate|].
        intros (k & Hk & Hres & Hconf). destruct k as [|k].
        -- rewrite Nat.add_0_r in Hres. congruence.
        -- destruct (Hconf 0%nat ltac:(lia)) as (e' & He' & Hc').
           rewrite Nat.add_0_r in He'. congruence.
Qed.

Lemma retry_loop_exhausted {T : Type} (turns : nat -> Client.attempt T)
    (budget retries : nat) :
  Client.retry_loop turns budget retries = Client.RetriesExhausted
  <-> forall j, (j < budget)%nat ->
        exists e, turns (retries + j)%nat = Client.Throws e
                  /\ Client.is_conflict e = true.
Proof.
  revert retries. induction budget as [|budget IH]; intros retries; simpl.
  - split; [intros _ j Hj; lia|reflexivity].
  - destruct (turns retries) as [result|e] eqn:Hturn.
    + split; [discriminate|]. intros H.
      destruct (H 0%nat ltac:(lia)) as (e & He & _).
      rewrite Nat.add_0_r in He. congruence.
    + destruct (Client.is_conflict e) eqn:Hc.
      * rewrite IH. split.
        -- intros H [|j] Hj.
           ++ exists e. now rewrite Nat.add_0_r.
           ++ rewrite Nat.add_succ_r. apply H. lia.
        -- intros H j Hj. specialize (H (S j) ltac:(lia)).
           now rewrite Nat.add_succ_r in H.
      * split; [discriminate|]. intros H.
        destruct (H 0%nat ltac:(lia)) as (e' & He' & Hc').
        rewrite Nat.add_0_r in He'. congruence.
Qed.

(** X27. [runTransaction] returns the result of the first turn that
    resolves, provided every turn before it threw a conflict and there
    were fewer than [maxRetries] of them; it gives up exactly when each
    of the first [maxRetries] turns throws a conflict, and takes no turn
    beyond those. *)
Theorem runTransaction_retries_conflicts {T : Type}
    (turns : nat -> Client.attempt T) (maxRetries : nat) :
  (forall v,
     Client.runTransaction turns maxRetries = Client.Returned v
     <-> exists k, (k < maxRetries)%nat
           /\ turns k = Client.Resolves v
           /\ forall j, (j < k)%nat ->
                exists e, turns j = Client.Throws e
                          /\ Client.is_conflict e = true)
  /\ (Client.runTransaction turns maxRetries = Client.RetriesExhausted
      <-> forall j, (j < maxRetries)%nat ->
            exists e, turns j = Client.Throws e /\ Client.is_conflict e = true)
  /\ (forall turns',
        (forall j, (j < maxRetries)%nat -> turns' j = turns j) ->
        Client.runTransaction turns' maxRetries
        = Client.runTransaction turns maxRetries).
Proof.
  unfold Client.runTransaction. split; [|split].
  - intros v. apply (retry_loop_returns turns maxRetries 0 v).
  - apply (retry_loop_exhausted turns maxRetries 0).
  - intros turns' Hsame.
    assert (forall budget retries,
              (retries + budget <= maxRetries)%nat ->
              Client.retry_loop turns' budget retries
              = Client.retry_loop turns budget retries) as Hloop.
    { induction budget as [|budget IH]; intros retries Hle; simpl; [reflexivity|].
      rewrite Hsame by lia. destruct (turns retries); [reflexivity|].
      destruct (Client.is_conflict e); [|reflexivity]. apply IH. lia. }
    apply Hloop. lia.
Qed.

(** X28. A transaction that reads a document that does not exist and then
    writes it with the snapshot it read cannot commit: the snapshot of a
    404 has version 0, the operation carries [expectedVersion = 0], and
    the batch route answers an expected version on an id without a row
    with 409; [commit] throws that as a conflict, which [runTransaction]
    retries. *)
Theorem transaction_cannot_create (h : host) (uuid : nat -> string)
    (d : Store.db) (c : Sdk.client) (r : Sdk.DocumentReference) (data : json)
    (user ws text : string) (body : Client.error + Z) :
  Store.documents d !! Sdk.id r = None ->
  Js.split "/" (Sdk.id r) = [Sdk.id r] ->
  let snapshot := snd (Sdk.asyncGetSnapshot c r (Sdk.Response 404 None)) in
  let ops := Client.Transaction.set [] r data snapshot in
  let out := Worker.fetch h uuid (Client.batch_request user ws ops) d in
  Worker.status (Worker.out_response out) = 409
  /\ Worker.out_db out = d
  /\ exists e,
       snd (Client.Transaction.commit c ops
              (Client.Answer (Worker.status (Worker.out_response out)) text body))
       = Some e
       /\ Client.is_conflict e = true.
Proof.
  intros Hdoc Hid. simpl.
  unfold Worker.fetch. simpl.
  unfold Worker.handle_batch. simpl.
  unfold Store.select_document, Sdk.path.
  rewrite split_append, Hid. unfold Js.last_part. rewrite last_snoc. simpl.
  rewrite Hdoc. simpl. repeat split.
  eexists. split; reflexivity.
Qed.

Lemma transaction_cannot_create_witness :
  let snapshot :=
    snd (Sdk.asyncGetSnapshot Scenario.fresh_client
           (Client.collection_doc "items" "c") (Sdk.Response 404 None)) in
  let ops :=
    Client.Transaction.set [] (Client.collection_doc "items" "c")
      (JObj [("n", JNum 1)]) snapshot in
  let out := Worker.fetch Scenario.quiet_host (Scenario.fresh "e")
               (Client.batch_request "alice" "default" ops)
               Scenario.two_documents in
  Worker.status (Worker.out_response out) = 409
  /\ Worker.out_db out = Scenario.two_documents
  /\ exists e,
       snd (Client.Transaction.commit Scenario.fresh_client ops
              (Client.Answer (Worker.status (Worker.out_response out))
                 "Version Conflict for items/c" (inr 0)))
       = Some e
       /\ Client.is_conflict e = true.
Proof.
  apply (transaction_cannot_create Scenario.quiet_host (Scenario.fresh "e")
           Scenario.two_documents Scenario.fresh_client
           (Client.collection_doc "items" "c") (JObj [("n", JNum 1)])
           "alice" "default" "Version Conflict for items/c" (inr 0)).
  - vm_compute. reflexivity.
  - reflexivity.
Defined.

(** ** The client: live queries *)

Lemma without_unlisted (i : option string) (docs : list Client.Query.entry) :
  Forall (fun d => Client.Query.has_id i d = false) docs ->
  Client.Query.without i docs = docs.
Proof.
  unfold Client.Query.without. induction 1 as [|d docs Hd _ IH]; simpl; [reflexivity|].
  now rewrite Hd, IH.
Qed.

(** X29. The handler of a live query never adds a document on an UPDATED
    publication: when the document of the publication is not in the list
    (it did not pass the filters before, say), the list stays as it is,
    whether or not the document passes them now.  (Queries with a limit
    or an order refetch instead.) *)
Theorem update_of_unlisted_document_is_ignored (h : host)
    (q : Client.Query.t) (event : Worker.pub_data)
    (refetched : option (list Client.Query.entry)) (c : Sdk.client)
    (docs : list Client.Query.entry) :
  Worker.pub_kind event = Worker.UPDATED ->
  Client.Query.windowed q = false ->
  Forall (fun d => Client.Query.has_id (Client.Query.docId event) d = false) docs ->
  snd (Client.Query.on_publication h q event refetched c docs) = docs.
Proof.
  intros Hkind Hwin Hdocs. unfold Client.Query.on_publication.
  rewrite Hkind, Hwin.
  destruct (Sdk.matches _ _ _) as [[|]|]; simpl; [|now apply without_unlisted|reflexivity].
  induction Hdocs as [|d docs Hd _ IH]; simpl; [reflexivity|].
  rewrite Hd. f_equal. exact IH.
Qed.

Lemma update_of_unlisted_document_is_ignored_witness :
  snd (Client.Query.on_publication Scenario.quiet_host Cases.cheap
         (Cases.updated "b" (JObj [("price", JNum 3)]) 5) None
         Scenario.fresh_client Cases.listed_a)
  = Cases.listed_a.
Proof.
  apply (update_of_unlisted_document_is_ignored Scenario.quiet_host Cases.cheap
           (Cases.updated "b" (JObj [("price", JNum 3)]) 5) None
           Scenario.fresh_client Cases.listed_a).
  - reflexivity.
  - reflexivity.
  - repeat constructor.
Defined.

Lemma entry_get_set_other (k k' : string) (v : Sdk.js_value)
    (d : Client.Query.entry) :
  k <> k' ->
  Client.Query.entry_get k (Client.Query.entry_set k' v d)
  = Client.Query.entry_get k d.
Proof.
  intros Hne. induction d as [|[k0 v0] d IH]; simpl.
  - destruct (String.eqb_spec k k'); [contradiction|reflexivity].
  - destruct (String.eqb_spec k' k0) as [->|Hne0]; simpl.
    + destruct (String.eqb_spec k k0); [contradiction|reflexivity].
    + destruct (String.eqb k k0); [reflexivity|exact IH].
Qed.

Lemma entry_get_assign (k : string) (ms : list (string * json))
    (d : Client.Query.entry) :
  Json.get k ms = None ->
  Client.Query.entry_get k
    (fold_left (fun acc kv => Client.Query.entry_set (fst kv) (Sdk.Value (snd kv)) acc)
       ms d)
  = Client.Query.entry_get k d.
Proof.
  revert d. induction ms as [|[k' v'] ms IH]; intros d; simpl; [reflexivity|].
  destruct (String.eqb_spec k k') as [|Hne]; [discriminate|].
  intros Hget. rewrite IH by exact Hget. now apply entry_get_set_other.
Qed.

Lemma filter_without (i : option string) (docs : list Client.Query.entry) :
  List.filter (Client.Query.has_id i) (Client.Query.without i docs) = [].
Proof.
  unfold Client.Query.without. induction docs as [|d docs IH]; simpl; [reflexivity|].
  destruct (Client.Query.has_id i d) eqn:Hd; simpl; [exact IH|].
  now rewrite Hd.
Qed.

(** X30. After a CREATED publication for a document that passes the
    filters and whose data has no member [id], the list of a live query
    (without limit or order) holds the document exactly once, at its end:
    an entry that was listed under that id is replaced. *)
Theorem created_document_is_listed_once (h : host) (q : Client.Query.t)
    (event : Worker.pub_data) (refetched : option (list Client.Query.entry))
    (c : Sdk.client) (docs : list Client.Query.entry) (doc : Worker.pub_doc)
    (i : string) :
  Worker.pub_kind event = Worker.CREATED ->
  Client.Query.windowed q = false ->
  Worker.pub_doc_member event = Some doc ->
  Client.Query.docId event = Some i ->
  Sdk.matches h (Client.Query.filters q) (default JNull (Worker.pd_data doc))
  = Some true ->
  Json.get "id" (Client.spread (default JNull (Worker.pd_data doc))) = None ->
  let docs' := snd (Client.Query.on_publication h q event refetched c docs) in
  docs' = Client.Query.without (Some i) docs
          ++ [Client.Query.new_entry (Some i) (default JNull (Worker.pd_data doc))]
  /\ List.filter (Client.Query.has_id (Some i)) docs'
     = [Client.Query.new_entry (Some i) (default JNull (Worker.pd_data doc))].
Proof.
  intros Hkind Hwin Hdoc Hid Hmatch Hnoid. unfold Client.Query.on_publication.
  rewrite Hkind, Hdoc, Hmatch, Hwin, Hid. simpl.
  split; [reflexivity|].
  rewrite List.filter_app, filter_without. simpl.
  unfold Client.Query.has_id, Client.Query.new_entry, Client.Query.entry_assign.
  rewrite entry_get_assign by exact Hnoid. simpl.
  now rewrite String.eqb_refl.
Qed.

Lemma created_document_is_listed_once_witness :
  let doc :=
    {| Worker.pd_id := "a"; Worker.pd_collection := Some "items";
       Worker.pd_path := "items/" +:+ "a";
       Worker.pd_data := Some (JObj [("price", JNum 7)]);
       Worker.pd_version := Some 4; Worker.pd_userId := None;
       Worker.pd_workspaceId := Some "default" |} in
  let docs' :=
    snd (Client.Query.on_publication Scenario.quiet_host Cases.cheap
           (Cases.created "a" (JObj [("price", JNum 7)]) 4) None
           Scenario.fresh_client Cases.listed_a) in
  docs' = Client.Query.without (Some "a") Cases.listed_a
          ++ [Client.Query.new_entry (Some "a") (default JNull (Worker.pd_data doc))]
  /\ List.filter (Client.Query.has_id (Some "a")) docs'
     = [Client.Query.new_entry (Some "a") (default JNull (Worker.pd_data doc))].
Proof.
  apply (created_document_is_listed_once Scenario.quiet_host Cases.cheap
           (Cases.created "a" (JObj [("price", JNum 7)]) 4) None
           Scenario.fresh_client Cases.listed_a
           {| Worker.pd_id := "a"; Worker.pd_collection := Some "items";
              Worker.pd_path := "items/" +:+ "a";
              Worker.pd_data := Some (JObj [("price", JNum 7)]);
              Worker.pd_version := Some 4; Worker.pd_userId := None;
              Worker.pd_workspaceId := Some "default" |}
           "a").
  - reflexivity.
  - reflexivity.
  - reflexivity.
  - reflexivity.
  - reflexivity.
  - reflexivity.
Defined.
